(** * Memories MCP server (Lab 14): a shallow embedding of [server.py]

    The development follows the layout of the Python module:
    text helpers, the regular expressions of [_SECRET_PATTERNS] and
    [_redact_secrets], the vector-store resolver with its process-wide
    cache, [_build_attribute_filter], and the five tools
    [save_memory], [search_memory], [list_memories],
    [get_memory_content], [delete_memory].

    Conventions.
    - A Python [str] is a [string]; one [ascii] stands for the code point
      of the same number, so the text domain of the model is the range
      U+0000..U+00FF.  The character tables ([is_space], [is_word]) are
      the ones CPython uses for [str.strip], [\s], [\w] and [\b] on that
      range.
    - A Python [dict] is an association list in insertion order.
    - The OpenAI client is a record of operations over an abstract remote
      state; every remote call is appended to a call log.
    - [logger] output goes to stderr and is not part of the model. *)

From Stdlib Require Import String Ascii List ZArith Lia Bool PeanoNat.
From Stdlib Require Import DecimalString.
Import ListNotations.
Local Open Scope string_scope.
Local Open Scope list_scope.
Local Open Scope nat_scope.

Set Implicit Arguments.
Set Warnings "-register-all".

(* ================================================================== *)
(** ** Python values *)

Inductive pyval : Type :=
| VNone
| VBool (b : bool)
| VInt (z : Z)
| VStr (s : string)
| VList (l : list pyval)
| VDict (d : list (string * pyval)).

Definition pydict := list (string * pyval).

Fixpoint dict_get (d : pydict) (k : string) : option pyval :=
  match d with
  | [] => None
  | (k', v) :: d' => if (k' =? k)%string then Some v else dict_get d' k
  end.

(** [d[k] = v]: overwrite in place, or append as the newest key. *)
Fixpoint dict_set (d : pydict) (k : string) (v : pyval) : pydict :=
  match d with
  | [] => [(k, v)]
  | (k', v') :: d' =>
      if (k' =? k)%string then (k', v) :: d' else (k', v') :: dict_set d' k v
  end.

Definition opt_str (o : option string) : pyval :=
  match o with Some s => VStr s | None => VNone end.

Definition opt_dict (o : option pydict) : pyval :=
  match o with Some d => VDict d | None => VNone end.

(** Python truthiness of the values the module tests with [if x:]. *)
Definition truthy_str (s : string) : bool := negb (s =? EmptyString)%string.

Definition truthy_ostr (o : option string) : bool :=
  match o with Some s => truthy_str s | None => false end.

Definition truthy_olist {A} (o : option (list A)) : bool :=
  match o with Some (_ :: _) => true | _ => false end.

Definition truthy (v : pyval) : bool :=
  match v with
  | VNone => false
  | VBool b => b
  | VInt z => negb (z =? 0)%Z
  | VStr s => truthy_str s
  | VList l => match l with [] => false | _ => true end
  | VDict d => match d with [] => false | _ => true end
  end.

(* ================================================================== *)
(** ** Characters and text *)

Definition code (c : ascii) : nat := nat_of_ascii c.

Definition between (lo hi : nat) (c : ascii) : bool :=
  (lo <=? code c) && (code c <=? hi).

Definition is_code (n : nat) (c : ascii) : bool := code c =? n.

Definition is_digit (c : ascii) : bool := between 48 57 c.
Definition is_upper (c : ascii) : bool := between 65 90 c.
Definition is_lower (c : ascii) : bool := between 97 122 c.

(** [str.isspace] / [\s] on U+0000..U+00FF. *)
Definition is_space (c : ascii) : bool :=
  between 9 13 c || between 28 32 c || is_code 133 c || is_code 160 c.

(** [\w] on U+0000..U+00FF: alphanumerics and the underscore. *)
Definition is_word (c : ascii) : bool :=
  is_digit c || is_upper c || is_lower c || is_code 95 c
  || is_code 170 c || between 178 179 c || is_code 181 c
  || between 185 186 c || between 188 190 c || between 192 214 c
  || between 216 246 c || between 248 255 c.

Definition is_wordo (o : option ascii) : bool :=
  match o with Some c => is_word c | None => false end.

Definition to_lower (c : ascii) : ascii :=
  if is_upper c then ascii_of_nat (code c + 32) else c.

Definition chars (s : string) : list ascii := list_ascii_of_string s.
Definition text (l : list ascii) : string := string_of_list_ascii l.

Fixpoint lstrip (l : list ascii) : list ascii :=
  match l with
  | c :: l' => if is_space c then lstrip l' else l
  | [] => []
  end.

(** [s.strip()] *)
Definition strip (s : string) : string :=
  text (rev (lstrip (rev (lstrip (chars s))))).

(** [len(s)] *)
Definition len (s : string) : Z := Z.of_nat (String.length s).

(** [s[:n]] *)
Definition prefix (n : nat) (s : string) : string := substring 0 n s.

(** [str(n)] for an [int] *)
Definition str_of_int (z : Z) : string := NilZero.string_of_int (Z.to_int z).

(* ================================================================== *)
(** ** Regular expressions

    The fragment of [re] the module uses: literals, character sets,
    [\b], greedy repetition of a character set, alternation and
    concatenation.  [ends r prev s] lists, in the priority order of a
    backtracking matcher, the lengths of the matches of [r] at the start
    of [s], where [prev] is the character before [s] (for [\b]).  The
    match [re] reports at a position is the first one. *)

Definition charset := ascii -> bool.

Inductive regex : Type :=
| Eps
| Chr (cs : charset)
| WordB
| Rep (cs : charset) (lo : nat) (hi : option nat)
| Alt (r1 r2 : regex)
| Seq (r1 r2 : regex).

Declare Scope regex_scope.
Delimit Scope regex_scope with re.
Notation "a >> b" := (Seq a b) (at level 61, right associativity) : regex_scope.

Definition ch (c : ascii) : charset := Ascii.eqb c.

(** A literal character under [(?i)]. *)
Definition ch_ci (c : ascii) : charset :=
  fun x => Ascii.eqb (to_lower x) (to_lower c).

Fixpoint lit (s : string) : regex :=
  match s with
  | EmptyString => Eps
  | String c s' => Seq (Chr (ch c)) (lit s')
  end.

Fixpoint lit_ci (s : string) : regex :=
  match s with
  | EmptyString => Eps
  | String c s' => Seq (Chr (ch_ci c)) (lit_ci s')
  end.

(** Length of the longest prefix of [s] inside [cs]. *)
Fixpoint run (cs : charset) (s : list ascii) : nat :=
  match s with
  | c :: s' => if cs c then S (run cs s') else 0
  | [] => 0
  end.

Definition cap (hi : option nat) (n : nat) : nat :=
  match hi with Some h => Nat.min h n | None => n end.

(** [m, m-1, ..., lo] (empty when [m < lo]): a greedy repetition gives
    back one character at a time. *)
Definition countdown (lo m : nat) : list nat := rev (seq lo (S m - lo)).

(** The character before position [n] of [s], [prev] being the one
    before position 0. *)
Definition prev_after (prev : option ascii) (s : list ascii) (n : nat)
  : option ascii :=
  match n with
  | O => prev
  | S m => nth_error s m
  end.

Fixpoint ends (r : regex) (prev : option ascii) (s : list ascii) : list nat :=
  match r with
  | Eps => [0]
  | Chr cs => match s with
              | c :: _ => if cs c then [1] else []
              | [] => []
              end
  | WordB => if xorb (is_wordo prev) (is_wordo (hd_error s)) then [0] else []
  | Rep cs lo hi => countdown lo (cap hi (run cs s))
  | Alt r1 r2 => ends r1 prev s ++ ends r2 prev s
  | Seq r1 r2 =>
      flat_map (fun n1 => map (Nat.add n1)
                            (ends r2 (prev_after prev s n1) (skipn n1 s)))
               (ends r1 prev s)
  end.

Definition match_at (r : regex) (prev : option ascii) (s : list ascii)
  : option nat :=
  hd_error (ends r prev s).

(** [pat.sub(repl, s)]: scan left to right; at a position where the
    pattern matches [S k] characters emit [repl] and skip them, otherwise
    copy one character.  [skip] counts the characters of the current
    match still to be dropped.  (No pattern of this module matches the
    empty string; a position with an empty match is copied.) *)
Fixpoint sub_from (r : regex) (repl : list ascii) (prev : option ascii)
         (s : list ascii) (skip : nat) : list ascii :=
  match s with
  | [] => []
  | c :: s' =>
      match skip with
      | S k => sub_from r repl (Some c) s' k
      | O => match match_at r prev s with
             | Some (S k) => repl ++ sub_from r repl (Some c) s' k
             | _ => c :: sub_from r repl (Some c) s' 0
             end
      end
  end.

Definition re_sub (r : regex) (repl s : list ascii) : list ascii :=
  sub_from r repl None s 0.

(** *** Static analyses of a pattern

    Each is a syntactic over-approximation of what the matcher can do;
    the soundness lemmas are in the second half of the file. *)

(** The pattern may match the empty string. *)
Fixpoint nullable (r : regex) : bool :=
  match r with
  | Eps | WordB => true
  | Chr _ => false
  | Rep _ lo _ => lo =? 0
  | Alt r1 r2 => nullable r1 || nullable r2
  | Seq r1 r2 => nullable r1 && nullable r2
  end.

(** The characters a non-empty match may start with. *)
Fixpoint first_set (r : regex) (c : ascii) : bool :=
  match r with
  | Eps | WordB => false
  | Chr cs => cs c
  | Rep cs _ _ => cs c
  | Alt r1 r2 => first_set r1 c || first_set r2 c
  | Seq r1 r2 => first_set r1 c || (nullable r1 && first_set r2 c)
  end.

(** The characters a match may contain. *)
Fixpoint may_consume (r : regex) (c : ascii) : bool :=
  match r with
  | Eps | WordB => false
  | Chr cs => cs c
  | Rep cs _ _ => cs c
  | Alt r1 r2 => may_consume r1 c || may_consume r2 c
  | Seq r1 r2 => may_consume r1 c || may_consume r2 c
  end.

Fixpoint wordb_free (r : regex) : bool :=
  match r with
  | WordB => false
  | Eps | Chr _ | Rep _ _ _ => true
  | Alt r1 r2 => wordb_free r1 && wordb_free r2
  | Seq r1 r2 => wordb_free r1 && wordb_free r2
  end.

(** The pattern begins, respectively ends, with [\b]. *)
Fixpoint starts_wordb (r : regex) : bool :=
  match r with
  | WordB => true
  | Seq r1 _ => starts_wordb r1
  | _ => false
  end.

Fixpoint ends_wordb (r : regex) : bool :=
  match r with
  | WordB => true
  | Seq _ r2 => ends_wordb r2
  | _ => false
  end.

(** The unbounded repetition the pattern ends with, if any. *)
Fixpoint last_rep (r : regex) : option charset :=
  match r with
  | Rep cs _ None => Some cs
  | Seq _ r2 => last_rep r2
  | _ => None
  end.

(** Whether a match ends does not depend on the text after it. *)
Fixpoint no_lookahead (r : regex) : bool :=
  wordb_free r
  || match r with
     | Seq _ r2 => negb (nullable r2) && no_lookahead r2
     | _ => false
     end.

Definition lbracket : ascii := "["%char.

(** Only the final repetition of the pattern can take a [[], and the
    parts before it are decided before the [[] is reached. *)
Fixpoint crossable (r : regex) : bool :=
  match r with
  | Rep _ lo None => lo <=? 1
  | Seq r1 r2 =>
      negb (may_consume r1 lbracket) && crossable r2
      && (wordb_free r1 || (negb (nullable r2) && negb (first_set r2 lbracket)))
  | _ => false
  end.

(** The pattern matches at no position of [s]. *)
Fixpoint nomatch (r : regex) (prev : option ascii) (s : list ascii) : Prop :=
  match s with
  | [] => True
  | c :: s' => ends r prev s = [] /\ nomatch r (Some c) s'
  end.

(** At a position the scan of [q] copies, [r] does not match either. *)
Definition copied (m : option nat) : bool :=
  match m with
  | Some (S _) => false
  | _ => true
  end.

Fixpoint covered (q r : regex) (prev : option ascii) (s : list ascii) : Prop :=
  match s with
  | [] => True
  | c :: s' =>
      (copied (match_at q prev s) = true -> ends r prev s = [])
      /\ covered q r (Some c) s'
  end.

(** A test on every character of the model. *)
Definition all_ascii (f : ascii -> bool) : bool :=
  forallb f (map ascii_of_nat (seq 0 256)).

(** The shape shared by the patterns of the module: never empty,
    anchored by [\b] before a word character other than the [R] of the
    replacement, and either made of bracket-free text closed by [\b], or
    ending in an open repetition that takes every word character. *)
Definition word_start (r : regex) : Prop :=
  forall c, first_set r c = true -> is_word c = true /\ c <> "R"%char.

Definition kind_closed (r : regex) : Prop :=
  may_consume r lbracket = false /\ ends_wordb r = true.

Definition kind_open (r : regex) : Prop :=
  crossable r = true /\ no_lookahead r = true
  /\ exists cs, last_rep r = Some cs /\ forall c, is_word c = true -> cs c = true.

Record secret_like (r : regex) : Prop := {
  sl_nullable : nullable r = false;
  sl_starts : starts_wordb r = true;
  sl_first : word_start r;
  sl_kind : kind_closed r \/ kind_open r
}.

(** One context stands for the other in front of [s]: same word class,
    or nothing can start at the head of [s] anyway. *)
Definition same_side (prev prev' : option ascii) (s : list ascii) : Prop :=
  is_wordo prev' = is_wordo prev
  \/ (is_wordo prev' = false /\ is_wordo (hd_error s) = false).

(* ================================================================== *)
(** ** Redaction: [_SECRET_PATTERNS] and [_redact_secrets] *)

Definition dquote : ascii := "034"%char.
Definition squote : ascii := "039"%char.

(** [[A-Za-z0-9\-\._~\+\/]] *)
Definition tok_ch : charset := fun c =>
  is_upper c || is_lower c || is_digit c
  || ch "-" c || ch "." c || ch "_" c || ch "~" c || ch "+" c || ch "/" c.
(** [[0-9A-Z]] *)
Definition akia_ch : charset := fun c => is_digit c || is_upper c.
(** [[-_ ]] *)
Definition sep_ch : charset := fun c => ch "-" c || ch "_" c || ch " " c.
(** [[:=]] *)
Definition assign_ch : charset := fun c => ch ":" c || ch "=" c.
(** The set of the two quote characters. *)
Definition quote_ch : charset := fun c => ch squote c || ch dquote c.
(** Neither a quote nor whitespace. *)
Definition value_ch : charset := fun c => negb (quote_ch c || is_space c).

Local Open Scope regex_scope.

(** [(?i)\bAuthorization:\s*Bearer\s+[A-Za-z0-9\-\._~\+\/]+=*\b] *)
Definition pat_authorization : regex :=
  WordB >> lit_ci "Authorization:" >> Rep is_space 0 None >>
  lit_ci "Bearer" >> Rep is_space 1 None >> Rep tok_ch 1 None >>
  Rep (ch "=") 0 None >> WordB.

(** [(?i)\bBearer\s+[A-Za-z0-9\-\._~\+\/]+=*\b] *)
Definition pat_bearer : regex :=
  WordB >> lit_ci "Bearer" >> Rep is_space 1 None >> Rep tok_ch 1 None >>
  Rep (ch "=") 0 None >> WordB.

(** [\bAKIA[0-9A-Z]{16}\b] *)
Definition pat_akia : regex :=
  WordB >> lit "AKIA" >> Rep akia_ch 16 (Some 16) >> WordB.

(** The tail shared by the last two patterns:
    [\s*[:=]\s*[quotes]?[^quotes\s]+] *)
Definition assign_tail : regex :=
  Rep is_space 0 None >> Chr assign_ch >> Rep is_space 0 None >>
  Rep quote_ch 0 (Some 1) >> Rep value_ch 1 None.

(** [(?i)\b(openai|api)[-_ ]?key\b] followed by [assign_tail] *)
Definition pat_api_key : regex :=
  WordB >> Alt (lit_ci "openai") (lit_ci "api") >> Rep sep_ch 0 (Some 1) >>
  lit_ci "key" >> WordB >> assign_tail.

(** [(?i)\btoken\b] followed by [assign_tail] *)
Definition pat_token : regex :=
  WordB >> lit_ci "token" >> WordB >> assign_tail.

Local Close Scope regex_scope.

Definition _SECRET_PATTERNS : list regex :=
  [pat_authorization; pat_bearer; pat_akia; pat_api_key; pat_token].

Definition REDACTED : list ascii := chars "[REDACTED]".

(** One pass of the loop, from an arbitrary context. *)
Definition redact_with (r : regex) (prev : option ascii) (s : list ascii)
  : list ascii :=
  sub_from r REDACTED prev s 0.

(** The loop of [_redact_secrets] over a list of patterns. *)
Definition redact_all (pats : list regex) (s : list ascii) : list ascii :=
  fold_left (fun redacted pat => re_sub pat REDACTED redacted) pats s.

Definition redact_chars (s : list ascii) : list ascii :=
  redact_all _SECRET_PATTERNS s.

Definition _redact_secrets (txt : string) : string :=
  text (redact_chars (chars txt)).

(** [s] occurs in [t] as a contiguous substring. *)
Definition occurs_in (s t : list ascii) : Prop :=
  exists a b, t = a ++ s ++ b.

(** The sample secret of the specification. *)
Definition bearer_sample : list ascii := chars "Bearer abc123".

(** The last character of a text, if any. *)
Definition last_char (a : list ascii) : option ascii :=
  prev_after None a (length a).

(** A word character of the token alphabet (an ASCII letter, digit or
    underscore). *)
Definition word_tok (c : ascii) : bool := is_word c && tok_ch c.

(** The text after a token runs, through such characters, into a word
    character outside the token alphabet. *)
Definition glued_right (b : list ascii) : Prop :=
  exists w d rest,
    b = w ++ d :: rest
    /\ forallb word_tok w = true
    /\ is_word d = true /\ tok_ch d = false.

(* ================================================================== *)
(** ** [json.dumps(tags, ensure_ascii=False)] for a list of strings *)

Definition hex_digit (n : nat) : ascii :=
  if n <? 10 then ascii_of_nat (48 + n) else ascii_of_nat (87 + n).

Definition json_escape (c : ascii) : list ascii :=
  if ch dquote c then ["\"%char; dquote]
  else if ch "\" c then ["\"%char; "\"%char]
  else if is_code 10 c then ["\"%char; "n"%char]
  else if is_code 13 c then ["\"%char; "r"%char]
  else if is_code 9 c then ["\"%char; "t"%char]
  else if is_code 8 c then ["\"%char; "b"%char]
  else if is_code 12 c then ["\"%char; "f"%char]
  else if code c <? 32 then
    ["\"%char; "u"%char; "0"%char; "0"%char;
     hex_digit (code c / 16); hex_digit (code c mod 16)]
  else [c].

Definition json_string (s : string) : string :=
  text (dquote :: flat_map json_escape (chars s) ++ [dquote]).

Definition json_dumps (tags : list string) : string :=
  "[" ++ String.concat ", " (map json_string tags) ++ "]".

(* ================================================================== *)
(** ** [_build_attribute_filter] *)

Definition eq_leaf (key value : string) : pyval :=
  VDict [("type", VStr "eq"); ("key", VStr key); ("value", VStr value)].

Definition and_node (filters : list pyval) : pyval :=
  VDict [("type", VStr "and"); ("filters", VList filters)].

Definition _build_attribute_filter
           (user_id session_id : option string) (tags : option (list string))
           (memory_type : option string) : option pyval :=
  let filters : list pyval := [] in
  let filters :=
    match user_id with
    | Some u => if truthy_str u then filters ++ [eq_leaf "user_id" u] else filters
    | None => filters
    end in
  let filters :=
    match session_id with
    | Some s => if truthy_str s then filters ++ [eq_leaf "session_id" s] else filters
    | None => filters
    end in
  let filters :=
    match memory_type with
    | Some t => if truthy_str t then filters ++ [eq_leaf "type" t] else filters
    | None => filters
    end in
  let filters :=
    match tags with
    | Some (t :: ts) => filters ++ [eq_leaf "tags_json" (json_dumps (t :: ts))]
    | _ => filters
    end in
  match filters with
  | [] => None
  | [leaf] => Some leaf
  | _ => Some (and_node filters)
  end.

(* ================================================================== *)
(** ** Exceptions, the OpenAI client and the process state *)

(** The exception classes the module tells apart: [TypeError],
    [AttributeError], and any other [Exception]; [str(e)] is the
    message. *)
Inductive exn : Type :=
| TypeError (msg : string)
| AttributeError (msg : string)
| OtherError (msg : string).

Definition str_exn (e : exn) : string :=
  match e with
  | TypeError m => m
  | AttributeError m => m
  | OtherError m => m
  end.

Inductive reply (A : Type) : Type :=
| Ok (a : A)
| Err (e : exn).
Arguments Ok {A} a.
Arguments Err {A} e.

Record Store := { store_id : string; store_name : option string }.

(** A page of a listing; [None] in [has_more] / [last_id] stands for a
    missing attribute (the module reads both with [getattr] and a
    default). *)
Record Page (A : Type) := {
  data : list A;
  has_more : option bool;
  last_id : option string
}.

Record FileRef := { file_ref_id : string }.

Record FileDetail := {
  fd_id : string;
  fd_created_at : option Z;
  fd_status : option string;
  fd_attributes : option pydict
}.

Record Chunk := { chunk_type : option string; chunk_text : string }.

Record SearchItem := {
  si_file_id : string;
  si_filename : string;
  si_score : pyval;
  si_attributes : option pydict;
  si_content : list Chunk
}.

Record SearchResults := {
  sr_data : list SearchItem;
  sr_search_query : option string;
  sr_has_more : option bool
}.

Record Deleted := { deleted_flag : option bool }.

(** The two keyword names under which the filter is sent to
    [vector_stores.search]. *)
Inductive FilterParam : Type := filters_kw | attribute_filter_kw.

(** [client]: every operation takes the remote state and returns a reply
    and the next remote state.  The clock is read off the same state. *)
Record Client (W : Type) := {
  vector_stores_list : Z -> option string -> W -> reply (Page Store) * W;
  vector_stores_create : string -> W -> reply Store * W;
  files_upload_and_poll : string -> string -> string -> W -> reply string * W;
  files_update : string -> string -> pydict -> W -> reply unit * W;
  vector_stores_search :
    FilterParam -> string -> string -> Z -> bool -> option pyval ->
    W -> reply SearchResults * W;
  files_list : string -> Z -> option string -> W -> reply (Page FileRef) * W;
  files_retrieve : string -> string -> W -> reply FileDetail * W;
  files_content : string -> string -> W -> reply pyval * W;
  files_delete : string -> string -> W -> reply Deleted * W;
  time_time : W -> Z;
  utc_now_iso : W -> string
}.

(** Environment variables read at import time. *)
Record Config := {
  VECTOR_STORE_NAME : string;
  VECTOR_STORE_ID_ENV : option string;
  MAX_MEMORY_CHARS : Z;
  REDACT_SECRETS_DEFAULT : bool
}.

Inductive Call : Type :=
| CStoresList (limit : Z) (after : option string)
| CStoresCreate (name : string)
| CUpload (vector_store_id txt filename : string)
| CUpdate (vector_store_id file_id : string) (attributes : pydict)
| CSearch (kw : FilterParam) (vector_store_id query : string)
          (max_num_results : Z) (rewrite_query : bool) (flt : option pyval)
| CFilesList (vector_store_id : string) (limit : Z) (flt : option string)
| CRetrieve (vector_store_id file_id : string)
| CContent (vector_store_id file_id : string)
| CDelete (vector_store_id file_id : string).

(** What the log keeps of an answer: the identifier a create or upload
    returned, or the exception. *)
Inductive Answer : Type :=
| Returned (ident : option string)
| Raised (e : exn).

Record Event := { ev_call : Call; ev_answer : Answer }.

(** The module-level [_vector_store_id_cache], the remote state and the
    log of remote calls made so far. *)
Record State (W : Type) := {
  cache : option string;
  world : W;
  calls : list Event
}.

(** How a call of a tool ends: it returns, it raises past its boundary,
    or the step budget of the pagination loop ran out. *)
Inductive outcome (A : Type) : Type :=
| Ret (a : A)
| Raise (e : exn)
| OutOfFuel.
Arguments Ret {A} a.
Arguments Raise {A} e.
Arguments OutOfFuel {A}.

Section Monad.
Context {W : Type}.

Definition M (A : Type) : Type := State W -> outcome A * State W.

Definition ret {A} (a : A) : M A := fun st => (Ret a, st).

Definition bind {A B} (m : M A) (k : A -> M B) : M B :=
  fun st =>
    match m st with
    | (Ret a, st') => k a st'
    | (Raise e, st') => (Raise e, st')
    | (OutOfFuel, st') => (OutOfFuel, st')
    end.

Definition out_of_fuel {A} : M A := fun st => (OutOfFuel, st).

(** [try: body except ...]: the handler names the exceptions it
    catches; the others keep propagating. *)
Definition try_except {A} (body : M A) (handler : exn -> option (M A)) : M A :=
  fun st =>
    match body st with
    | (Raise e, st') =>
        match handler e with
        | Some h => h st'
        | None => (Raise e, st')
        end
    | r => r
    end.

Definition lift {A} (r : reply A) : M A :=
  fun st => match r with
            | Ok a => (Ret a, st)
            | Err e => (Raise e, st)
            end.

Definition get_cache : M (option string) := fun st => (Ret (cache st), st).

Definition set_cache (v : option string) : M unit :=
  fun st => (Ret tt, {| cache := v; world := world st; calls := calls st |}).

Definition read {A} (f : W -> A) : M A := fun st => (Ret (f (world st)), st).

(** One remote call: run it on the remote state and log it. *)
Definition remote {A} (c : Call) (ident : A -> option string)
           (op : W -> reply A * W) : M A :=
  fun st =>
    let (r, w') := op (world st) in
    match r with
    | Ok a =>
        (Ret a, {| cache := cache st; world := w';
                   calls := calls st ++ [{| ev_call := c; ev_answer := Returned (ident a) |}] |})
    | Err e =>
        (Raise e, {| cache := cache st; world := w';
                     calls := calls st ++ [{| ev_call := c; ev_answer := Raised e |}] |})
    end.
End Monad.

Notation "x <- m ;; k" := (bind m (fun x => k))
  (at level 62, m at next level, right associativity).
Notation "m ;;; k" := (bind m (fun _ => k))
  (at level 62, right associativity).

Definition no_ident {A} (_ : A) : option string := None.

Definition getattr_bool (o : option bool) (default : bool) : bool :=
  match o with Some b => b | None => default end.

(* ================================================================== *)
(** ** The server *)

Definition a_tilde : ascii := "227"%char.
Definition o_tilde : ascii := "245"%char.

Definition MSG_EMPTY_MEMORY : string :=
  "memory deve ser uma string n" ++ String a_tilde "o-vazia".
Definition MSG_EMPTY_QUERY : string :=
  "query deve ser uma string n" ++ String a_tilde "o-vazia".
Definition MSG_TOO_LONG (limit : Z) : string :=
  "memory excede o limite do lab (" ++ str_of_int limit ++ " chars).".
Definition MSG_NO_CONTENT_METHOD : string :=
  "Seu openai SDK n" ++ String a_tilde "o exp" ++ String o_tilde
  "e client.vector_stores.files.content(...). Atualize o pacote openai.".

(** [x == s] for a value read from a mapping and a [str]. *)
Definition py_eq_str (v : option pyval) (s : string) : bool :=
  match v with
  | Some (VStr s') => (s' =? s)%string
  | _ => false
  end.

(** [type(v).__name__] *)
Definition type_name (v : pyval) : string :=
  match v with
  | VNone => "NoneType"
  | VBool _ => "bool"
  | VInt _ => "int"
  | VStr _ => "str"
  | VList _ => "list"
  | VDict _ => "dict"
  end.

(** The elements [for c in v] visits; iterating a [str] or a [dict]
    yields strings. *)
Definition py_iter (v : pyval) : reply (list pyval) :=
  match v with
  | VList l => Ok l
  | VStr s => Ok (map (fun c => VStr (String c EmptyString)) (chars s))
  | VDict d => Ok (map (fun kv => VStr (fst kv)) d)
  | _ => Err (TypeError ("'" ++ type_name v ++ "' object is not iterable"))
  end.

(** [c.get(k)] on an element that must be a mapping. *)
Definition py_get (c : pyval) (k : string) : reply (option pyval) :=
  match c with
  | VDict d => Ok (dict_get d k)
  | _ => Err (AttributeError
                ("'" ++ type_name c ++ "' object has no attribute 'get'"))
  end.

Definition opt_val (o : option pyval) : pyval :=
  match o with Some v => v | None => VNone end.

(** [[c.get("text") for c in cs if c.get("type") == "text"]] *)
Fixpoint text_chunks (cs : list pyval) : reply (list pyval) :=
  match cs with
  | [] => Ok []
  | c :: cs' =>
      match py_get c "type" with
      | Err e => Err e
      | Ok ty =>
          if py_eq_str ty "text" then
            match py_get c "text" with
            | Err e => Err e
            | Ok t =>
                match text_chunks cs' with
                | Err e => Err e
                | Ok ts => Ok (opt_val t :: ts)
                end
            end
          else text_chunks cs'
      end
  end.

(** The body of the [try] of [get_memory_content] after the remote call. *)
Definition content_texts (content_obj : pyval) : reply (list pyval) :=
  match py_get content_obj "content" with
  | Err e => Err e
  | Ok found =>
      match py_iter (match found with Some v => v | None => VList [] end) with
      | Err e => Err e
      | Ok cs =>
          match text_chunks cs with
          | Err e => Err e
          | Ok texts => Ok (filter truthy texts)
          end
      end
  end.

(** [[c.text for c in item.content if getattr(c, "type", None) == "text"]] *)
Definition item_texts (item : SearchItem) : list pyval :=
  map (fun c => VStr (chunk_text c))
      (filter (fun c => match chunk_type c with
                        | Some t => (t =? "text")%string
                        | None => false
                        end)
              (si_content item)).

Definition full_item (item : SearchItem) : pyval :=
  VDict [("file_id", VStr (si_file_id item));
         ("filename", VStr (si_filename item));
         ("score", si_score item);
         ("attributes", opt_dict (si_attributes item));
         ("content_texts", VList (item_texts item))].

Definition opt_int (o : option Z) : pyval :=
  match o with Some z => VInt z | None => VNone end.

Definition listed_item (detail : FileDetail) (attrs : pydict) : pyval :=
  VDict [("file_id", VStr (fd_id detail));
         ("created_at", opt_int (fd_created_at detail));
         ("status", opt_str (fd_status detail));
         ("attributes", VDict attrs)].

(** [getattr(detail, "attributes", None) or {}] *)
Definition attrs_of (detail : FileDetail) : pydict :=
  match fd_attributes detail with
  | Some (kv :: d) => kv :: d
  | _ => []
  end.

Definition cached_id (c : option string) : string :=
  match c with Some v => v | None => EmptyString end.

Definition ostr_value (o : option string) : string :=
  match o with Some s => s | None => EmptyString end.

Definition olist_value {A} (o : option (list A)) : list A :=
  match o with Some l => l | None => [] end.

(** The test of the loop of [list_memories]: the document is skipped
    when a [user_id] is asked for and its attribute differs. *)
Definition skipped (user_id : option string) (attrs : pydict) : bool :=
  truthy_ostr user_id
  && negb (py_eq_str (dict_get attrs "user_id") (ostr_value user_id)).

(** The [attributes] mapping [save_memory] builds between the upload and
    the update. *)
Definition memory_attributes (user_id memory_type now mem_hash : string)
           (do_redact : bool) (session_id : option string)
           (tags : option (list string)) : pydict :=
  let attributes : pydict :=
    [("user_id", VStr (prefix 64 user_id));
     ("type", VStr (prefix 64 memory_type));
     ("timestamp_utc", VStr (prefix 64 now));
     ("sha256", VStr (prefix 64 mem_hash));
     ("redacted", VBool do_redact)] in
  let attributes :=
    match session_id with
    | Some s => if truthy_str s
                then dict_set attributes "session_id" (VStr (prefix 64 s))
                else attributes
    | None => attributes
    end in
  match tags with
  | Some (t :: ts) =>
      dict_set attributes "tags_json" (VStr (prefix 512 (json_dumps (t :: ts))))
  | _ => attributes
  end.

(** [[^a-zA-Z0-9_\-]] *)
Definition unsafe_ch : charset := fun c =>
  negb (is_lower c || is_upper c || is_digit c || ch "_" c || ch "-" c).

(** The file name [save_memory] derives from the user and the time. *)
Definition memory_filename (user_id : string) (ts : Z) : string :=
  let safe_user :=
    prefix 32 (text (re_sub (Chr unsafe_ch) (chars "_") (chars user_id))) in
  "memory_" ++ safe_user ++ "_" ++ str_of_int ts ++ ".txt".

(** A call of [search_memory] as the caller writes it: [None] is an
    argument left out, which Python binds to the default of the
    signature. *)
Record search_request := {
  q_query : string;
  q_user_id : option string;
  q_session_id : option string;
  q_memory_type : option string;
  q_tags : option (list string);
  q_max_results : option Z;
  q_rewrite_query : option bool;
  q_return_full_items : option bool
}.

Definition with_default {A} (default : A) (o : option A) : A :=
  match o with Some a => a | None => default end.

Section Server.
Context {W : Type}.
Variable client : Client W.
Variable cfg : Config.
(** [hashlib.sha256(text.encode("utf-8")).hexdigest()] *)
Variable sha256_hex : string -> string.

(** [_vector_store_id_cache = VECTOR_STORE_ID_ENV or None] *)
Definition initial_state (w : W) : State W :=
  {| cache := if truthy_ostr (VECTOR_STORE_ID_ENV cfg)
              then VECTOR_STORE_ID_ENV cfg else None;
     world := w;
     calls := [] |}.

Definition _utc_now_iso : M string := read (utc_now_iso client).

Definition _sha256_text (txt : string) : string := sha256_hex txt.

(** The first store of the page named [VECTOR_STORE_NAME]. *)
Definition find_store (stores : list Store) : option Store :=
  find (fun store => match store_name store with
                     | Some n => (n =? VECTOR_STORE_NAME cfg)%string
                     | None => false
                     end) stores.

(** The code after the [while] loop of the resolver. *)
Definition create_store : M string :=
  created <- remote (CStoresCreate (VECTOR_STORE_NAME cfg))
                    (fun s => Some (store_id s))
                    (vector_stores_create client (VECTOR_STORE_NAME cfg)) ;;
  set_cache (Some (store_id created)) ;;;
  ret (store_id created).

(** The [while True] loop; one unit of [fuel] per page. *)
Fixpoint scan_pages (fuel : nat) (after : option string) : M string :=
  match fuel with
  | O => out_of_fuel
  | S fuel' =>
      page <- remote (CStoresList 100 after) no_ident
                     (vector_stores_list client 100 after) ;;
      match find_store (data page) with
      | Some store =>
          set_cache (Some (store_id store)) ;;;
          ret (store_id store)
      | None =>
          if negb (getattr_bool (has_more page) false) then create_store
          else
            let after := last_id page in
            if negb (truthy_ostr after) then create_store
            else scan_pages fuel' after
      end
  end.

(** [_get_or_create_vector_store_id].  The lock only serialises
    callers; in this sequential model taking it always succeeds. *)
Definition _get_or_create_vector_store_id (fuel : nat) : M string :=
  c <- get_cache ;;
  if truthy_ostr c then ret (cached_id c)
  else
    c2 <- get_cache ;;
    if truthy_ostr c2 then ret (cached_id c2)
    else scan_pages fuel None.

Definition _upload_text_as_file_to_vector_store
           (vector_store_id txt filename : string) : M string :=
  remote (CUpload vector_store_id txt filename) (fun fid => Some fid)
         (files_upload_and_poll client vector_store_id txt filename).

Definition _update_vector_store_file_attributes
           (vector_store_id file_id : string) (attributes : pydict) : M unit :=
  remote (CUpdate vector_store_id file_id attributes) no_ident
         (files_update client vector_store_id file_id attributes).

Definition health : M pydict :=
  c <- get_cache ;;
  now <- _utc_now_iso ;;
  ret [("status", VStr "ok");
       ("vector_store_name", VStr (VECTOR_STORE_NAME cfg));
       ("vector_store_id_cached", VBool (truthy_ostr c));
       ("time_utc", VStr now)].

Definition save_memory (memory user_id : string) (session_id : option string)
           (memory_type : string) (tags : option (list string))
           (redact_secrets : option bool) (fuel : nat) : M pydict :=
  if negb (truthy_str (strip memory)) then
    ret [("status", VStr "error"); ("error", VStr MSG_EMPTY_MEMORY)]
  else if (len memory >? MAX_MEMORY_CHARS cfg)%Z then
    ret [("status", VStr "error");
         ("error", VStr (MSG_TOO_LONG (MAX_MEMORY_CHARS cfg)))]
  else
    let do_redact := match redact_secrets with
                     | None => REDACT_SECRETS_DEFAULT cfg
                     | Some b => b
                     end in
    let cleaned := if do_redact then _redact_secrets memory else memory in
    vector_store_id <- _get_or_create_vector_store_id fuel ;;
    let mem_hash := _sha256_text cleaned in
    ts <- read (time_time client) ;;
    let filename := memory_filename user_id ts in
    try_except
      (file_id <- _upload_text_as_file_to_vector_store
                    vector_store_id cleaned filename ;;
       now <- _utc_now_iso ;;
       let attributes :=
         memory_attributes user_id memory_type now mem_hash do_redact
                           session_id tags in
       _update_vector_store_file_attributes
         vector_store_id file_id attributes ;;;
       ret [("status", VStr "saved");
            ("vector_store_id", VStr vector_store_id);
            ("file_id", VStr file_id);
            ("sha256", VStr mem_hash);
            ("attributes", VDict attributes)])
      (fun e => Some (ret [("status", VStr "error");
                           ("error", VStr (str_exn e))])).

Definition search_call (kw : FilterParam) (vector_store_id query : string)
           (max_results : Z) (rewrite_query : bool)
           (attribute_filter : option pyval) : M SearchResults :=
  remote (CSearch kw vector_store_id query max_results rewrite_query
                  attribute_filter)
         no_ident
         (vector_stores_search client kw vector_store_id query max_results
                               rewrite_query attribute_filter).

Definition search_memory (query user_id : string) (session_id : option string)
           (memory_type : option string) (tags : option (list string))
           (max_results : Z) (rewrite_query return_full_items : bool)
           (fuel : nat) : M pydict :=
  if negb (truthy_str (strip query)) then
    ret [("status", VStr "error"); ("error", VStr MSG_EMPTY_QUERY)]
  else
    let max_results := Z.max 1 (Z.min max_results 50) in
    vector_store_id <- _get_or_create_vector_store_id fuel ;;
    let attribute_filter :=
      _build_attribute_filter (Some user_id) session_id tags memory_type in
    results <-
      try_except
        (search_call filters_kw vector_store_id query max_results
                     rewrite_query attribute_filter)
        (fun e => match e with
                  | TypeError _ =>
                      Some (search_call attribute_filter_kw vector_store_id
                                        query max_results rewrite_query
                                        attribute_filter)
                  | _ => None
                  end) ;;
    let search_query := match sr_search_query results with
                        | Some q => q
                        | None => query
                        end in
    if return_full_items then
      ret [("status", VStr "ok");
           ("vector_store_id", VStr vector_store_id);
           ("search_query", VStr search_query);
           ("results", VList (map full_item (sr_data results)));
           ("has_more", VBool (getattr_bool (sr_has_more results) false))]
    else
      ret [("status", VStr "ok");
           ("vector_store_id", VStr vector_store_id);
           ("search_query", VStr search_query);
           ("results", VList (flat_map item_texts (sr_data results)));
           ("has_more", VBool (getattr_bool (sr_has_more results) false))].

(** [search_memory] applied to a request, with the defaults of the
    signature:
    [user_id="default"], [max_results=8], [rewrite_query=True],
    [return_full_items=False]. *)
Definition call_search_memory (q : search_request) (fuel : nat) : M pydict :=
  search_memory (q_query q)
                (with_default "default" (q_user_id q))
                (q_session_id q) (q_memory_type q) (q_tags q)
                (with_default 8%Z (q_max_results q))
                (with_default true (q_rewrite_query q))
                (with_default false (q_return_full_items q))
                fuel.

(** The [for f in page.data] loop of [list_memories]. *)
Fixpoint collect_items (vector_store_id : string) (user_id : option string)
         (files : list FileRef) (items : list pyval) : M (list pyval) :=
  match files with
  | [] => ret items
  | f :: files' =>
      detail <- remote (CRetrieve vector_store_id (file_ref_id f)) no_ident
                       (files_retrieve client vector_store_id (file_ref_id f)) ;;
      let attrs := attrs_of detail in
      if skipped user_id attrs
      then collect_items vector_store_id user_id files' items
      else collect_items vector_store_id user_id files'
                         (items ++ [listed_item detail attrs])
  end.

Definition list_memories (user_id : option string) (limit : Z)
           (status_filter : option string) (fuel : nat) : M pydict :=
  vector_store_id <- _get_or_create_vector_store_id fuel ;;
  let limit := Z.max 1 (Z.min limit 100) in
  page <- remote (CFilesList vector_store_id limit status_filter) no_ident
                 (files_list client vector_store_id limit status_filter) ;;
  items <- collect_items vector_store_id user_id (data page) [] ;;
  ret [("status", VStr "ok");
       ("vector_store_id", VStr vector_store_id);
       ("count", VInt (Z.of_nat (length items)));
       ("items", VList items);
       ("has_more", VBool (getattr_bool (has_more page) false));
       ("last_id", opt_str (last_id page))].

Definition get_memory_content (file_id : string) (fuel : nat) : M pydict :=
  vector_store_id <- _get_or_create_vector_store_id fuel ;;
  detail <- remote (CRetrieve vector_store_id file_id) no_ident
                   (files_retrieve client vector_store_id file_id) ;;
  let attrs := attrs_of detail in
  try_except
    (content_obj <- remote (CContent vector_store_id file_id) no_ident
                           (files_content client vector_store_id file_id) ;;
     texts <- lift (content_texts content_obj) ;;
     ret [("status", VStr "ok");
          ("vector_store_id", VStr vector_store_id);
          ("file_id", VStr file_id);
          ("attributes", VDict attrs);
          ("content_texts", VList texts)])
    (fun e => match e with
              | AttributeError _ =>
                  Some (ret [("status", VStr "error");
                             ("error", VStr MSG_NO_CONTENT_METHOD);
                             ("vector_store_id", VStr vector_store_id);
                             ("file_id", VStr file_id);
                             ("attributes", VDict attrs)])
              | _ =>
                  Some (ret [("status", VStr "error");
                             ("error", VStr (str_exn e));
                             ("vector_store_id", VStr vector_store_id);
                             ("file_id", VStr file_id)])
              end).

Definition delete_memory (file_id : string) (fuel : nat) : M pydict :=
  vector_store_id <- _get_or_create_vector_store_id fuel ;;
  try_except
    (deleted <- remote (CDelete vector_store_id file_id) no_ident
                       (files_delete client vector_store_id file_id) ;;
     ret [("status", VStr "ok");
          ("vector_store_id", VStr vector_store_id);
          ("file_id", VStr file_id);
          ("deleted", VBool (getattr_bool (deleted_flag deleted) true))])
    (fun e => Some (ret [("status", VStr "error");
                         ("error", VStr (str_exn e));
                         ("vector_store_id", VStr vector_store_id);
                         ("file_id", VStr file_id)])).

(** A run of consecutive [resolve()] calls, each with its own budget. *)
Fixpoint resolve_all (fuels : list nat) (st : State W)
  : list (outcome string) * State W :=
  match fuels with
  | [] => ([], st)
  | fuel :: fuels' =>
      let (r, st1) := _get_or_create_vector_store_id fuel st in
      let (rs, st2) := resolve_all fuels' st1 in
      (r :: rs, st2)
  end.
End Server.

Arguments initial_state {W} cfg w.

(* ================================================================== *)
(** ** Test doubles

    A scripted client: the remote state counts the calls answered so
    far, and each operation answers as a function of that count. *)

Module Stub.
Definition World := nat.

Record Behaviour := {
  b_stores : nat -> reply (Page Store);
  b_create : nat -> reply Store;
  b_upload : nat -> reply string;
  b_update : nat -> reply unit;
  b_search : FilterParam -> nat -> reply SearchResults;
  b_files : nat -> reply (Page FileRef);
  b_detail : string -> nat -> reply FileDetail;
  b_content : nat -> reply pyval;
  b_delete : nat -> reply Deleted
}.

Definition client (b : Behaviour) : Client World :=
  {| vector_stores_list := fun _ _ w => (b_stores b w, S w);
     vector_stores_create := fun _ w => (b_create b w, S w);
     files_upload_and_poll := fun _ _ _ w => (b_upload b w, S w);
     files_update := fun _ _ _ w => (b_update b w, S w);
     vector_stores_search := fun kw _ _ _ _ _ w => (b_search b kw w, S w);
     files_list := fun _ _ _ w => (b_files b w, S w);
     files_retrieve := fun _ fid w => (b_detail b fid w, S w);
     files_content := fun _ _ w => (b_content b w, S w);
     files_delete := fun _ _ w => (b_delete b w, S w);
     time_time := fun w => (1700000000 + Z.of_nat w)%Z;
     utc_now_iso := fun _ => "2024-01-01T00:00:00+00:00" |}.

Definition cfg : Config :=
  {| VECTOR_STORE_NAME := "MEMORIES_STORE";
     VECTOR_STORE_ID_ENV := None;
     MAX_MEMORY_CHARS := 8000;
     REDACT_SECRETS_DEFAULT := true |}.

(** A stand-in digest; no property below depends on the hash. *)
Definition sha (s : string) : string := "sha256-of:" ++ s.

Definition empty_page {A} : Page A :=
  {| data := []; has_more := Some false; last_id := None |}.

Definition no_results : SearchResults :=
  {| sr_data := []; sr_search_query := None; sr_has_more := Some false |}.

Definition detail_of (owner : string) (fid : string) : FileDetail :=
  {| fd_id := fid; fd_created_at := Some 1700000000%Z;
     fd_status := Some "completed";
     fd_attributes := Some [("user_id", VStr owner)] |}.

(** Everything succeeds; no store exists yet, so the first resolution
    creates one; two documents, both of user [u1]. *)
Definition happy : Behaviour :=
  {| b_stores := fun _ => Ok empty_page;
     b_create := fun _ => Ok {| store_id := "vs_1"; store_name := Some "MEMORIES_STORE" |};
     b_upload := fun _ => Ok "file_1";
     b_update := fun _ => Ok tt;
     b_search := fun _ _ => Ok no_results;
     b_files := fun _ => Ok {| data := [{| file_ref_id := "file_1" |};
                                        {| file_ref_id := "file_2" |}];
                               has_more := Some true;
                               last_id := Some "file_2" |};
     b_detail := fun fid _ => Ok (detail_of "u1" fid);
     b_content := fun _ => Ok (VDict [("content", VList [])]);
     b_delete := fun _ => Ok {| deleted_flag := Some true |} |}.

(** The upload succeeds and the attribute update fails. *)
Definition update_fails : Behaviour :=
  {| b_stores := b_stores happy; b_create := b_create happy;
     b_upload := b_upload happy;
     b_update := fun _ => Err (OtherError "attributes rejected");
     b_search := b_search happy; b_files := b_files happy;
     b_detail := b_detail happy; b_content := b_content happy;
     b_delete := b_delete happy |}.


(** The SDK knows the filter only under its second name. *)
Definition old_sdk : Behaviour :=
  {| b_stores := b_stores happy; b_create := b_create happy;
     b_upload := b_upload happy; b_update := b_update happy;
     b_search := fun kw _ =>
                   match kw with
                   | filters_kw => Err (TypeError "unexpected keyword argument 'filters'")
                   | attribute_filter_kw => Ok no_results
                   end;
     b_files := b_files happy; b_detail := b_detail happy;
     b_content := b_content happy; b_delete := b_delete happy |}.

(** The first create-collection call (the second remote call) fails,
    later ones succeed. *)
Definition create_fails_once : Behaviour :=
  {| b_stores := b_stores happy;
     b_create := fun w => if w <=? 1 then Err (OtherError "503 service unavailable")
                          else b_create happy w;
     b_upload := b_upload happy; b_update := b_update happy;
     b_search := b_search happy; b_files := b_files happy;
     b_detail := b_detail happy; b_content := b_content happy;
     b_delete := b_delete happy |}.

(** The collection listing is unreachable. *)
Definition stores_down : Behaviour :=
  {| b_stores := fun _ => Err (OtherError "connection refused");
     b_create := b_create happy; b_upload := b_upload happy;
     b_update := b_update happy; b_search := b_search happy;
     b_files := b_files happy; b_detail := b_detail happy;
     b_content := b_content happy; b_delete := b_delete happy |}.

(** The two documents belong to different users: [file_1] to [u1],
    [file_2] to [u2]. *)
Definition two_users : Behaviour :=
  {| b_stores := b_stores happy; b_create := b_create happy;
     b_upload := b_upload happy; b_update := b_update happy;
     b_search := b_search happy; b_files := b_files happy;
     b_detail := fun fid _ =>
                   Ok (detail_of (if (fid =? "file_1")%string then "u1" else "u2")
                                 fid);
     b_content := b_content happy; b_delete := b_delete happy |}.


Definition start : State World := initial_state cfg 0.

Definition request (query : string) : search_request :=
  {| q_query := query; q_user_id := None; q_session_id := None;
     q_memory_type := None; q_tags := None; q_max_results := None;
     q_rewrite_query := None; q_return_full_items := None |}.
End Stub.

(* ================================================================== *)
(** ** Vocabulary of the statements *)

(** The filter builder in the words of the specification: one equality
    leaf [{type: eq, key, value}] per non-empty input, in the order
    user_id, session_id, type, tags; the tags leaf compares [tags_json]
    with the JSON text of the list.  An input is empty when it is
    absent, the empty string, or the empty list. *)
Definition spec_leaf (key : string) (input : option string) : list pyval :=
  match input with
  | None => []
  | Some EmptyString => []
  | Some value =>
      [VDict [("type", VStr "eq"); ("key", VStr key); ("value", VStr value)]]
  end.

Definition spec_tags_leaf (tags : option (list string)) : list pyval :=
  match tags with
  | None => []
  | Some [] => []
  | Some ts =>
      [VDict [("type", VStr "eq"); ("key", VStr "tags_json");
              ("value", VStr (json_dumps ts))]]
  end.

Definition spec_filter_leaves (user_id session_id memory_type : option string)
           (tags : option (list string)) : list pyval :=
  spec_leaf "user_id" user_id
  ++ spec_leaf "session_id" session_id
  ++ spec_leaf "type" memory_type
  ++ spec_tags_leaf tags.

(** The number of non-empty inputs. *)
Definition given (input : option string) : nat :=
  match input with
  | Some (String _ _) => 1
  | _ => 0
  end.

Definition given_tags (tags : option (list string)) : nat :=
  match tags with
  | Some (_ :: _) => 1
  | _ => 0
  end.

Definition nonempty_inputs (user_id session_id memory_type : option string)
           (tags : option (list string)) : nat :=
  given user_id + given session_id + given memory_type + given_tags tags.

(** A tagged result: a mapping whose [status] is one of the three tags
    the tools use. *)
Definition tagged (d : pydict) : Prop :=
  exists tag, dict_get d "status" = Some (VStr tag)
              /\ (tag = "ok" \/ tag = "saved" \/ tag = "error").

Definition is_error (d : pydict) : Prop :=
  dict_get d "status" = Some (VStr "error").

(** The [user_id] attribute of a fetched document, if it has one. *)
Definition owner_of (detail : FileDetail) : option pyval :=
  match fd_attributes detail with
  | Some attrs => dict_get attrs "user_id"
  | None => None
  end.

(** The client-side predicate in the words of the specification: when
    no [user_id] is asked for (absent or empty) every document passes;
    otherwise a document passes when its [attributes.user_id] is the
    requested string. *)
Definition passes_user_filter (user_id : option string) (detail : FileDetail)
  : bool :=
  match user_id with
  | None => true
  | Some EmptyString => true
  | Some wanted =>
      match owner_of detail with
      | Some (VStr owner) => (owner =? wanted)%string
      | _ => false
      end
  end.

(** The entry of a document in the result of a listing. *)
Definition listing_entry (detail : FileDetail) : pyval :=
  VDict [("file_id", VStr (fd_id detail));
         ("created_at", match fd_created_at detail with
                        | Some t => VInt t
                        | None => VNone
                        end);
         ("status", match fd_status detail with
                    | Some s => VStr s
                    | None => VNone
                    end);
         ("attributes", VDict (match fd_attributes detail with
                               | Some attrs => attrs
                               | None => []
                               end))].

(** The post-filter items of a page: the entries of the fetched
    documents that pass the predicate, in page order. *)
Definition kept_items (user_id : option string) (details : list FileDetail)
  : list pyval :=
  map listing_entry (filter (passes_user_filter user_id) details).

(** [save_memory]: the redaction flag in force and the text that is
    hashed and uploaded. *)
Definition redaction_flag (cfg : Config) (redact_secrets : option bool) : bool :=
  match redact_secrets with
  | None => REDACT_SECRETS_DEFAULT cfg
  | Some b => b
  end.

Definition cleaned_text (cfg : Config) (memory : string)
           (redact_secrets : option bool) : string :=
  if redaction_flag cfg redact_secrets then _redact_secrets memory else memory.

(** [retrieved client vsid files w details w']: fetching the documents
    of [files] one after the other from remote state [w] succeeds with
    [details] and ends in [w']. *)
Inductive retrieved {W} (client : Client W) (vsid : string)
  : list FileRef -> W -> list FileDetail -> W -> Prop :=
| retrieved_nil w : retrieved client vsid [] w [] w
| retrieved_cons f files w detail w1 details w2 :
    files_retrieve client vsid (file_ref_id f) w = (Ok detail, w1) ->
    retrieved client vsid files w1 details w2 ->
    retrieved client vsid (f :: files) w (detail :: details) w2.

(** The result of [list_memories] for a remote page and the details
    fetched for its documents. *)
Definition listing_of (user_id : option string) (page : Page FileRef)
           (details : list FileDetail) (d : pydict) : Prop :=
  dict_get d "status" = Some (VStr "ok")
  /\ dict_get d "items" = Some (VList (kept_items user_id details))
  /\ dict_get d "count"
     = Some (VInt (Z.of_nat (length (kept_items user_id details))))
  /\ dict_get d "has_more"
     = Some (VBool (match has_more page with Some b => b | None => false end))
  /\ dict_get d "last_id"
     = Some (match last_id page with Some s => VStr s | None => VNone end).

(** No fetched document has [attributes.user_id] equal to [wanted]. *)
Definition none_of_user (wanted : string) (details : list FileDetail) : Prop :=
  Forall (fun detail => owner_of detail <> Some (VStr wanted)) details.

(** The remote calls logged between two states. *)
Definition events_since {W} (st st' : State W) : list Event :=
  skipn (length (calls st)) (calls st').

Definition issued_since {W} (st st' : State W) : list Call :=
  map ev_call (events_since st st').

Definition is_store_call (c : Call) : bool :=
  match c with
  | CStoresList _ _ | CStoresCreate _ => true
  | _ => false
  end.

(** A create-collection call that returned a non-empty identifier. *)
Definition is_creation (ev : Event) : bool :=
  match ev_call ev, ev_answer ev with
  | CStoresCreate _, Returned (Some vsid) => truthy_str vsid
  | _, _ => false
  end.

Definition is_create_call (ev : Event) : bool :=
  match ev_call ev with
  | CStoresCreate _ => true
  | _ => false
  end.

Definition creations (log : list Event) : nat := length (filter is_creation log).

Definition create_calls (log : list Event) : nat :=
  length (filter is_create_call log).

(** What one resolution may do to the state: it logs list and create
    calls only, at most one of them a creation, and a creation or a
    returned identifier is what the cache holds afterwards. *)
Definition resolved {W} (st : State W) (r : outcome string) (st1 : State W)
  : Prop :=
  exists new,
    calls st1 = calls st ++ new
    /\ Forall (fun ev => is_store_call (ev_call ev) = true) new
    /\ creations new <= 1
    /\ (creations new = 1 -> truthy_ostr (cache st1) = true)
    /\ match r with
       | Ret vsid => cache st1 = Some vsid
       | _ => cache st1 = cache st
       end.

(** The log entries of the per-document fetches of a page. *)
Definition retrieve_events (vsid : string) (files : list FileRef) : list Event :=
  map (fun f => {| ev_call := CRetrieve vsid (file_ref_id f);
                   ev_answer := Returned None |}) files.

(* ================================================================== *)
(** ** Further vocabulary *)

(** The cache holds no usable identifier: it is unset or empty. *)
Definition cache_unset {W} (st : State W) : Prop :=
  cache st = None \/ cache st = Some EmptyString.

(** A configuration that supplies the collection identifier. *)
Definition with_store_id (cfg : Config) (vsid : string) : Config :=
  {| VECTOR_STORE_NAME := VECTOR_STORE_NAME cfg;
     VECTOR_STORE_ID_ENV := Some vsid;
     MAX_MEMORY_CHARS := MAX_MEMORY_CHARS cfg;
     REDACT_SECRETS_DEFAULT := REDACT_SECRETS_DEFAULT cfg |}.

(** A listing has come to its end: the page reports no further page, or
    carries no cursor to ask for one. *)
Definition listing_ends (page : Page Store) : Prop :=
  has_more page = None \/ has_more page = Some false
  \/ last_id page = None \/ last_id page = Some EmptyString.

(** The calls of one resolution: list calls of page size 100 whose
    cursors start at [None] and continue with non-empty identifiers, at
    most [fuel] of them, then possibly one create call for [name]. *)
Definition resolver_trace (name : string) (fuel : nat) (first : option string)
           (issued : list Call) : Prop :=
  exists cursors tail,
    issued = map (CStoresList 100) cursors ++ tail
    /\ (tail = [] \/ tail = [CStoresCreate name])
    /\ length cursors <= fuel
    /\ (cursors = [] \/ hd_error cursors = Some first)
    /\ Forall (fun c => exists s, c = Some s /\ s <> EmptyString) (tl cursors).

(** A character that may stand in a file name: [[A-Za-z0-9_-]]. *)
Definition filename_char (c : ascii) : bool :=
  let n := nat_of_ascii c in
  ((97 <=? n) && (n <=? 122)) || ((65 <=? n) && (n <=? 90))
  || ((48 <=? n) && (n <=? 57)) || (n =? 95) || (n =? 45).

(** The comparisons of an attribute filter: the filter itself when it
    is a single leaf, the members of an [and] node otherwise. *)
Definition filter_leaves (f : option pyval) : list pyval :=
  match f with
  | None => []
  | Some (VDict d) =>
      match dict_get d "type", dict_get d "filters" with
      | Some (VStr "and"), Some (VList leaves) => leaves
      | _, _ => [VDict d]
      end
  | Some v => [v]
  end.

(** The [(key, value)] pairs a caller of [save_memory] and
    [search_memory] asks for with the same arguments: one per non-empty
    argument. *)
Definition criteria (user_id : string) (session_id : option string)
           (memory_type : string) (tags : option (list string))
  : list (string * string) :=
  (match user_id with EmptyString => [] | _ => [("user_id", user_id)] end)
  ++ (match session_id with
      | Some (String c s) => [("session_id", String c s)]
      | _ => []
      end)
  ++ (match memory_type with EmptyString => [] | _ => [("type", memory_type)] end)
  ++ (match tags with
      | Some (t :: ts) => [("tags_json", json_dumps (t :: ts))]
      | _ => []
      end).

(** The length [save_memory] cuts an attribute value to: [[:512]] for
    [tags_json], [[:64]] for the other strings. *)
Definition attribute_limit (key : string) : nat :=
  if (key =? "tags_json")%string then 512 else 64.

(** The value of an attribute respects the documented limits of the
    remote service: a boolean, or a string of at most 512 characters. *)
Definition value_within_limits (v : pyval) : Prop :=
  match v with
  | VBool _ => True
  | VStr s => String.length s <= 512
  | _ => False
  end.

(** A number brought into the range [lo..hi]. *)
Definition bounded (lo hi x : Z) : Z :=
  if (x <? lo)%Z then lo else if (hi <? x)%Z then hi else x.

(** The texts of one entry of a full-mode search result. *)
Definition entry_texts (entry : pyval) : list pyval :=
  match entry with
  | VDict d =>
      match dict_get d "content_texts" with
      | Some (VList texts) => texts
      | _ => []
      end
  | _ => []
  end.

(** A chunk of parsed content is typed [text]. *)
Definition is_text_chunk (chunk : pydict) : bool :=
  match dict_get chunk "type" with
  | Some (VStr "text") => true
  | _ => false
  end.

(** [chunk.get("text")] *)
Definition text_of_chunk (chunk : pydict) : pyval :=
  match dict_get chunk "text" with
  | Some v => v
  | None => VNone
  end.

(** A search that finds one document with two parsed chunks, the
    second of which is not text. *)
Definition one_hit : SearchResults :=
  {| sr_data := [{| si_file_id := "file_1"; si_filename := "memory_u1_1.txt";
                    si_score := VInt 1; si_attributes := None;
                    si_content := [{| chunk_type := Some "text";
                                      chunk_text := "likes dark mode" |};
                                   {| chunk_type := Some "image";
                                      chunk_text := "n/a" |}] |}];
     sr_search_query := Some "dark mode preference";
     sr_has_more := None |}.

Definition search_hits : Stub.Behaviour :=
  {| Stub.b_stores := Stub.b_stores Stub.happy;
     Stub.b_create := Stub.b_create Stub.happy;
     Stub.b_upload := Stub.b_upload Stub.happy;
     Stub.b_update := Stub.b_update Stub.happy;
     Stub.b_search := fun _ _ => Ok one_hit;
     Stub.b_files := Stub.b_files Stub.happy;
     Stub.b_detail := Stub.b_detail Stub.happy;
     Stub.b_content := Stub.b_content Stub.happy;
     Stub.b_delete := Stub.b_delete Stub.happy |}.

(** The second document of the page cannot be fetched. *)
Definition second_fetch_fails : Stub.Behaviour :=
  {| Stub.b_stores := Stub.b_stores Stub.happy;
     Stub.b_create := Stub.b_create Stub.happy;
     Stub.b_upload := Stub.b_upload Stub.happy;
     Stub.b_update := Stub.b_update Stub.happy;
     Stub.b_search := Stub.b_search Stub.happy;
     Stub.b_files := Stub.b_files Stub.happy;
     Stub.b_detail := fun fid _ =>
                        if (fid =? "file_1")%string
                        then Ok (Stub.detail_of "u1" fid)
                        else Err (OtherError "404 file not found");
     Stub.b_content := Stub.b_content Stub.happy;
     Stub.b_delete := Stub.b_delete Stub.happy |}.

(** The content endpoint answers with a list instead of a mapping. *)
Definition content_is_list : Stub.Behaviour :=
  {| Stub.b_stores := Stub.b_stores Stub.happy;
     Stub.b_create := Stub.b_create Stub.happy;
     Stub.b_upload := Stub.b_upload Stub.happy;
     Stub.b_update := Stub.b_update Stub.happy;
     Stub.b_search := Stub.b_search Stub.happy;
     Stub.b_files := Stub.b_files Stub.happy;
     Stub.b_detail := Stub.b_detail Stub.happy;
     Stub.b_content := fun _ => Ok (VList [VStr "likes dark mode"]);
     Stub.b_delete := Stub.b_delete Stub.happy |}.

(** The content endpoint answers with three chunks: a text, an image,
    and an empty text. *)
Definition content_chunks : Stub.Behaviour :=
  {| Stub.b_stores := Stub.b_stores Stub.happy;
     Stub.b_create := Stub.b_create Stub.happy;
     Stub.b_upload := Stub.b_upload Stub.happy;
     Stub.b_update := Stub.b_update Stub.happy;
     Stub.b_search := Stub.b_search Stub.happy;
     Stub.b_files := Stub.b_files Stub.happy;
     Stub.b_detail := Stub.b_detail Stub.happy;
     Stub.b_content := fun _ =>
       Ok (VDict [("content",
                   VList [VDict [("type", VStr "text");
                                 ("text", VStr "likes dark mode")];
                          VDict [("type", VStr "image"); ("text", VStr "n/a")];
                          VDict [("type", VStr "text");
                                 ("text", VStr EmptyString)]])]);
     Stub.b_delete := Stub.b_delete Stub.happy |}.

(** An ASCII letter or digit. *)
Definition alnum (c : ascii) : bool :=
  let n := nat_of_ascii c in
  ((48 <=? n) && (n <=? 57)) || ((65 <=? n) && (n <=? 90))
  || ((97 <=? n) && (n <=? 122)).

(** An ASCII capital letter or digit. *)
Definition capital_or_digit (c : ascii) : bool :=
  let n := nat_of_ascii c in
  ((48 <=? n) && (n <=? 57)) || ((65 <=? n) && (n <=? 90)).

(** A static analysis of a pattern: every match of [r] takes at least
    one character of the class [p]. *)
Fixpoint needs (r : regex) (p : charset) : bool :=
  match r with
  | Eps => false
  | Chr cs => all_ascii (fun c => implb (cs c) (p c))
  | WordB => false
  | Rep cs lo _ => (1 <=? lo) && all_ascii (fun c => implb (cs c) (p c))
  | Alt r1 r2 => needs r1 p && needs r2 p
  | Seq r1 r2 => needs r1 p || needs r2 p
  end.

(* ================================================================== *)
(** ** Local notes server (Lab 05): a shallow embedding of [local.py]

    The three tools work on one file, [NOTES_FILE], next to the module.
    The file system is a record of the five operations the module
    performs on that path, over an abstract state of the disk.  What the
    module prints to stderr is not part of the model. *)

Module Notes.
(** The exceptions the module tells apart: [FileNotFoundError], and
    any other [Exception]; [str(e)] is the message. *)
Inductive io_exn : Type :=
| FileNotFoundError (msg : string)
| OtherException (msg : string).

Definition str_io (e : io_exn) : string :=
  match e with
  | FileNotFoundError m => m
  | OtherException m => m
  end.

Inductive io (A : Type) : Type :=
| Done (a : A)
| Failed (e : io_exn).
Arguments Done {A} a.
Arguments Failed {A} e.

Record FileSystem (D : Type) := {
  (** [NOTES_FILE.parent.mkdir(parents=True, exist_ok=True)] *)
  parent_mkdir : D -> io unit * D;
  (** [NOTES_FILE.touch(exist_ok=True)] *)
  touch : D -> io unit * D;
  (** [str(NOTES_FILE.resolve())] *)
  resolve : D -> io string * D;
  (** [with NOTES_FILE.open("a", encoding="utf-8") as f: f.write(s)] *)
  append_text : string -> D -> io unit * D;
  (** [NOTES_FILE.read_text(encoding="utf-8")] *)
  read_text : D -> io string * D
}.

(** [NOTES_FILE.name] *)
Definition NOTES_NAME : string := "notes.txt".

Definition newline : string := String "010"%char EmptyString.

Section Tools.
Context {D : Type}.
Variable fs : FileSystem D.

Definition get_notes_file_path (create_if_missing : bool) (d : D)
  : string * D :=
  let attempt : io string * D :=
    if create_if_missing then
      match parent_mkdir fs d with
      | (Failed e, d1) => (Failed e, d1)
      | (Done _, d1) =>
          match touch fs d1 with
          | (Failed e, d2) => (Failed e, d2)
          | (Done _, d2) => resolve fs d2
          end
      end
    else resolve fs d in
  match attempt with
  | (Done path, d') => (path, d')
  | (Failed e, d') =>
      (("Error getting notes file path: " ++ str_io e)%string, d')
  end.

Definition add_note_to_file (content : string) (d : D) : string * D :=
  let attempt : io unit * D :=
    match parent_mkdir fs d with
    | (Failed e, d1) => (Failed e, d1)
    | (Done _, d1) => append_text fs (content ++ newline)%string d1
    end in
  match attempt with
  | (Done _, d') => (("Content appended to " ++ NOTES_NAME ++ ".")%string, d')
  | (Failed e, d') =>
      (("Error appending to file " ++ NOTES_NAME ++ ": " ++ str_io e)%string,
       d')
  end.

Definition read_notes (d : D) : string * D :=
  match read_text fs d with
  | (Done notes, d') =>
      (if truthy_str (strip notes) then notes else "No notes found.", d')
  | (Failed (FileNotFoundError _), d') => ("No notes file found.", d')
  | (Failed e, d') =>
      (("Error reading file " ++ NOTES_NAME ++ ": " ++ str_io e)%string, d')
  end.
End Tools.

(** A disk that behaves like one text file.  [contents] observes the
    text stored in the notes file ([None] when the file does not
    exist) and [decode] is what reading in text mode makes of the
    stored text. *)
Record text_file {D : Type} (fs : FileSystem D)
       (contents : D -> option string) (decode : string -> string) : Prop := {
  mkdir_keeps : forall d r d',
      parent_mkdir fs d = (r, d') -> contents d' = contents d;
  append_adds : forall s d d',
      append_text fs s d = (Done tt, d') ->
      contents d'
      = Some (match contents d with
              | Some old => (old ++ s)%string
              | None => s
              end);
  read_existing : forall d s,
      contents d = Some s -> read_text fs d = (Done (decode s), d)
}.

(** A text of white space only, or empty. *)
Definition blank (s : string) : bool := forallb is_space (chars s).

(** An in-memory disk: the text of the notes file, if the file
    exists. *)
Definition memory_disk : FileSystem (option string) :=
  {| parent_mkdir := fun d => (Done tt, d);
     touch := fun d => (Done tt,
                        Some (match d with Some s => s | None => EmptyString end));
     resolve := fun d => (Done "/srv/lab05/notes.txt", d);
     append_text := fun s d =>
                      (Done tt,
                       Some (match d with
                             | Some old => (old ++ s)%string
                             | None => s
                             end));
     read_text := fun d =>
                    match d with
                    | Some s => (Done s, d)
                    | None =>
                        (Failed (FileNotFoundError
                                   "[Errno 2] No such file or directory"), d)
                    end |}.
End Notes.

(* ================================================================== *)
(** * Properties *)

Unset Implicit Arguments.

(* ------------------------------------------------------------------ *)
(** ** The matcher *)

(** *** Lists *)

Lemma firstn_eq_nth (A : Type) (n i : nat) (s s' : list A) :
  firstn n s = firstn n s' -> i < n -> nth_error s i = nth_error s' i.
Proof.
  revert i s s'. induction n as [| n IH]; intros i s s' H Hi; [lia |].
  destruct s as [| a s], s' as [| a' s']; simpl in H; try discriminate.
  - reflexivity.
  - inversion H; subst. destruct i as [| i]; simpl; [reflexivity |].
    apply IH; [assumption | lia].
Qed.

Lemma firstn_eq_le (A : Type) (n m : nat) (s s' : list A) :
  firstn n s = firstn n s' -> m <= n -> firstn m s = firstn m s'.
Proof.
  intros H Hm. replace m with (Nat.min m n) by lia.
  rewrite <- !firstn_firstn. rewrite H. reflexivity.
Qed.

Lemma firstn_eq_skipn (A : Type) (n1 n2 : nat) (s s' : list A) :
  firstn (n1 + n2) s = firstn (n1 + n2) s' ->
  firstn n2 (skipn n1 s) = firstn n2 (skipn n1 s').
Proof.
  revert s s'. induction n1 as [| n1 IH]; intros s s' H; simpl in *.
  - exact H.
  - destruct s as [| a s], s' as [| a' s']; simpl in H.
    + reflexivity.
    + destruct n2; [| discriminate]. destruct (n1 + 0); discriminate.
    + destruct n2; [| discriminate]. destruct (n1 + 0); discriminate.
    + inversion H. apply IH. assumption.
Qed.

Lemma firstn_eq_length (A : Type) (n : nat) (s s' : list A) :
  firstn n s = firstn n s' -> n <= length s -> n <= length s'.
Proof.
  intros H Hn. apply (f_equal (@length A)) in H.
  rewrite !length_firstn in H. lia.
Qed.

Lemma firstn_app_same (A : Type) (n : nat) (v z z' : list A) :
  n <= length v -> firstn n (v ++ z) = firstn n (v ++ z').
Proof.
  intros Hn. rewrite !firstn_app.
  replace (n - length v) with 0 by lia. reflexivity.
Qed.

Lemma hd_error_nth (A : Type) (s : list A) : hd_error s = nth_error s 0.
Proof. destruct s; reflexivity. Qed.

Lemma hd_error_app_some (A : Type) (l1 l2 : list A) (a : A) :
  hd_error (l1 ++ l2) = Some a ->
  hd_error l1 = Some a \/ (l1 = [] /\ hd_error l2 = Some a).
Proof. destruct l1; simpl; auto. Qed.

(** *** [prev_after], [run] and [countdown] *)

Lemma prev_after_eq prev n (s s' : list ascii) :
  firstn n s = firstn n s' -> prev_after prev s n = prev_after prev s' n.
Proof.
  intros H. destruct n as [| n]; simpl; [reflexivity |].
  apply firstn_eq_nth with (n := S n); [assumption | lia].
Qed.

Lemma prev_after_add prev (s : list ascii) n1 n2 :
  prev_after (prev_after prev s n1) (skipn n1 s) n2 = prev_after prev s (n1 + n2).
Proof.
  destruct n2 as [| n2]; simpl.
  - rewrite Nat.add_0_r. reflexivity.
  - rewrite nth_error_skipn. rewrite Nat.add_succ_r. reflexivity.
Qed.

Lemma prev_after_word prev prev' (s : list ascii) n :
  is_wordo prev = is_wordo prev' ->
  is_wordo (prev_after prev s n) = is_wordo (prev_after prev' s n).
Proof. intros H. destruct n; simpl; [exact H | reflexivity]. Qed.

Lemma in_countdown lo m n : In n (countdown lo m) <-> lo <= n <= m.
Proof.
  unfold countdown. rewrite <- in_rev, in_seq. lia.
Qed.

Lemma hd_countdown lo m n : hd_error (countdown lo m) = Some n -> n = m /\ lo <= m.
Proof.
  unfold countdown. destruct (le_lt_dec lo m) as [Hle | Hlt].
  - replace (S m - lo) with (S (m - lo)) by lia.
    rewrite seq_S, rev_app_distr. simpl. intros H; inversion H. lia.
  - replace (S m - lo) with 0 by lia. simpl. discriminate.
Qed.

Lemma run_le cs (s : list ascii) : run cs s <= length s.
Proof. induction s as [| c s IH]; simpl; [lia | destruct (cs c); simpl; lia]. Qed.

Lemma run_spec cs n (s : list ascii) :
  n <= run cs s <-> (n <= length s /\ forallb cs (firstn n s) = true).
Proof.
  revert n. induction s as [| c s IH]; intros n; simpl.
  - split.
    + intros H. assert (n = 0) by lia. subst. auto.
    + intros [H _]. lia.
  - destruct n as [| n]; simpl.
    + split; [intros _; split; [lia | reflexivity] | lia].
    + destruct (cs c); simpl.
      * rewrite <- Nat.succ_le_mono, IH. rewrite <- Nat.succ_le_mono. reflexivity.
      * split; [lia | intros [_ H]; discriminate].
Qed.

Lemma run_stop cs (s : list ascii) c :
  nth_error s (run cs s) = Some c -> cs c = false.
Proof.
  induction s as [| a s IH]; simpl; [discriminate |].
  destruct (cs a) eqn:E; simpl.
  - exact IH.
  - intros H; inversion H; subst. exact E.
Qed.

Lemma run_consumes cs (s : list ascii) i :
  i < run cs s -> exists c, nth_error s i = Some c /\ cs c = true.
Proof.
  revert i. induction s as [| a s IH]; intros i; simpl; [lia |].
  destruct (cs a) eqn:E; [| lia].
  destruct i as [| i]; simpl.
  - intros _. exists a. auto.
  - intros H. apply IH. lia.
Qed.

Lemma cap_le hi n : cap hi n <= n.
Proof. destruct hi; simpl; lia. Qed.

(** *** Membership in [ends] *)

Lemma in_ends_seq r1 r2 prev (s : list ascii) n :
  In n (ends (Seq r1 r2) prev s) <->
  exists n1 n2, n = n1 + n2 /\ In n1 (ends r1 prev s)
                /\ In n2 (ends r2 (prev_after prev s n1) (skipn n1 s)).
Proof.
  simpl. rewrite in_flat_map. split.
  - intros (n1 & H1 & H2). apply in_map_iff in H2.
    destruct H2 as (n2 & <- & H2). exists n1, n2. auto.
  - intros (n1 & n2 & -> & H1 & H2). exists n1. split; [assumption |].
    apply in_map. assumption.
Qed.

Lemma in_ends_rep cs lo hi prev (s : list ascii) n :
  In n (ends (Rep cs lo hi) prev s) <-> lo <= n <= cap hi (run cs s).
Proof. simpl. apply in_countdown. Qed.

Lemma hd_ends_seq r1 r2 prev (s : list ascii) n :
  hd_error (ends (Seq r1 r2) prev s) = Some n ->
  exists n1 n2, n = n1 + n2 /\ In n1 (ends r1 prev s)
                /\ hd_error (ends r2 (prev_after prev s n1) (skipn n1 s)) = Some n2.
Proof.
  simpl. induction (ends r1 prev s) as [| a l IH]; simpl; [discriminate |].
  intros H. apply hd_error_app_some in H. destruct H as [H | [_ H]].
  - destruct (ends r2 (prev_after prev s a) (skipn a s)) as [| n2 l2] eqn:E;
      simpl in H; [discriminate |].
    inversion H; subst. exists a, n2.
    split; [reflexivity |]. split; [left; reflexivity | rewrite E; reflexivity].
  - destruct (IH H) as (n1 & n2 & Hn & H1 & H2). exists n1, n2.
    split; [assumption |]. split; [right; assumption | assumption].
Qed.

Lemma ends_le r : forall prev (s : list ascii) n,
    In n (ends r prev s) -> n <= length s.
Proof.
  induction r as [| cs | | cs lo hi | r1 IH1 r2 IH2 | r1 IH1 r2 IH2];
    intros prev s n H.
  - simpl in H. destruct H as [<- | []]. lia.
  - simpl in H. destruct s as [| c s]; [contradiction |].
    destruct (cs c); [| contradiction]. destruct H as [<- | []]. simpl. lia.
  - simpl in H. destruct (xorb _ _); [| contradiction].
    destruct H as [<- | []]. lia.
  - apply in_ends_rep in H. pose proof (cap_le hi (run cs s)).
    pose proof (run_le cs s). lia.
  - simpl in H. apply in_app_or in H. destruct H; eauto.
  - apply in_ends_seq in H. destruct H as (n1 & n2 & -> & H1 & H2).
    apply IH1 in H1. apply IH2 in H2. rewrite length_skipn in H2. lia.
Qed.

(** The context before the match only matters through its word class. *)
Lemma ends_prev r : forall prev prev' (s : list ascii),
    is_wordo prev = is_wordo prev' -> ends r prev s = ends r prev' s.
Proof.
  induction r as [| cs | | cs lo hi | r1 IH1 r2 IH2 | r1 IH1 r2 IH2];
    intros prev prev' s H; simpl; try reflexivity.
  - rewrite H. reflexivity.
  - rewrite (IH1 _ _ s H), (IH2 _ _ s H). reflexivity.
  - rewrite (IH1 _ _ s H). apply flat_map_ext. intros n1.
    rewrite (IH2 (prev_after prev s n1) (prev_after prev' s n1));
      [reflexivity | apply prev_after_word; exact H].
Qed.

(** Locality: a match of length [n] depends on the first [n] characters
    and on the word class of the next one. *)
Lemma ends_local r : forall prev n (s s' : list ascii),
    firstn n s = firstn n s' ->
    is_wordo (nth_error s n) = is_wordo (nth_error s' n) ->
    In n (ends r prev s) -> In n (ends r prev s').
Proof.
  induction r as [| cs | | cs lo hi | r1 IH1 r2 IH2 | r1 IH1 r2 IH2];
    intros prev n s s' Hf Hw H.
  - exact H.
  - simpl in H. destruct s as [| c s]; [contradiction |].
    destruct (cs c) eqn:E; [| contradiction]. destruct H as [<- | []].
    destruct s' as [| c' s']; simpl in Hf; [discriminate |].
    inversion Hf; subst. simpl. rewrite E. left. reflexivity.
  - simpl in *. destruct (xorb (is_wordo prev) (is_wordo (hd_error s))) eqn:E;
      [| contradiction].
    destruct H as [<- | []].
    rewrite !hd_error_nth in *. rewrite <- Hw, E. left. reflexivity.
  - apply in_ends_rep in H. apply in_ends_rep.
    destruct H as [Hlo Hhi]. split; [assumption |].
    assert (Hr : n <= run cs s) by (pose proof (cap_le hi (run cs s)); lia).
    apply run_spec in Hr. destruct Hr as [Hlen Hall].
    assert (Hr' : n <= run cs s').
    { apply run_spec. split.
      - eapply firstn_eq_length; eassumption.
      - rewrite <- Hf. exact Hall. }
    destruct hi as [h |]; simpl in *; lia.
  - simpl in *. apply in_app_or in H. apply in_or_app.
    destruct H; [left | right]; eauto.
  - apply in_ends_seq in H. destruct H as (n1 & n2 & -> & H1 & H2).
    apply in_ends_seq. exists n1, n2. split; [reflexivity |].
    assert (Hf1 : firstn n1 s = firstn n1 s')
      by (apply firstn_eq_le with (n := n1 + n2); [assumption | lia]).
    split.
    + apply IH1 with (s := s); try assumption.
      destruct n2 as [| n2].
      * rewrite Nat.add_0_r in Hw. exact Hw.
      * rewrite (firstn_eq_nth _ _ n1 _ _ Hf); [reflexivity | lia].
    + rewrite <- (prev_after_eq prev _ _ _ Hf1).
      apply IH2 with (s := skipn n1 s); try assumption.
      * apply firstn_eq_skipn. exact Hf.
      * rewrite !nth_error_skipn. exact Hw.
Qed.

(** Without [\b] a match depends on the matched characters alone. *)
Lemma ends_free r : forall prev prev' n (s s' : list ascii),
    wordb_free r = true ->
    firstn n s = firstn n s' ->
    In n (ends r prev s) -> In n (ends r prev' s').
Proof.
  induction r as [| cs | | cs lo hi | r1 IH1 r2 IH2 | r1 IH1 r2 IH2];
    intros prev prev' n s s' Hfree Hf H; simpl in Hfree.
  - exact H.
  - simpl in H. destruct s as [| c s]; [contradiction |].
    destruct (cs c) eqn:E; [| contradiction]. destruct H as [<- | []].
    destruct s' as [| c' s']; simpl in Hf; [discriminate |].
    inversion Hf; subst. simpl. rewrite E. left. reflexivity.
  - discriminate.
  - apply in_ends_rep in H. apply in_ends_rep.
    destruct H as [Hlo Hhi]. split; [assumption |].
    assert (Hr : n <= run cs s) by (pose proof (cap_le hi (run cs s)); lia).
    apply run_spec in Hr. destruct Hr as [Hlen Hall].
    assert (Hr' : n <= run cs s').
    { apply run_spec. split.
      - eapply firstn_eq_length; eassumption.
      - rewrite <- Hf. exact Hall. }
    destruct hi as [h |]; simpl in *; lia.
  - apply andb_prop in Hfree. destruct Hfree as [F1 F2].
    simpl in *. apply in_app_or in H. apply in_or_app.
    destruct H; [left | right]; eauto.
  - apply andb_prop in Hfree. destruct Hfree as [F1 F2].
    apply in_ends_seq in H. destruct H as (n1 & n2 & -> & H1 & H2).
    apply in_ends_seq. exists n1, n2. split; [reflexivity |].
    assert (Hf1 : firstn n1 s = firstn n1 s')
      by (apply firstn_eq_le with (n := n1 + n2); [assumption | lia]).
    split.
    + eapply IH1; eassumption.
    + eapply IH2; [assumption | apply firstn_eq_skipn; exact Hf | exact H2].
Qed.

(** *** Soundness of the static analyses *)

Lemma nullable_sound r : forall prev (s : list ascii) n,
    nullable r = false -> In n (ends r prev s) -> 1 <= n.
Proof.
  induction r as [| cs | | cs lo hi | r1 IH1 r2 IH2 | r1 IH1 r2 IH2];
    intros prev s n Hn H; simpl in Hn; try discriminate.
  - simpl in H. destruct s as [| c s]; [contradiction |].
    destruct (cs c); [| contradiction]. destruct H as [<- | []]. lia.
  - apply in_ends_rep in H. apply Nat.eqb_neq in Hn. lia.
  - apply orb_false_elim in Hn. destruct Hn as [N1 N2].
    simpl in H. apply in_app_or in H. destruct H; eauto.
  - apply in_ends_seq in H. destruct H as (n1 & n2 & -> & H1 & H2).
    apply andb_false_elim in Hn. destruct Hn as [N | N].
    + apply (IH1 _ _ _ N) in H1. lia.
    + apply (IH2 _ _ _ N) in H2. lia.
Qed.

Lemma first_set_sound r : forall prev (s : list ascii) n,
    In n (ends r prev s) -> 1 <= n ->
    exists c s', s = c :: s' /\ first_set r c = true.
Proof.
  induction r as [| cs | | cs lo hi | r1 IH1 r2 IH2 | r1 IH1 r2 IH2];
    intros prev s n H Hn.
  - simpl in H. destruct H as [<- | []]. lia.
  - simpl in H. destruct s as [| c s]; [contradiction |].
    destruct (cs c) eqn:E; [| contradiction]. exists c, s. auto.
  - simpl in H. destruct (xorb _ _); [| contradiction].
    destruct H as [<- | []]. lia.
  - apply in_ends_rep in H.
    assert (Hr : 1 <= run cs s) by (pose proof (cap_le hi (run cs s)); lia).
    destruct s as [| c s]; simpl in Hr; [lia |].
    destruct (cs c) eqn:E; [| lia]. exists c, s. auto.
  - simpl in H. apply in_app_or in H. destruct H as [H | H].
    + destruct (IH1 _ _ _ H Hn) as (c & s' & -> & F). exists c, s'.
      simpl. rewrite F. auto.
    + destruct (IH2 _ _ _ H Hn) as (c & s' & -> & F). exists c, s'.
      simpl. rewrite F, orb_true_r. auto.
  - apply in_ends_seq in H. destruct H as (n1 & n2 & -> & H1 & H2).
    destruct n1 as [| n1].
    + simpl in H2. destruct (IH2 _ _ _ H2 ltac:(lia)) as (c & s' & -> & F).
      exists c, s'. split; [reflexivity |]. simpl.
      destruct (nullable r1) eqn:N.
      * rewrite F. simpl. apply orb_true_r.
      * apply (nullable_sound _ _ _ _ N) in H1. lia.
    + destruct (IH1 _ _ _ H1 ltac:(lia)) as (c & s' & -> & F).
      exists c, s'. simpl. rewrite F. auto.
Qed.

Lemma may_consume_sound r : forall prev (s : list ascii) n i,
    In n (ends r prev s) -> i < n ->
    exists c, nth_error s i = Some c /\ may_consume r c = true.
Proof.
  induction r as [| cs | | cs lo hi | r1 IH1 r2 IH2 | r1 IH1 r2 IH2];
    intros prev s n i H Hi.
  - simpl in H. destruct H as [<- | []]. lia.
  - simpl in H. destruct s as [| c s]; [contradiction |].
    destruct (cs c) eqn:E; [| contradiction]. destruct H as [<- | []].
    assert (i = 0) by lia. subst. exists c. auto.
  - simpl in H. destruct (xorb _ _); [| contradiction].
    destruct H as [<- | []]. lia.
  - apply in_ends_rep in H. apply (run_consumes cs).
    pose proof (cap_le hi (run cs s)). lia.
  - simpl in H. apply in_app_or in H. destruct H as [H | H].
    + destruct (IH1 _ _ _ _ H Hi) as (c & Hc & F). exists c.
      simpl. rewrite F. auto.
    + destruct (IH2 _ _ _ _ H Hi) as (c & Hc & F). exists c.
      simpl. rewrite F, orb_true_r. auto.
  - apply in_ends_seq in H. destruct H as (n1 & n2 & -> & H1 & H2).
    destruct (lt_dec i n1) as [Hlt | Hge].
    + destruct (IH1 _ _ _ _ H1 Hlt) as (c & Hc & F). exists c.
      simpl. rewrite F. auto.
    + destruct (IH2 _ _ _ (i - n1) H2 ltac:(lia)) as (c & Hc & F).
      rewrite nth_error_skipn in Hc. replace (n1 + (i - n1)) with i in Hc by lia.
      exists c. simpl. rewrite F, orb_true_r. auto.
Qed.

Lemma starts_wordb_sound r : forall prev (s : list ascii) n,
    starts_wordb r = true -> In n (ends r prev s) ->
    xorb (is_wordo prev) (is_wordo (hd_error s)) = true.
Proof.
  induction r as [| cs | | cs lo hi | r1 IH1 r2 IH2 | r1 IH1 r2 IH2];
    intros prev s n Hs H; simpl in Hs; try discriminate.
  - simpl in H. destruct (xorb _ _); [reflexivity | contradiction].
  - apply in_ends_seq in H. destruct H as (n1 & n2 & -> & H1 & H2). eauto.
Qed.

Lemma ends_wordb_sound r : forall prev (s : list ascii) n,
    ends_wordb r = true -> In n (ends r prev s) ->
    xorb (is_wordo (prev_after prev s n)) (is_wordo (nth_error s n)) = true.
Proof.
  induction r as [| cs | | cs lo hi | r1 IH1 r2 IH2 | r1 IH1 r2 IH2];
    intros prev s n Hs H; simpl in Hs; try discriminate.
  - simpl in H. destruct (xorb _ _) eqn:E; [| contradiction].
    destruct H as [<- | []]. unfold prev_after. rewrite <- hd_error_nth. exact E.
  - apply in_ends_seq in H. destruct H as (n1 & n2 & -> & H1 & H2).
    specialize (IH2 _ _ _ Hs H2).
    rewrite prev_after_add, nth_error_skipn in IH2. exact IH2.
Qed.

Lemma last_rep_sound r : forall cs prev (s : list ascii) n c,
    last_rep r = Some cs -> hd_error (ends r prev s) = Some n ->
    nth_error s n = Some c -> cs c = false.
Proof.
  induction r as [| cs0 | | cs0 lo hi | r1 IH1 r2 IH2 | r1 IH1 r2 IH2];
    intros cs prev s n c Hl H Hc; simpl in Hl; try discriminate.
  - destruct hi; [discriminate |]. inversion Hl; subst.
    simpl in H. apply hd_countdown in H. destruct H as [-> _].
    eapply run_stop. exact Hc.
  - apply hd_ends_seq in H. destruct H as (n1 & n2 & -> & H1 & H2).
    eapply IH2; [exact Hl | exact H2 |].
    rewrite nth_error_skipn. exact Hc.
Qed.

Lemma no_lookahead_sound r : forall prev n (s s' : list ascii),
    no_lookahead r = true ->
    firstn n s = firstn n s' ->
    In n (ends r prev s) -> In n (ends r prev s').
Proof.
  induction r as [| cs | | cs lo hi | r1 IH1 r2 IH2 | r1 IH1 r2 IH2];
    intros prev n s s' Hn Hf H;
    try (eapply ends_free; [| exact Hf | exact H]; simpl in Hn;
         rewrite ?orb_false_r in Hn; exact Hn).
  simpl in Hn. apply orb_prop in Hn. destruct Hn as [Hn | Hn].
  - eapply ends_free; [exact Hn | exact Hf | exact H].
  - apply andb_prop in Hn. destruct Hn as [Hnull Hno].
    apply negb_true_iff in Hnull.
    apply in_ends_seq in H. destruct H as (n1 & n2 & -> & H1 & H2).
    pose proof (nullable_sound _ _ _ _ Hnull H2) as Hpos.
    apply in_ends_seq. exists n1, n2. split; [reflexivity |].
    assert (Hf1 : firstn n1 s = firstn n1 s')
      by (apply firstn_eq_le with (n := n1 + n2); [assumption | lia]).
    split.
    + apply ends_local with (s := s); try assumption.
      rewrite (firstn_eq_nth _ _ n1 _ _ Hf); [reflexivity | lia].
    + rewrite <- (prev_after_eq prev _ _ _ Hf1).
      apply IH2 with (s := skipn n1 s); try assumption.
      apply firstn_eq_skipn. exact Hf.
Qed.

(** A match that runs over a [[] survives when the [[] is replaced by a
    character the final repetition takes. *)
Lemma crossing r : forall cs t prev (u z z' : list ascii) n,
    crossable r = true -> last_rep r = Some cs -> cs t = true ->
    In n (ends r prev (u ++ lbracket :: z)) -> length u < n ->
    exists n', In n' (ends r prev (u ++ t :: z')).
Proof.
  induction r as [| cs0 | | cs0 lo hi | r1 IH1 r2 IH2 | r1 IH1 r2 IH2];
    intros cs t prev u z z' n Hc Hl Ht H Hn; simpl in Hc; try discriminate.
  - destruct hi as [h |]; [discriminate |].
    simpl in Hl. inversion Hl; subst cs0.
    apply Nat.leb_le in Hc. apply in_ends_rep in H. simpl in H.
    assert (Hr : length u + 1 <= run cs (u ++ lbracket :: z)) by lia.
    apply run_spec in Hr. destruct Hr as [_ Hall].
    rewrite firstn_app_2 in Hall. rewrite forallb_app in Hall.
    apply andb_prop in Hall. destruct Hall as [Hu _].
    exists (length u + 1). apply in_ends_rep. simpl. split; [lia |].
    apply run_spec. split.
    + rewrite length_app. simpl. lia.
    + rewrite firstn_app_2. rewrite forallb_app, Hu. simpl. rewrite Ht. reflexivity.
  - apply andb_prop in Hc. destruct Hc as [Hc Hguard].
    apply andb_prop in Hc. destruct Hc as [Hcons Hc2].
    apply negb_true_iff in Hcons. simpl in Hl.
    apply in_ends_seq in H. destruct H as (n1 & n2 & -> & H1 & H2).
    assert (Hn1 : n1 <= length u).
    { destruct (le_lt_dec n1 (length u)) as [Hle | Hgt]; [assumption |].
      destruct (may_consume_sound _ _ _ _ (length u) H1 Hgt) as (c & Hc & F).
      rewrite nth_error_app2 in Hc by lia. rewrite Nat.sub_diag in Hc.
      simpl in Hc. inversion Hc; subst c. congruence. }
    rewrite skipn_app in H2.
    replace (n1 - length u) with 0 in H2 by lia. simpl in H2.
    assert (Hp : prev_after prev (u ++ lbracket :: z) n1
                 = prev_after prev (u ++ t :: z') n1).
    { apply prev_after_eq. apply firstn_app_same. exact Hn1. }
    destruct (IH2 cs t _ (skipn n1 u) z z' n2 Hc2 Hl Ht H2) as (n2' & H2').
    { rewrite length_skipn. lia. }
    rewrite Hp in H2'.
    exists (n1 + n2'). apply in_ends_seq. exists n1, n2'.
    split; [reflexivity |]. split.
    + apply orb_prop in Hguard. destruct Hguard as [Hfree | Hg].
      * eapply ends_free; [exact Hfree | | exact H1].
        apply firstn_app_same. exact Hn1.
      * apply andb_prop in Hg. destruct Hg as [Hnull Hfirst].
        apply negb_true_iff in Hfirst.
        assert (Hlt : n1 < length u).
        { destruct (Nat.eq_dec n1 (length u)) as [He | Hne]; [| lia].
          exfalso. subst n1. rewrite skipn_all in H2. simpl in H2.
          destruct (first_set_sound _ _ _ _ H2 ltac:(lia)) as (c & s' & Hs & F).
          inversion Hs; subst c. congruence. }
        apply ends_local with (s := u ++ lbracket :: z); [| | exact H1].
        -- apply firstn_app_same. lia.
        -- rewrite !nth_error_app1 by lia. reflexivity.
    + rewrite skipn_app. replace (n1 - length u) with 0 by lia. exact H2'.
Qed.

(** *** What the shape of the patterns gives *)

Lemma match_at_in r prev (s : list ascii) n :
  match_at r prev s = Some n -> In n (ends r prev s).
Proof.
  unfold match_at. destruct (ends r prev s); simpl; [discriminate |].
  intros H; inversion H. left. reflexivity.
Qed.

Lemma match_at_none r prev (s : list ascii) :
  match_at r prev s = None <-> ends r prev s = [].
Proof.
  unfold match_at. destruct (ends r prev s); simpl; split; congruence.
Qed.

Lemma not_word_lbracket : is_word lbracket = false.
Proof. reflexivity. Qed.

Section Shape.
Variable p : regex.
Hypothesis Hp : secret_like p.

Lemma secret_start prev (s : list ascii) n :
  In n (ends p prev s) ->
  1 <= n /\ is_wordo prev = false
  /\ exists c s', s = c :: s' /\ is_word c = true /\ c <> "R"%char.
Proof.
  intros H.
  pose proof (nullable_sound _ _ _ _ (sl_nullable Hp) H) as Hn.
  destruct (first_set_sound _ _ _ _ H Hn) as (c & s' & -> & F).
  destruct (sl_first Hp c F) as [Hw HR].
  pose proof (starts_wordb_sound _ _ _ _ (sl_starts Hp) H) as Hx.
  simpl in Hx. rewrite Hw in Hx.
  split; [assumption |]. split.
  - destruct (is_wordo prev); [discriminate | reflexivity].
  - exists c, s'. auto.
Qed.

Lemma secret_copied prev (s : list ascii) :
  copied (match_at p prev s) = true -> ends p prev s = [].
Proof.
  destruct (match_at p prev s) as [[| k] |] eqn:M; simpl; try discriminate.
  - apply match_at_in in M. apply secret_start in M. lia.
  - intros _. apply match_at_none. exact M.
Qed.

(** No match starts on a non-word character, on [R], or after a word
    character. *)
Lemma secret_no_start prev c (s : list ascii) :
  is_word c = false \/ c = "R"%char \/ is_wordo prev = true ->
  ends p prev (c :: s) = [].
Proof.
  intros H. destruct (ends p prev (c :: s)) as [| n l] eqn:E; [reflexivity |].
  exfalso.
  assert (Hin : In n (ends p prev (c :: s))) by (rewrite E; left; reflexivity).
  apply secret_start in Hin.
  destruct Hin as (_ & Hprev & c' & s' & Hs & Hw & HR).
  inversion Hs; subst c' s'.
  destruct H as [H | [H | H]]; congruence.
Qed.

(** After the first match, a word character can only follow a
    non-word one. *)
Lemma secret_end prev (s : list ascii) n :
  match_at p prev s = Some n ->
  is_wordo (nth_error s n) = true ->
  is_wordo (prev_after prev s n) = false.
Proof.
  intros M Hw. destruct (sl_kind Hp) as [[_ Hb] | (_ & _ & cs & Hl & Hcs)].
  - pose proof (ends_wordb_sound _ _ _ _ Hb (match_at_in _ _ _ _ M)) as Hx.
    rewrite Hw in Hx. destruct (is_wordo (prev_after prev s n));
      [discriminate | reflexivity].
  - exfalso. destruct (nth_error s n) as [c |] eqn:E; [| discriminate].
    simpl in Hw. pose proof (last_rep_sound _ _ _ _ _ _ Hl M E) as Hf.
    rewrite (Hcs c Hw) in Hf. discriminate.
Qed.

(** A match found in front of a replacement was already there in
    front of the text that was replaced. *)
Lemma secret_transfer prev (u z z' : list ascii) t n :
  is_word t = true ->
  is_wordo (prev_after prev u (length u)) = false ->
  In n (ends p prev (u ++ lbracket :: z)) ->
  exists n', In n' (ends p prev (u ++ t :: z')).
Proof.
  intros Ht Hu H.
  destruct (sl_kind Hp) as [[Hc Hb] | (Hx & Hno & cs & Hl & Hcs)].
  - assert (Hn : n <= length u).
    { destruct (le_lt_dec n (length u)) as [Hle | Hgt]; [assumption |].
      destruct (may_consume_sound _ _ _ _ (length u) H Hgt) as (c & Hc' & F).
      rewrite nth_error_app2 in Hc' by lia. rewrite Nat.sub_diag in Hc'.
      simpl in Hc'. inversion Hc'; subst c. congruence. }
    destruct (Nat.eq_dec n (length u)) as [-> | Hne].
    + exfalso.
      pose proof (ends_wordb_sound _ _ _ _ Hb H) as Hxor.
      rewrite nth_error_app2 in Hxor by lia. rewrite Nat.sub_diag in Hxor.
      simpl in Hxor. rewrite not_word_lbracket in Hxor.
      rewrite (prev_after_eq prev (length u) (u ++ lbracket :: z) u) in Hxor.
      * rewrite Hu in Hxor. discriminate.
      * rewrite firstn_app, Nat.sub_diag, firstn_all. simpl.
        rewrite app_nil_r. reflexivity.
    + exists n. apply ends_local with (s := u ++ lbracket :: z); [| | exact H].
      * apply firstn_app_same. lia.
      * rewrite !nth_error_app1 by lia. reflexivity.
  - destruct (le_lt_dec n (length u)) as [Hle | Hgt].
    + exists n. apply no_lookahead_sound with (s := u ++ lbracket :: z);
        [exact Hno | | exact H].
      apply firstn_app_same. exact Hle.
    + eapply crossing; [exact Hx | exact Hl | apply Hcs; exact Ht | exact H | exact Hgt].
Qed.
End Shape.

(** *** The scan *)

Lemma prev_after_cons prev c (s : list ascii) k :
  prev_after prev (c :: s) (S k) = prev_after (Some c) s k.
Proof. destruct k; reflexivity. Qed.

Lemma sub_from_skip r repl : forall (s : list ascii) k prev,
    k <= length s ->
    sub_from r repl prev s k = sub_from r repl (prev_after prev s k) (skipn k s) 0.
Proof.
  induction s as [| c s IH]; intros k prev Hk.
  - simpl in Hk. assert (k = 0) by lia. subst. reflexivity.
  - destruct k as [| k]; [reflexivity |].
    simpl in Hk. cbn [sub_from skipn]. rewrite IH by lia.
    rewrite prev_after_cons. reflexivity.
Qed.

Lemma redact_with_nil r prev : redact_with r prev [] = [].
Proof. reflexivity. Qed.

Lemma redact_with_cons r prev c (s : list ascii) :
  redact_with r prev (c :: s)
  = match match_at r prev (c :: s) with
    | Some (S k) =>
        REDACTED ++ redact_with r (prev_after prev (c :: s) (S k))
                                (skipn (S k) (c :: s))
    | _ => c :: redact_with r (Some c) s
    end.
Proof.
  unfold redact_with. cbn [sub_from].
  destruct (match_at r prev (c :: s)) as [[| k] |] eqn:M; try reflexivity.
  f_equal. pose proof (ends_le _ _ _ _ (match_at_in _ _ _ _ M)) as Hle.
  simpl in Hle. rewrite sub_from_skip by lia.
  rewrite prev_after_cons. reflexivity.
Qed.

Lemma nomatch_fixed r : forall (s : list ascii) prev,
    nomatch r prev s -> redact_with r prev s = s.
Proof.
  induction s as [| c s IH]; intros prev H; [reflexivity |].
  destruct H as [He Hn]. rewrite redact_with_cons.
  apply match_at_none in He. rewrite He. f_equal. apply IH. exact Hn.
Qed.

Lemma covered_skipn q r : forall (s : list ascii) k prev,
    covered q r prev s -> covered q r (prev_after prev s k) (skipn k s).
Proof.
  induction s as [| c s IH]; intros k prev H.
  - destruct k; exact I.
  - destruct k as [| k]; [exact H |].
    destruct H as [_ H]. rewrite prev_after_cons. cbn [skipn]. apply IH. exact H.
Qed.

Lemma nomatch_covered q r : forall (s : list ascii) prev,
    nomatch r prev s -> covered q r prev s.
Proof.
  induction s as [| c s IH]; intros prev H; [exact I |].
  destruct H as [He Hn]. split; [intros _; exact He | apply IH; exact Hn].
Qed.

Lemma covered_self q : secret_like q -> forall (s : list ascii) prev,
    covered q q prev s.
Proof.
  intros Hq. induction s as [| c s IH]; intros prev; [exact I |].
  split; [apply secret_copied; exact Hq | apply IH].
Qed.

(** The text up to the first replacement: either nothing is replaced,
    or [s = u ++ w] where the pattern first matches at [w]. *)
Lemma first_replacement q : forall (s : list ascii) prev,
    redact_with q prev s = s
    \/ exists u w k out,
      s = u ++ w
      /\ match_at q (prev_after prev u (length u)) w = Some (S k)
      /\ redact_with q prev s = u ++ REDACTED ++ out.
Proof.
  induction s as [| c s IH]; intros prev; [left; reflexivity |].
  rewrite redact_with_cons.
  destruct (match_at q prev (c :: s)) as [[| k] |] eqn:M.
  - destruct (IH (Some c)) as [-> | (u & w & k & out & Hs & Hm & Hr)];
      [left; reflexivity |].
    right. exists (c :: u), w, k, out. subst s. rewrite Hr.
    split; [reflexivity |]. split; [| reflexivity].
    simpl length. rewrite prev_after_cons. exact Hm.
  - right. exists [], (c :: s), k, (redact_with q (prev_after prev (c :: s) (S k))
                                      (skipn (S k) (c :: s))).
    split; [reflexivity |]. split; [exact M | reflexivity].
  - destruct (IH (Some c)) as [-> | (u & w & k & out & Hs & Hm & Hr)];
      [left; reflexivity |].
    right. exists (c :: u), w, k, out. subst s. rewrite Hr.
    split; [reflexivity |]. split; [| reflexivity].
    simpl length. rewrite prev_after_cons. exact Hm.
Qed.

Lemma hd_error_skipn (A : Type) (s : list A) n : hd_error (skipn n s) = nth_error s n.
Proof.
  rewrite hd_error_nth, nth_error_skipn, Nat.add_0_r. reflexivity.
Qed.

Section NoNewMatch.
Variables p q : regex.
Hypothesis Hp : secret_like p.
Hypothesis Hq : secret_like q.

(** Copying a position of the scan of [q] does not let [p] match
    there. *)
Lemma copied_position prev c (s : list ascii) :
  ends p prev (c :: s) = [] ->
  ends p prev (c :: redact_with q (Some c) s) = [].
Proof.
  intros He.
  destruct (first_replacement q s (Some c))
    as [-> | (u & w & k & out & Hs & Hm & Hr)]; [exact He |].
  rewrite Hr.
  change (c :: u ++ REDACTED ++ out)
    with ((c :: u) ++ lbracket :: tl REDACTED ++ out).
  destruct (ends p prev ((c :: u) ++ lbracket :: tl REDACTED ++ out))
    as [| n l] eqn:E; [reflexivity |].
  exfalso.
  assert (Hin : In n (ends p prev ((c :: u) ++ lbracket :: tl REDACTED ++ out)))
    by (rewrite E; left; reflexivity).
  destruct (secret_start q Hq _ _ _ (match_at_in _ _ _ _ Hm))
    as (_ & Hprev & t & w' & Hw & Ht & _).
  destruct (secret_transfer p Hp prev (c :: u) (tl REDACTED ++ out) w' t n Ht)
    as (n' & Hn'); [| exact Hin |].
  - simpl length. rewrite prev_after_cons. exact Hprev.
  - subst s w. simpl in Hn'. rewrite He in Hn'. contradiction.
Qed.

Lemma nomatch_redacted (out : list ascii) prev :
  nomatch p (Some "]"%char) out -> nomatch p prev (REDACTED ++ out).
Proof.
  intros H. simpl.
  repeat (split; [apply (secret_no_start p Hp); simpl; auto |]).
  exact H.
Qed.

Lemma no_new_match_bounded : forall n (s : list ascii) prev prev',
    length s <= n ->
    same_side prev prev' s ->
    covered q p prev s ->
    nomatch p prev' (redact_with q prev s).
Proof.
  induction n as [| n IH]; intros s prev prev' Hlen Hside Hcov.
  - destruct s; [exact I | simpl in Hlen; lia].
  - destruct s as [| c s]; [exact I |].
    rewrite redact_with_cons. simpl in Hlen.
    assert (Hcopy : copied (match_at q prev (c :: s)) = true ->
                    nomatch p prev' (c :: redact_with q (Some c) s)).
    { intros Hc. destruct Hcov as [Hcov0 Hcov]. split.
      - destruct Hside as [Hs | [_ Hs]].
        + rewrite (ends_prev p prev' prev _ Hs).
          apply copied_position. apply Hcov0. exact Hc.
        + apply (secret_no_start p Hp). left. exact Hs.
      - apply IH; [lia | left; reflexivity | exact Hcov]. }
    destruct (match_at q prev (c :: s)) as [[| k] |] eqn:M;
      try (apply Hcopy; reflexivity).
    apply nomatch_redacted.
    pose proof (ends_le _ _ _ _ (match_at_in _ _ _ _ M)) as Hle.
    simpl in Hle.
    apply IH.
    + rewrite length_skipn. simpl. lia.
    + unfold same_side. rewrite hd_error_skipn.
      destruct (is_wordo (nth_error (c :: s) (S k))) eqn:Hw.
      * left. rewrite (secret_end q Hq _ _ _ M Hw). reflexivity.
      * right. split; reflexivity.
    + apply covered_skipn. exact Hcov.
Qed.

(** Replacing the matches of [q] creates no match of [p]. *)
Lemma no_new_match (s : list ascii) :
  covered q p None s -> nomatch p None (redact_with q None s).
Proof.
  apply no_new_match_bounded with (n := length s);
    [lia | left; reflexivity].
Qed.
End NoNewMatch.

(** *** The loop over the patterns *)

Lemma redact_all_clean : forall (pats : list regex) (s : list ascii) (done : list regex),
    Forall secret_like done -> Forall secret_like pats ->
    Forall (fun p => nomatch p None s) done ->
    Forall (fun p => nomatch p None (redact_all pats s)) (done ++ pats).
Proof.
  induction pats as [| q pats IH]; intros s done Hd Hps Hclean.
  - rewrite app_nil_r. exact Hclean.
  - inversion Hps as [| ? ? Hq Hps']; subst.
    change (redact_all (q :: pats) s) with (redact_all pats (redact_with q None s)).
    replace (done ++ q :: pats) with ((done ++ [q]) ++ pats)
      by (rewrite <- app_assoc; reflexivity).
    apply IH.
    + apply Forall_app. split; [exact Hd | constructor; [exact Hq | constructor]].
    + exact Hps'.
    + apply Forall_app. split.
      * rewrite Forall_forall in *. intros p Hin.
        apply no_new_match; [apply Hd; exact Hin | exact Hq |].
        apply nomatch_covered. apply Hclean. exact Hin.
      * constructor; [| constructor].
        apply no_new_match; [exact Hq | exact Hq |].
        apply covered_self. exact Hq.
Qed.

Lemma redact_all_fixed : forall (pats : list regex) (s : list ascii),
    Forall (fun p => nomatch p None s) pats -> redact_all pats s = s.
Proof.
  induction pats as [| q pats IH]; intros s H; [reflexivity |].
  inversion H as [| ? ? Hq Hps]; subst.
  change (redact_all (q :: pats) s) with (redact_all pats (redact_with q None s)).
  rewrite (nomatch_fixed q s None Hq). apply IH. exact Hps.
Qed.

Lemma redact_all_idempotent (pats : list regex) (s : list ascii) :
  Forall secret_like pats ->
  redact_all pats (redact_all pats s) = redact_all pats s.
Proof.
  intros H. apply redact_all_fixed.
  apply (redact_all_clean pats s [] (Forall_nil _) H (Forall_nil _)).
Qed.

(** *** The five patterns have the shape *)

Lemma all_ascii_sound (f : ascii -> bool) :
  all_ascii f = true -> forall c, f c = true.
Proof.
  unfold all_ascii. rewrite forallb_forall. intros H c. apply H.
  apply in_map_iff. exists (nat_of_ascii c). split.
  - apply ascii_nat_embedding.
  - apply in_seq. pose proof (nat_ascii_bounded c). lia.
Qed.

Lemma word_start_check (r : regex) :
  all_ascii (fun c => implb (first_set r c)
                            (is_word c && negb (Ascii.eqb c "R"))) = true ->
  word_start r.
Proof.
  intros H c Hc. pose proof (all_ascii_sound _ H c) as Hi. cbv beta in Hi.
  rewrite Hc in Hi. simpl in Hi. apply andb_prop in Hi. destruct Hi as [Hw HR].
  split; [exact Hw |]. apply negb_true_iff in HR. apply Ascii.eqb_neq. exact HR.
Qed.

Lemma takes_words_check (cs : charset) :
  all_ascii (fun c => implb (is_word c) (cs c)) = true ->
  forall c, is_word c = true -> cs c = true.
Proof.
  intros H c Hc. pose proof (all_ascii_sound _ H c) as Hi. cbv beta in Hi.
  rewrite Hc in Hi. exact Hi.
Qed.

Ltac closed_shape :=
  constructor;
  [ reflexivity
  | reflexivity
  | apply word_start_check; vm_compute; reflexivity
  | left; split; vm_compute; reflexivity ].

Ltac open_shape :=
  constructor;
  [ reflexivity
  | reflexivity
  | apply word_start_check; vm_compute; reflexivity
  | right; split; [vm_compute; reflexivity |];
    split; [vm_compute; reflexivity |];
    exists value_ch; split;
    [ reflexivity | apply takes_words_check; vm_compute; reflexivity ] ].

Lemma pat_authorization_shape : secret_like pat_authorization.
Proof. closed_shape. Qed.

Lemma pat_bearer_shape : secret_like pat_bearer.
Proof. closed_shape. Qed.

Lemma pat_akia_shape : secret_like pat_akia.
Proof. closed_shape. Qed.

Lemma pat_api_key_shape : secret_like pat_api_key.
Proof. open_shape. Qed.

Lemma pat_token_shape : secret_like pat_token.
Proof. open_shape. Qed.

Lemma secret_patterns_shape : Forall secret_like _SECRET_PATTERNS.
Proof.
  unfold _SECRET_PATTERNS.
  apply Forall_cons; [apply pat_authorization_shape |].
  apply Forall_cons; [apply pat_bearer_shape |].
  apply Forall_cons; [apply pat_akia_shape |].
  apply Forall_cons; [apply pat_api_key_shape |].
  apply Forall_cons; [apply pat_token_shape |].
  apply Forall_nil.
Qed.

Lemma chars_text (l : list ascii) : chars (text l) = l.
Proof. apply list_ascii_of_string_of_list_ascii. Qed.

(** C6.  [_redact_secrets] is a function of its argument alone, defined
    on every string, and redacting twice is redacting once: after the
    five substitutions no pattern matches anywhere in the text, because
    a substitution only ever removes matches - the marker [[REDACTED]]
    neither starts a match nor completes one that was not there. *)
Theorem redact_secrets_idempotent :
  forall x : string, _redact_secrets (_redact_secrets x) = _redact_secrets x.
Proof.
  intros x. unfold _redact_secrets. rewrite chars_text.
  unfold redact_chars. rewrite redact_all_idempotent; [reflexivity |].
  apply secret_patterns_shape.
Qed.

(** *** Following a piece of text back through one pass *)

Lemma prev_after_app prev (l1 l2 : list ascii) n :
  prev_after prev (l1 ++ l2) (length l1 + n)
  = prev_after (prev_after prev l1 (length l1)) l2 n.
Proof.
  rewrite <- prev_after_add. rewrite skipn_app, skipn_all, Nat.sub_diag.
  simpl. f_equal. apply prev_after_eq.
  rewrite firstn_app, Nat.sub_diag, firstn_all. simpl. rewrite app_nil_r.
  reflexivity.
Qed.

Lemma in_redacted_lbracket : In lbracket REDACTED.
Proof. left. reflexivity. Qed.

(** Text before the first [[] of the output was copied. *)
Lemma copied_prefix q : forall (v s r' : list ascii) prev,
    ~ In lbracket v ->
    redact_with q prev s = v ++ r' ->
    exists r, s = v ++ r
              /\ r' = redact_with q (prev_after prev v (length v)) r.
Proof.
  induction v as [| x v IH]; intros s r' prev Hv H.
  - exists s. split; [reflexivity |]. simpl. symmetry. exact H.
  - destruct s as [| c s]; [discriminate |].
    rewrite redact_with_cons in H.
    assert (Hcopy : c :: redact_with q (Some c) s = (x :: v) ++ r' ->
                    exists r, c :: s = (x :: v) ++ r
                              /\ r' = redact_with q (prev_after prev (x :: v)
                                                               (length (x :: v))) r).
    { intros Hc. simpl in Hc. inversion Hc as [[Hx Hrest]]. subst x.
      destruct (IH s r' (Some c)) as (r & -> & Hr).
      - intros Hin. apply Hv. right. exact Hin.
      - exact Hrest.
      - exists r. split; [reflexivity |].
        simpl length. rewrite prev_after_cons. exact Hr. }
    destruct (match_at q prev (c :: s)) as [[| k] |]; try (apply Hcopy; exact H).
    exfalso. simpl in H. inversion H as [[Hx Hrest]].
    apply Hv. left. symmetry. exact Hx.
Qed.

Lemma split_after (A : Type) (l1 x a' y : list A) (w0 : A) :
  ~ In w0 l1 ->
  l1 ++ x = a' ++ w0 :: y ->
  exists a2, a' = l1 ++ a2 /\ x = a2 ++ w0 :: y.
Proof.
  intros Hn H. apply app_eq_app in H.
  destruct H as (l & [[H1 H2] | [H1 H2]]).
  - destruct l as [| z l].
    + exists []. rewrite app_nil_r in H1. subst. split; [now rewrite app_nil_r | exact (eq_sym H2)].
    + exfalso. simpl in H2. inversion H2; subst. apply Hn.
      apply in_or_app. right. left. reflexivity.
  - exists l. split; assumption.
Qed.

Section Track.
Variable q : regex.
Variables (w0 : ascii) (wt : list ascii).
Hypothesis Hw : forall c, In c (w0 :: wt) -> ~ In c REDACTED.

Lemma track_bounded : forall n (s : list ascii) prev prev' a' b',
    length s <= n ->
    (is_wordo prev' = true -> prev = prev') ->
    redact_with q prev s = a' ++ (w0 :: wt) ++ b' ->
    exists a b,
      s = a ++ (w0 :: wt) ++ b
      /\ copied (match_at q (prev_after prev a (length a)) ((w0 :: wt) ++ b)) = true
      /\ (is_wordo (prev_after prev' a' (length a')) = true ->
          prev_after prev a (length a) = prev_after prev' a' (length a'))
      /\ b' = redact_with q (prev_after prev (a ++ w0 :: wt)
                                        (length (a ++ w0 :: wt))) b.
Proof.
  induction n as [| n IH]; intros s prev prev' a' b' Hlen Hctx H.
  - destruct s; [| simpl in Hlen; lia]. destruct a'; discriminate.
  - destruct s as [| c s]; [destruct a'; discriminate |].
    simpl in Hlen. rewrite redact_with_cons in H.
    assert (Hcopy : copied (match_at q prev (c :: s)) = true ->
                    c :: redact_with q (Some c) s = a' ++ (w0 :: wt) ++ b' ->
                    exists a b,
                      c :: s = a ++ (w0 :: wt) ++ b
                      /\ copied (match_at q (prev_after prev a (length a))
                                          ((w0 :: wt) ++ b)) = true
                      /\ (is_wordo (prev_after prev' a' (length a')) = true ->
                          prev_after prev a (length a)
                          = prev_after prev' a' (length a'))
                      /\ b' = redact_with q (prev_after prev (a ++ w0 :: wt)
                                                        (length (a ++ w0 :: wt))) b).
    { intros Hc Hout. destruct a' as [| x a1'].
      - simpl in Hout. inversion Hout as [[Hx Hrest]]. subst c.
        destruct (copied_prefix q wt s b' (Some w0)) as (r & -> & Hr).
        + intros Hin. apply (Hw lbracket); [right; exact Hin |].
          apply in_redacted_lbracket.
        + exact Hrest.
        + exists [], r. split; [reflexivity |]. split; [exact Hc |].
          split; [simpl; exact Hctx |].
          simpl app. simpl length. rewrite prev_after_cons. exact Hr.
      - simpl in Hout. inversion Hout as [[Hx Hrest]]. subst x.
        destruct (IH s (Some c) (Some c) a1' b') as (a1 & b & -> & Hg & Hl & Hb);
          [lia | reflexivity | exact Hrest |].
        exists (c :: a1), b. split; [reflexivity |].
        simpl length. rewrite !prev_after_cons.
        split; [exact Hg |]. split; [exact Hl |].
        simpl app. simpl length. rewrite prev_after_cons. exact Hb. }
    destruct (match_at q prev (c :: s)) as [[| k] |] eqn:M;
      try (apply Hcopy; [reflexivity | exact H]).
    clear Hcopy.
    pose proof (ends_le _ _ _ _ (match_at_in _ _ _ _ M)) as Hle.
    simpl in Hle.
    apply split_after in H; [| apply Hw; left; reflexivity].
    destruct H as (a2' & -> & Hout).
    destruct (IH (skipn (S k) (c :: s)) (prev_after prev (c :: s) (S k))
                 (Some "]"%char) a2' b') as (a2 & b & Hs & Hg & Hl & Hb).
    + rewrite length_skipn. simpl. lia.
    + simpl. discriminate.
    + exact Hout.
    + set (m := firstn (S k) (c :: s)).
      assert (Hm : length m = S k)
        by (unfold m; rewrite length_firstn; simpl; lia).
      assert (Hpm : prev_after prev m (length m) = prev_after prev (c :: s) (S k)).
      { rewrite Hm. apply prev_after_eq. unfold m. rewrite firstn_firstn.
        rewrite Nat.min_id. reflexivity. }
      exists (m ++ a2), b.
      split.
      { rewrite <- app_assoc, <- Hs. unfold m. symmetry. apply firstn_skipn. }
      rewrite !length_app.
      rewrite (prev_after_app prev m a2 (length a2)), Hpm.
      split; [exact Hg |]. split.
      * rewrite (prev_after_app prev' REDACTED a2' (length a2')).
        exact Hl.
      * rewrite <- app_assoc, <- Nat.add_assoc.
        rewrite (prev_after_app prev m (a2 ++ w0 :: wt)), Hpm.
        rewrite <- length_app. exact Hb.
Qed.

(** A piece of text found in the output of a pass stood in its input,
    at a position the scan copied; a word character before it was
    there too, and what follows it is the redaction of what followed
    it. *)
Lemma track (s a' b' : list ascii) :
  redact_with q None s = a' ++ (w0 :: wt) ++ b' ->
  exists a b,
    s = a ++ (w0 :: wt) ++ b
    /\ copied (match_at q (last_char a) ((w0 :: wt) ++ b)) = true
    /\ (is_wordo (last_char a') = true -> last_char a = last_char a')
    /\ b' = redact_with q (last_char (a ++ w0 :: wt)) b.
Proof.
  intros H. apply (track_bounded (length s) s None None a' b');
    [lia | reflexivity | exact H].
Qed.
End Track.

(** *** The bare bearer pattern at the sample *)

Lemma run_mono (f g : charset) (s : list ascii) :
  (forall c, f c = true -> g c = true) -> run f s <= run g s.
Proof.
  intros H. induction s as [| c s IH]; simpl; [lia |].
  destruct (f c) eqn:E; [| lia]. rewrite (H c E). lia.
Qed.

Lemma word_tok_word c : word_tok c = true -> is_word c = true.
Proof. unfold word_tok. intros H. apply andb_prop in H. tauto. Qed.

Lemma word_tok_tok c : word_tok c = true -> tok_ch c = true.
Proof. unfold word_tok. intros H. apply andb_prop in H. tauto. Qed.

Ltac eval_set f :=
  repeat match goal with
         | |- context [f (Ascii ?a ?b ?c ?d ?e ?g ?h ?i)] =>
             let v := eval vm_compute in (f (Ascii a b c d e g h i)) in
             change (f (Ascii a b c d e g h i)) with v
         end.

Lemma bearer_matches_sample prev (b : list ascii) :
  is_wordo prev = false ->
  is_wordo (nth_error b (run word_tok b)) = false ->
  In (13 + run word_tok b) (ends pat_bearer prev (bearer_sample ++ b)).
Proof.
  intros Hprev Hnext. set (k := run word_tok b) in *.
  unfold pat_bearer.
  apply in_ends_seq. exists 0, (13 + k). split; [reflexivity |]. split.
  { simpl. rewrite Hprev. simpl. left. reflexivity. }
  apply in_ends_seq. exists 6, (7 + k). split; [reflexivity |]. split.
  { cbn. left. reflexivity. }
  apply in_ends_seq. exists 1, (6 + k). split; [reflexivity |]. split.
  { apply in_ends_rep. cbn. eval_set is_space. cbn. lia. }
  apply in_ends_seq. exists (6 + k), 0. split; [lia |]. split.
  { apply in_ends_rep. cbn. eval_set tok_ch. cbn.
    pose proof (run_mono word_tok tok_ch b word_tok_tok) as Hm. fold k in Hm. lia. }
  apply in_ends_seq. exists 0, 0. split; [reflexivity |]. split.
  { apply in_ends_rep. cbn. lia. }
  cbn. rewrite hd_error_skipn, Hnext.
  assert (Hlast : is_wordo (nth_error ("3"%char :: b) k) = true).
  { destruct k as [| k'] eqn:Ek; [reflexivity |]. simpl.
    destruct (run_consumes word_tok b k') as (c & Hc & Hwt).
    - unfold k in Ek. lia.
    - rewrite Hc. simpl. apply word_tok_word. exact Hwt. }
  rewrite Hlast. left. reflexivity.
Qed.

Lemma bearer_needs_glue prev (b : list ascii) :
  ends pat_bearer prev (bearer_sample ++ b) = [] ->
  is_wordo prev = true \/ glued_right b.
Proof.
  intros He. destruct (is_wordo prev) eqn:Hprev; [left; reflexivity |].
  right.
  destruct (is_wordo (nth_error b (run word_tok b))) eqn:Hnext.
  - destruct (nth_error b (run word_tok b)) as [d |] eqn:Ed; [| discriminate].
    simpl in Hnext.
    pose proof (run_stop word_tok b d Ed) as Hstop.
    destruct (nth_error_split b (run word_tok b) Ed) as (w & rest & Hb & Hlen).
    exists w, d, rest. split; [exact Hb |]. split; [| split].
    + assert (Hr : run word_tok b <= run word_tok b) by lia.
      apply run_spec in Hr. destruct Hr as [_ Hall].
      rewrite Hb in Hall at 2. rewrite <- Hlen in Hall.
      rewrite firstn_app, Nat.sub_diag, firstn_all in Hall. simpl in Hall.
      rewrite app_nil_r in Hall. exact Hall.
    + exact Hnext.
    + unfold word_tok in Hstop. rewrite Hnext in Hstop. exact Hstop.
  - exfalso. pose proof (bearer_matches_sample prev b Hprev Hnext) as Hin.
    rewrite He in Hin. contradiction.
Qed.


Lemma sample_not_in_marker c : In c bearer_sample -> ~ In c REDACTED.
Proof.
  intros Hin Hr.
  assert (Hf : existsb (Ascii.eqb c) REDACTED = false).
  { simpl in Hin.
    repeat (destruct Hin as [<- | Hin]; [reflexivity |]). contradiction. }
  assert (Ht : existsb (Ascii.eqb c) REDACTED = true).
  { apply existsb_exists. exists c. split; [exact Hr | apply Ascii.eqb_refl]. }
  congruence.
Qed.

Lemma sample_tracked q (s a' b' : list ascii) :
  redact_with q None s = a' ++ bearer_sample ++ b' ->
  exists a b,
    s = a ++ bearer_sample ++ b
    /\ copied (match_at q (last_char a) (bearer_sample ++ b)) = true
    /\ (is_wordo (last_char a') = true -> last_char a = last_char a')
    /\ b' = redact_with q (last_char (a ++ bearer_sample)) b.
Proof.
  apply (track q "B"%char (tl bearer_sample) sample_not_in_marker).
Qed.

Lemma glued_right_tracked q prev (b b' : list ascii) :
  b' = redact_with q prev b -> glued_right b' -> glued_right b.
Proof.
  intros Hb (w & d & rest & Hw & Hall & Hd & Ht).
  destruct (copied_prefix q (w ++ [d]) b rest prev) as (r & Hr & _).
  - intros Hin. apply in_app_or in Hin. destruct Hin as [Hin | [Hin | []]].
    + rewrite forallb_forall in Hall. apply Hall in Hin.
      apply word_tok_word in Hin. rewrite not_word_lbracket in Hin. discriminate.
    + subst d. rewrite not_word_lbracket in Hd. discriminate.
  - rewrite <- Hb, Hw, <- app_assoc. reflexivity.
  - exists w, d, r. rewrite Hr, <- app_assoc. auto.
Qed.

Lemma nomatch_app r : forall (a : list ascii) prev (s : list ascii),
    nomatch r prev (a ++ s) -> nomatch r (prev_after prev a (length a)) s.
Proof.
  induction a as [| c a IH]; intros prev s H; [exact H |].
  destruct H as [_ H]. simpl length. rewrite prev_after_cons.
  apply IH. exact H.
Qed.

Lemma redacted_no_bearer (s : list ascii) : nomatch pat_bearer None (redact_chars s).
Proof.
  pose proof (redact_all_clean _SECRET_PATTERNS s [] (Forall_nil _)
                secret_patterns_shape (Forall_nil _)) as H.
  simpl in H. inversion H as [| ? ? _ H1]; subst.
  inversion H1 as [| ? ? Hb _]; subst. exact Hb.
Qed.

(** C7 (as amended).  Every occurrence of [Bearer abc123] in the output
    of [_redact_secrets] stands where the bare bearer pattern cannot
    match: directly after a word character, or with its token running
    through letters, digits or underscores into a word character
    outside the token alphabet (a non-ASCII letter or digit).  The
    substitutions never introduce the sample: the occurrence was
    copied from an occurrence in the input that is glued in the same
    way (the same word character before it, or a glued continuation
    after it).  An occurrence that is not glued is never left in the
    output. *)
Theorem bearer_sample_survives_only_glued :
  forall (x : string) (a' b' : list ascii),
    chars (_redact_secrets x) = a' ++ bearer_sample ++ b' ->
    (is_wordo (last_char a') = true \/ glued_right b')
    /\ exists a b,
        chars x = a ++ bearer_sample ++ b
        /\ (is_wordo (last_char a') = true -> last_char a = last_char a')
        /\ (glued_right b' -> glued_right b)
        /\ (is_wordo (last_char a) = true \/ glued_right b).
Proof.
  intros x a5 b5 H5.
  unfold _redact_secrets in H5. rewrite chars_text in H5.
  assert (Hout : is_wordo (last_char a5) = true \/ glued_right b5).
  { pose proof (redacted_no_bearer (chars x)) as Hclean.
    rewrite H5 in Hclean. apply nomatch_app in Hclean.
    destruct Hclean as [He _]. apply bearer_needs_glue. exact He. }
  split; [exact Hout |].
  unfold redact_chars, redact_all, _SECRET_PATTERNS in H5. cbn [fold_left] in H5.
  unfold re_sub in H5.
  repeat match type of H5 with
         | context [sub_from ?r REDACTED None ?s 0] =>
             change (sub_from r REDACTED None s 0) with (redact_with r None s) in H5
         end.
  apply sample_tracked in H5. destruct H5 as (a4 & b4 & H4 & _ & Hl5 & Hr5).
  apply sample_tracked in H4. destruct H4 as (a3 & b3 & H3 & _ & Hl4 & Hr4).
  apply sample_tracked in H3. destruct H3 as (a2 & b2 & H2 & _ & Hl3 & Hr3).
  apply sample_tracked in H2. destruct H2 as (a1 & b1 & H1 & _ & Hl2 & Hr2).
  apply sample_tracked in H1. destruct H1 as (a0 & b0 & H0 & _ & Hl1 & Hr1).
  assert (Hleft : is_wordo (last_char a5) = true -> last_char a0 = last_char a5).
  { intros Hw.
    pose proof (Hl5 Hw) as E5. rewrite <- E5 in Hw.
    pose proof (Hl4 Hw) as E4. rewrite <- E4 in Hw.
    pose proof (Hl3 Hw) as E3. rewrite <- E3 in Hw.
    pose proof (Hl2 Hw) as E2. rewrite <- E2 in Hw.
    pose proof (Hl1 Hw) as E1.
    congruence. }
  assert (Hright : glued_right b5 -> glued_right b0).
  { intros Hg.
    apply (glued_right_tracked _ _ _ _ Hr5) in Hg.
    apply (glued_right_tracked _ _ _ _ Hr4) in Hg.
    apply (glued_right_tracked _ _ _ _ Hr3) in Hg.
    apply (glued_right_tracked _ _ _ _ Hr2) in Hg.
    apply (glued_right_tracked _ _ _ _ Hr1) in Hg.
    exact Hg. }
  exists a0, b0. split; [exact H0 |]. split; [exact Hleft |].
  split; [exact Hright |].
  destruct Hout as [Hw | Hg].
  - left. rewrite (Hleft Hw). exact Hw.
  - right. exact (Hright Hg).
Qed.

Lemma bearer_sample_survives_only_glued_witness :
  (is_wordo (last_char ["x"%char]) = true \/ glued_right [])
  /\ exists a b,
      chars "xBearer abc123" = a ++ bearer_sample ++ b
      /\ (is_wordo (last_char ["x"%char]) = true -> last_char a = last_char ["x"%char])
      /\ (glued_right [] -> glued_right b)
      /\ (is_wordo (last_char a) = true \/ glued_right b).
Proof.
  apply (bearer_sample_survives_only_glued "xBearer abc123" ["x"%char] []).
  vm_compute. reflexivity.
Defined.

(** C7, as stated, fails: a [Bearer abc123] that follows a word
    character is not at a word boundary, no pattern matches, and the
    text comes back unchanged. *)
Lemma bearer_sample_survives :
  _redact_secrets "xBearer abc123" = "xBearer abc123"
  /\ occurs_in bearer_sample (chars (_redact_secrets "xBearer abc123")).
Proof.
  split; [vm_compute; reflexivity |].
  exists ["x"%char], []. vm_compute. reflexivity.
Qed.

Set Implicit Arguments.

(** ** Small facts about the monad and about truthiness *)

Lemma truthy_str_false (s : string) : truthy_str s = false <-> s = EmptyString.
Proof.
  unfold truthy_str. rewrite negb_false_iff. apply String.eqb_eq.
Qed.

Lemma truthy_str_true (s : string) : truthy_str s = true <-> s <> EmptyString.
Proof.
  unfold truthy_str. rewrite negb_true_iff. apply String.eqb_neq.
Qed.

Lemma truthy_ostr_cached (c : option string) :
  truthy_ostr c = true -> c = Some (cached_id c) /\ truthy_str (cached_id c) = true.
Proof. destruct c; simpl; [auto | discriminate]. Qed.

Section Validation.
Context {W : Type}.
Variable client : Client W.
Variable cfg : Config.
Variable sha256_hex : string -> string.

Lemma save_memory_invalid memory user_id session_id memory_type tags
      redact_secrets fuel (st : State W) :
  strip memory = EmptyString \/ (len memory > MAX_MEMORY_CHARS cfg)%Z ->
  exists msg,
    save_memory client cfg sha256_hex memory user_id session_id memory_type
                tags redact_secrets fuel st
    = (Ret [("status", VStr "error"); ("error", VStr msg)], st).
Proof.
  intros H. unfold save_memory.
  destruct (truthy_str (strip memory)) eqn:Hs; simpl.
  - destruct H as [H | H].
    + apply truthy_str_true in Hs. contradiction.
    + apply Z.gtb_gt in H. rewrite H. eexists. reflexivity.
  - eexists. reflexivity.
Qed.

Lemma search_memory_invalid query user_id session_id memory_type tags
      max_results rewrite_query return_full_items fuel (st : State W) :
  strip query = EmptyString ->
  search_memory client cfg query user_id session_id memory_type tags
                max_results rewrite_query return_full_items fuel st
  = (Ret [("status", VStr "error"); ("error", VStr MSG_EMPTY_QUERY)], st).
Proof.
  intros H. unfold search_memory.
  apply truthy_str_false in H. rewrite H. reflexivity.
Qed.
End Validation.

(** C8.  Validation fails fast: a [save_memory] whose text is empty
    after trimming or longer than [MAX_MEMORY_CHARS], and a
    [search_memory] whose query is empty after trimming, return an error
    mapping and leave the whole state untouched: the cache, the remote
    state, and the call log (no resolution, upload or search was
    issued). *)
Theorem validation_fails_fast :
  forall (W : Type) (client : Client W) (cfg : Config)
         (sha256_hex : string -> string) (st : State W),
    (forall memory user_id session_id memory_type tags redact_secrets fuel,
        strip memory = EmptyString \/ (len memory > MAX_MEMORY_CHARS cfg)%Z ->
        exists d,
          save_memory client cfg sha256_hex memory user_id session_id
                      memory_type tags redact_secrets fuel st = (Ret d, st)
          /\ is_error d /\ exists msg, dict_get d "error" = Some (VStr msg))
    /\
    (forall query user_id session_id memory_type tags max_results
            rewrite_query return_full_items fuel,
        strip query = EmptyString ->
        exists d,
          search_memory client cfg query user_id session_id memory_type tags
                        max_results rewrite_query return_full_items fuel st
          = (Ret d, st)
          /\ is_error d /\ exists msg, dict_get d "error" = Some (VStr msg)).
Proof.
  intros W client cfg sha st. split.
  - intros memory user_id session_id memory_type tags redact fuel H.
    destruct (save_memory_invalid client cfg sha memory user_id session_id
                memory_type tags redact fuel st H) as [msg E].
    eexists. split; [exact E |]. split; [reflexivity |]. eexists. reflexivity.
  - intros query user_id session_id memory_type tags max_results rw full fuel H.
    eexists. split; [apply search_memory_invalid; exact H |].
    split; [reflexivity |]. eexists. reflexivity.
Qed.

Lemma validation_fails_fast_witness :
  (exists d,
      save_memory (Stub.client Stub.happy) Stub.cfg Stub.sha "   " "u1" None
                  "note" None None 3 Stub.start = (Ret d, Stub.start)
      /\ is_error d /\ exists msg, dict_get d "error" = Some (VStr msg))
  /\
  (exists d,
      search_memory (Stub.client Stub.happy) Stub.cfg " " "u1" None None None
                    8%Z true false 3 Stub.start = (Ret d, Stub.start)
      /\ is_error d /\ exists msg, dict_get d "error" = Some (VStr msg)).
Proof.
  split.
  - apply (proj1 (validation_fails_fast (Stub.client Stub.happy) Stub.cfg
                                        Stub.sha Stub.start)).
    left. reflexivity.
  - apply (proj2 (validation_fails_fast (Stub.client Stub.happy) Stub.cfg
                                        Stub.sha Stub.start)).
    reflexivity.
Defined.

(* ------------------------------------------------------------------ *)
(** ** The attribute filter builder *)

(** C5.  [_build_attribute_filter], on every combination of inputs:
    no filter exactly when every input is empty or absent; the bare
    leaf [{type: eq, key, value}] when exactly one input is non-empty;
    otherwise the node [{type: and, filters: leaves}] over the leaves,
    one per non-empty input in the order user_id, session_id, type,
    tags, the tags leaf comparing [tags_json] with the JSON text of the
    list; the number of leaves is the number of non-empty inputs. *)
Theorem build_attribute_filter_spec :
  forall (user_id session_id : option string) (tags : option (list string))
         (memory_type : option string),
    let built := _build_attribute_filter user_id session_id tags memory_type in
    let leaves := spec_filter_leaves user_id session_id memory_type tags in
    let n := nonempty_inputs user_id session_id memory_type tags in
    length leaves = n
    /\ (n = 0 <-> built = None)
    /\ (n = 1 -> exists leaf, leaves = [leaf] /\ built = Some leaf)
    /\ (2 <= n ->
        built = Some (VDict [("type", VStr "and"); ("filters", VList leaves)])).
Proof.
  intros user_id session_id tags memory_type.
  unfold _build_attribute_filter, spec_filter_leaves, nonempty_inputs.
  destruct user_id as [[| c1 u] |];
    destruct session_id as [[| c2 s] |];
    destruct memory_type as [[| c3 t] |];
    destruct tags as [[| g gs] |];
    cbn;
    (split; [reflexivity |]);
    (split; [split; intro H; (reflexivity || discriminate H) |]);
    (split; [intro H; try discriminate H; eexists; split; reflexivity
            | intro H; try reflexivity; exfalso; lia]).
Qed.

Lemma build_attribute_filter_spec_witness :
  _build_attribute_filter (Some "u1") None (Some ["a"; "b"]) None
  = Some (VDict [("type", VStr "and");
                 ("filters",
                  VList [VDict [("type", VStr "eq"); ("key", VStr "user_id");
                                ("value", VStr "u1")];
                         VDict [("type", VStr "eq"); ("key", VStr "tags_json");
                                ("value", VStr (json_dumps ["a"; "b"]))]])]).
Proof.
  apply (proj2 (proj2 (proj2
           (build_attribute_filter_spec (Some "u1") None (Some ["a"; "b"]) None)))).
  apply le_n.
Defined.

(* ------------------------------------------------------------------ *)
(** ** The collection resolver *)

Lemma events_since_app {W} (st st' : State W) (new : list Event) :
  calls st' = calls st ++ new -> events_since st st' = new.
Proof.
  intros H. unfold events_since. rewrite H.
  rewrite skipn_app, skipn_all, Nat.sub_diag. reflexivity.
Qed.

Lemma creations_app (l1 l2 : list Event) :
  creations (l1 ++ l2) = creations l1 + creations l2.
Proof. unfold creations. rewrite filter_app, length_app. reflexivity. Qed.

Section Resolver.
Context {W : Type}.
Variable client : Client W.
Variable cfg : Config.

Lemma resolved_log_step (st st1 st2 : State W) ev r :
  calls st1 = calls st ++ [ev] ->
  is_store_call (ev_call ev) = true ->
  is_creation ev = false ->
  cache st1 = cache st ->
  resolved st1 r st2 -> resolved st r st2.
Proof.
  intros Hc Hk Hn Hca (new & Hnew & Hall & Hle & Hset & Hr).
  exists (ev :: new). repeat split.
  - rewrite Hnew, Hc, <- app_assoc. reflexivity.
  - constructor; assumption.
  - unfold creations in *. simpl. rewrite Hn. exact Hle.
  - unfold creations in *. simpl. rewrite Hn. exact Hset.
  - destruct r; rewrite <- ?Hca; exact Hr.
Qed.

Lemma create_store_resolved (st : State W) r st1 :
  create_store client cfg st = (r, st1) -> resolved st r st1.
Proof.
  unfold create_store, bind, remote, set_cache, ret.
  destruct (vector_stores_create client (VECTOR_STORE_NAME cfg) (world st))
    as [[created | e] w'] eqn:E; intros H; inversion H; subst; clear H.
  - eexists. simpl. split; [reflexivity |].
    split; [repeat constructor |].
    unfold creations, is_creation. simpl.
    destruct (truthy_str (store_id created)) eqn:Ht; simpl.
    + repeat split; auto.
    + repeat split; auto; discriminate.
  - eexists. simpl. split; [reflexivity |].
    split; [repeat constructor |].
    unfold creations, is_creation. simpl. repeat split; auto; discriminate.
Qed.

Lemma scan_pages_resolved (fuel : nat) :
  forall after (st : State W) r st1,
    scan_pages client cfg fuel after st = (r, st1) -> resolved st r st1.
Proof.
  induction fuel as [| fuel IH]; intros after st r st1; simpl.
  - unfold out_of_fuel. intros H; inversion H; subst.
    exists []. rewrite app_nil_r. repeat split; auto; discriminate.
  - unfold bind at 1. unfold remote at 1.
    destruct (vector_stores_list client 100 after (world st))
      as [[page | e] w'] eqn:E.
    + set (st0 := {| cache := cache st; world := w';
                     calls := calls st ++ [{| ev_call := CStoresList 100 after;
                                              ev_answer := Returned (no_ident page) |}] |}).
      intros H.
      apply (@resolved_log_step st st0 st1
               {| ev_call := CStoresList 100 after;
                  ev_answer := Returned (no_ident page) |} r);
        try reflexivity.
      destruct (find_store cfg (data page)) as [store |].
      * unfold bind, set_cache, ret in H. inversion H; subst.
        exists []. simpl. rewrite app_nil_r. repeat split; auto; discriminate.
      * destruct (negb (getattr_bool (has_more page) false)).
        -- apply create_store_resolved. exact H.
        -- destruct (negb (truthy_ostr (last_id page))).
           ++ apply create_store_resolved. exact H.
           ++ apply IH with (after := last_id page). exact H.
    + intros H; inversion H; subst.
      eexists. simpl. split; [reflexivity |].
      split; [repeat constructor |].
      unfold creations. simpl. repeat split; auto; discriminate.
Qed.

(** The fast path: a cached, non-empty identifier is returned without
    touching the state. *)
Lemma resolve_cached (fuel : nat) (st : State W) vsid :
  cache st = Some vsid -> truthy_str vsid = true ->
  _get_or_create_vector_store_id client cfg fuel st = (Ret vsid, st).
Proof.
  intros Hc Ht. unfold _get_or_create_vector_store_id, bind, get_cache.
  rewrite Hc. simpl. rewrite Ht. reflexivity.
Qed.

Lemma resolve_uncached (fuel : nat) (st : State W) :
  truthy_ostr (cache st) = false ->
  _get_or_create_vector_store_id client cfg fuel st = scan_pages client cfg fuel None st.
Proof.
  intros Hc. unfold _get_or_create_vector_store_id, bind, get_cache.
  rewrite Hc. cbv beta. rewrite Hc. reflexivity.
Qed.

Lemma resolve_resolved (fuel : nat) (st : State W) r st1 :
  _get_or_create_vector_store_id client cfg fuel st = (r, st1) -> resolved st r st1.
Proof.
  destruct (truthy_ostr (cache st)) eqn:Hc.
  - destruct (truthy_ostr_cached _ Hc) as [Hs Ht].
    rewrite (resolve_cached fuel st Hs Ht). intros H; inversion H; subst.
    exists []. rewrite app_nil_r. repeat split; auto; discriminate.
  - rewrite (resolve_uncached fuel st Hc). apply scan_pages_resolved.
Qed.

(** Everything the resolver sends is a list-collections or a
    create-collection call. *)
Lemma resolve_issues_store_calls (fuel : nat) (st : State W) r st1 :
  _get_or_create_vector_store_id client cfg fuel st = (r, st1) ->
  exists new, calls st1 = calls st ++ new
              /\ Forall (fun ev => is_store_call (ev_call ev) = true) new.
Proof.
  intros H. destruct (resolve_resolved fuel st H) as (new & Hn & Hall & _).
  exists new. split; assumption.
Qed.

Lemma resolve_all_cached (fuels : list nat) (st : State W) vsid :
  cache st = Some vsid -> truthy_str vsid = true ->
  resolve_all client cfg fuels st = (map (fun _ => Ret vsid) fuels, st).
Proof.
  intros Hc Ht. induction fuels as [| fuel fuels IH]; simpl.
  - reflexivity.
  - rewrite (resolve_cached fuel st Hc Ht), IH. reflexivity.
Qed.

Lemma resolve_all_creations (fuels : list nat) :
  forall (st : State W) rs st',
    resolve_all client cfg fuels st = (rs, st') ->
    exists new, calls st' = calls st ++ new /\ creations new <= 1.
Proof.
  induction fuels as [| fuel fuels IH]; intros st rs st'; simpl.
  - intros H; inversion H; subst. exists []. rewrite app_nil_r. auto.
  - destruct (_get_or_create_vector_store_id client cfg fuel st) as [r st1] eqn:E1.
    destruct (resolve_all client cfg fuels st1) as [rs' st2] eqn:E2.
    intros H; inversion H; subst; clear H.
    destruct (resolve_resolved fuel st E1) as (new1 & Hn1 & _ & Hle & Hset & _).
    destruct (Nat.eq_dec (creations new1) 1) as [Hone | Hzero].
    + destruct (truthy_ostr_cached _ (Hset Hone)) as [Hs Ht].
      rewrite (resolve_all_cached fuels st1 Hs Ht) in E2.
      inversion E2; subst. exists new1. split; [assumption | lia].
    + destruct (IH st1 rs' st' E2) as (new2 & Hn2 & Hle2).
      exists (new1 ++ new2). split.
      * rewrite Hn2, Hn1, app_assoc. reflexivity.
      * rewrite creations_app. lia.
Qed.

Lemma resolve_all_app (before after : list nat) :
  forall (st : State W),
    resolve_all client cfg (before ++ after) st
    = let (rs1, st1) := resolve_all client cfg before st in
      let (rs2, st2) := resolve_all client cfg after st1 in
      (rs1 ++ rs2, st2).
Proof.
  induction before as [| fuel before IH]; intros st; simpl.
  - destruct (resolve_all client cfg after st). reflexivity.
  - destruct (_get_or_create_vector_store_id client cfg fuel st) as [r st1].
    rewrite IH.
    destruct (resolve_all client cfg before st1) as [rs1 st2].
    destruct (resolve_all client cfg after st2). reflexivity.
Qed.
End Resolver.

(** C3 (as amended).  Over every run of [resolve()] calls: at most one
    create-collection call returns a non-empty identifier; a non-empty
    cached identifier is returned by every call and the state is left
    as it is; and from the first call that returns a non-empty
    identifier on, every later call returns that identifier and changes
    nothing - neither the cache, nor the remote state, nor the call log
    (so no further list or create call is sent). *)
Theorem resolver_memoizes :
  forall (W : Type) (client : Client W) (cfg : Config) (fuels : list nat)
         (st : State W) rs st',
    resolve_all client cfg fuels st = (rs, st') ->
    creations (events_since st st') <= 1
    /\ (forall vsid,
           cache st = Some vsid -> truthy_str vsid = true ->
           st' = st /\ rs = map (fun _ => Ret vsid) fuels)
    /\ (forall before fuel after rs1 st1 vsid st2,
           fuels = before ++ fuel :: after ->
           resolve_all client cfg before st = (rs1, st1) ->
           _get_or_create_vector_store_id client cfg fuel st1 = (Ret vsid, st2) ->
           truthy_str vsid = true ->
           cache st2 = Some vsid
           /\ st' = st2
           /\ rs = rs1 ++ Ret vsid :: map (fun _ => Ret vsid) after).
Proof.
  intros W client cfg fuels st rs st' H. split; [| split].
  - destruct (resolve_all_creations client cfg fuels st H) as (new & Hn & Hle).
    rewrite (events_since_app st st' new Hn). exact Hle.
  - intros vsid Hc Ht. rewrite (resolve_all_cached client cfg fuels st Hc Ht) in H.
    inversion H; subst. auto.
  - intros before fuel after rs1 st1 vsid st2 Hf Hb Hr Ht.
    destruct (resolve_resolved client cfg fuel st1 Hr) as (new & _ & _ & _ & _ & Hc).
    split; [exact Hc |].
    subst fuels. rewrite resolve_all_app, Hb in H. simpl in H. rewrite Hr in H.
    rewrite (resolve_all_cached client cfg after st2 Hc Ht) in H.
    inversion H; subst. auto.
Qed.

Lemma resolver_memoizes_witness :
  creations (events_since Stub.start
               (snd (resolve_all (Stub.client Stub.happy) Stub.cfg [3; 0; 0] Stub.start)))
  <= 1
  /\ snd (resolve_all (Stub.client Stub.happy) Stub.cfg [3; 0; 0] Stub.start)
     = snd (_get_or_create_vector_store_id (Stub.client Stub.happy) Stub.cfg 3 Stub.start)
  /\ fst (resolve_all (Stub.client Stub.happy) Stub.cfg [3; 0; 0] Stub.start)
     = [Ret "vs_1"; Ret "vs_1"; Ret "vs_1"].
Proof.
  pose proof (@resolver_memoizes _ (Stub.client Stub.happy) Stub.cfg [3; 0; 0]
                Stub.start _ _ eq_refl) as (Hone & _ & Hlater).
  split; [exact Hone |].
  destruct (Hlater [] 3 [0; 0] [] Stub.start "vs_1"
              (snd (_get_or_create_vector_store_id (Stub.client Stub.happy)
                      Stub.cfg 3 Stub.start))
              eq_refl eq_refl eq_refl eq_refl) as (_ & Hst & Hrs).
  split; [exact Hst | exact Hrs].
Defined.

(** C3, as stated, fails: a create-collection call that raises leaves
    the cache unset, and the next [resolve()] lists and creates again -
    two create-collection calls in one process. *)
Lemma resolver_two_create_calls :
  let run := resolve_all (Stub.client Stub.create_fails_once) Stub.cfg [3; 3]
                         Stub.start in
  fst run = [Raise (OtherError "503 service unavailable"); Ret "vs_1"]
  /\ create_calls (events_since Stub.start (snd run)) = 2.
Proof. vm_compute. split; reflexivity. Qed.

(* ------------------------------------------------------------------ *)
(** ** Semantic search *)

Lemma issued_since_app {W} (st st' : State W) (new : list Event) :
  calls st' = calls st ++ new -> issued_since st st' = map ev_call new.
Proof.
  intros H. unfold issued_since. rewrite (events_since_app st st' new H).
  reflexivity.
Qed.

Section Search.
Context {W : Type}.
Variable client : Client W.
Variable cfg : Config.

(** What [search_memory] does once the query is valid and the
    collection is resolved, by the reply to the first attempt. *)
Lemma search_memory_attempts query user_id session_id memory_type tags
      max_results rewrite_query return_full_items fuel
      (st : State W) vsid st1 r1 w1 :
  strip query <> EmptyString ->
  _get_or_create_vector_store_id client cfg fuel st = (Ret vsid, st1) ->
  let flt := _build_attribute_filter (Some user_id) session_id tags memory_type in
  let maxr := Z.max 1 (Z.min max_results 50) in
  let primary := CSearch filters_kw vsid query maxr rewrite_query flt in
  let alternate := CSearch attribute_filter_kw vsid query maxr rewrite_query flt in
  vector_stores_search client filters_kw vsid query maxr rewrite_query flt
                       (world st1) = (r1, w1) ->
  forall out st2,
    search_memory client cfg query user_id session_id memory_type tags
                  max_results rewrite_query return_full_items fuel st
    = (out, st2) ->
    cache st2 = cache st1 /\
    match r1 with
    | Ok _ =>
        calls st2 = calls st1 ++ [{| ev_call := primary; ev_answer := Returned None |}]
        /\ world st2 = w1
        /\ exists d, out = Ret d /\ tagged d
    | Err (TypeError msg) =>
        exists r2,
          fst (vector_stores_search client attribute_filter_kw vsid query maxr
                                    rewrite_query flt w1) = r2
          /\ world st2
             = snd (vector_stores_search client attribute_filter_kw vsid query
                                         maxr rewrite_query flt w1)
          /\ match r2 with
             | Ok _ =>
                 calls st2
                 = calls st1 ++ [{| ev_call := primary;
                                    ev_answer := Raised (TypeError msg) |};
                                 {| ev_call := alternate;
                                    ev_answer := Returned None |}]
                 /\ exists d, out = Ret d /\ tagged d
             | Err e =>
                 calls st2
                 = calls st1 ++ [{| ev_call := primary;
                                    ev_answer := Raised (TypeError msg) |};
                                 {| ev_call := alternate;
                                    ev_answer := Raised e |}]
                 /\ out = Raise e
             end
    | Err e =>
        calls st2 = calls st1 ++ [{| ev_call := primary; ev_answer := Raised e |}]
        /\ world st2 = w1
        /\ out = Raise e
    end.
Proof.
  intros Hq Hres flt maxr primary alternate Hprim out st2.
  unfold search_memory.
  apply truthy_str_true in Hq. rewrite Hq.
  change (negb true) with false. cbv iota.
  unfold bind at 1. cbv beta. rewrite Hres. cbv beta iota.
  fold flt. fold maxr.
  unfold bind at 1. unfold try_except at 1. unfold search_call at 1.
  unfold remote at 1. rewrite Hprim.
  destruct r1 as [res | e].
  - cbv beta iota.
    destruct return_full_items; unfold ret; intros H; inversion H; subst;
      simpl; (split; [reflexivity |]); (split; [reflexivity |]);
      (split; [reflexivity |]); eexists; (split; [reflexivity |]);
      exists "ok"; (split; [reflexivity | auto]).
  - cbv beta iota.
    destruct e as [msg | msg | msg].
    + unfold search_call, remote. cbn [world cache calls].
      destruct (vector_stores_search client attribute_filter_kw vsid query maxr
                                     rewrite_query flt w1) as [[res2 | e2] w2] eqn:E2.
      * destruct return_full_items; unfold ret; intros H; inversion H; subst;
          simpl; (split; [reflexivity |]); eexists; (split; [reflexivity |]);
          (split; [reflexivity |]);
          (split; [rewrite <- app_assoc; reflexivity |]);
          eexists; (split; [reflexivity |]);
          exists "ok"; (split; [reflexivity | auto]).
      * intros H; inversion H; subst. simpl.
        split; [reflexivity |]. eexists. split; [reflexivity |].
        split; [reflexivity |].
        split; [rewrite <- app_assoc; reflexivity | reflexivity].
    + intros H; inversion H; subst. simpl. auto.
    + intros H; inversion H; subst. simpl. auto.
Qed.
End Search.

(** C9.  In [search_memory], with a valid query and the collection
    resolved, the first attempt sends the filter as [filters]; the
    attempt under [attribute_filter] is made if and only if the first
    one raised a [TypeError]; any other failure of the first attempt is
    the outcome of the tool, unchanged, and no further call is sent. *)
Theorem search_fallback_on_type_error_only :
  forall (W : Type) (client : Client W) (cfg : Config)
         query user_id session_id memory_type tags max_results rewrite_query
         return_full_items fuel (st : State W) vsid st1 r1 w1 out st2,
    strip query <> EmptyString ->
    _get_or_create_vector_store_id client cfg fuel st = (Ret vsid, st1) ->
    let flt := _build_attribute_filter (Some user_id) session_id tags memory_type in
    let maxr := Z.max 1 (Z.min max_results 50) in
    let primary := CSearch filters_kw vsid query maxr rewrite_query flt in
    let alternate := CSearch attribute_filter_kw vsid query maxr rewrite_query flt in
    vector_stores_search client filters_kw vsid query maxr rewrite_query flt
                         (world st1) = (r1, w1) ->
    search_memory client cfg query user_id session_id memory_type tags
                  max_results rewrite_query return_full_items fuel st
    = (out, st2) ->
    (exists rest, issued_since st1 st2 = primary :: rest)
    /\ (In alternate (issued_since st1 st2) <-> exists msg, r1 = Err (TypeError msg))
    /\ (forall e, r1 = Err e -> (forall msg, e <> TypeError msg) ->
                  out = Raise e /\ issued_since st1 st2 = [primary]
                  /\ world st2 = w1 /\ cache st2 = cache st1).
Proof.
  intros W client cfg query user_id session_id memory_type tags max_results
         rewrite_query return_full_items fuel st vsid st1 r1 w1 out st2
         Hq Hres flt maxr primary alternate Hprim Hrun.
  destruct (search_memory_attempts client cfg query user_id session_id
              memory_type tags max_results rewrite_query return_full_items
              fuel st Hq Hres Hprim Hrun) as [Hcache Hcases].
  fold flt maxr primary alternate in Hcases.
  assert (Hne : primary <> alternate) by (unfold primary, alternate; discriminate).
  destruct r1 as [res | e].
  - destruct Hcases as (Hc & Hw & _).
    rewrite (issued_since_app st1 st2 _ Hc). simpl.
    split; [eexists; reflexivity |]. split.
    + split.
      * intros [H | []]. contradiction.
      * intros [msg H]. discriminate H.
    + intros e H. discriminate H.
  - destruct e as [msg | msg | msg].
    + destruct Hcases as (r2 & _ & _ & Hc).
      assert (Hiss : issued_since st1 st2 = [primary; alternate]).
      { destruct r2; destruct Hc as [Hc _];
          rewrite (issued_since_app st1 st2 _ Hc); reflexivity. }
      rewrite Hiss. split; [eexists; reflexivity |]. split.
      * split; [intros _; eexists; reflexivity | intros _; simpl; auto].
      * intros e H Hno. inversion H; subst. exfalso. apply (Hno msg). reflexivity.
    + destruct Hcases as (Hc & Hw & Ho).
      rewrite (issued_since_app st1 st2 _ Hc). simpl.
      split; [eexists; reflexivity |]. split.
      * split.
        -- intros [H | []]. contradiction.
        -- intros [m H]. discriminate H.
      * intros e H _. inversion H; subst. auto.
    + destruct Hcases as (Hc & Hw & Ho).
      rewrite (issued_since_app st1 st2 _ Hc). simpl.
      split; [eexists; reflexivity |]. split.
      * split.
        -- intros [H | []]. contradiction.
        -- intros [m H]. discriminate H.
      * intros e H _. inversion H; subst. auto.
Qed.

Lemma search_fallback_on_type_error_only_witness :
  let client := Stub.client Stub.old_sdk in
  let st1 := snd (_get_or_create_vector_store_id client Stub.cfg 3 Stub.start) in
  let st2 := snd (search_memory client Stub.cfg "dark mode" "u1" None None None
                                3%Z true false 3 Stub.start) in
  let flt := Some (eq_leaf "user_id" "u1") in
  In (CSearch attribute_filter_kw "vs_1" "dark mode" 3%Z true flt)
     (issued_since st1 st2)
  <-> exists msg,
      @Err SearchResults (TypeError "unexpected keyword argument 'filters'")
      = Err (TypeError msg).
Proof.
  refine (proj1 (proj2
    (@search_fallback_on_type_error_only _ (Stub.client Stub.old_sdk) Stub.cfg
       "dark mode" "u1" None None None 3%Z true false 3 Stub.start
       "vs_1" _ (Err (TypeError "unexpected keyword argument 'filters'")) _ _ _
       _ eq_refl eq_refl eq_refl))).
  vm_compute. discriminate.
Defined.

(** C10.  A [search_memory] request that leaves out [user_id] (and the
    other filter arguments) sends, in every search call it makes, the
    single leaf [{type: eq, key: user_id, value: default}] and never a
    null filter; in general every search call of a request carries the
    filter built from its arguments with [user_id] defaulting to
    ["default"], and that filter is null only when the caller passed an
    empty [user_id] explicitly. *)
Theorem search_default_user_filter :
  forall (W : Type) (client : Client W) (cfg : Config) (q : search_request)
         fuel (st : State W) out st2,
    strip (q_query q) <> EmptyString ->
    call_search_memory client cfg q fuel st = (out, st2) ->
    (forall kw vsid query maxr rw flt,
        In (CSearch kw vsid query maxr rw flt) (issued_since st st2) ->
        flt = _build_attribute_filter
                (Some (match q_user_id q with Some u => u | None => "default" end))
                (q_session_id q) (q_tags q) (q_memory_type q)
        /\ (flt = None -> q_user_id q = Some EmptyString)
        /\ (q_user_id q = None -> q_session_id q = None ->
            q_memory_type q = None -> q_tags q = None ->
            flt = Some (VDict [("type", VStr "eq"); ("key", VStr "user_id");
                               ("value", VStr "default")])))
    /\ (q_user_id q = None -> q_session_id q = None ->
        q_memory_type q = None -> q_tags q = None ->
        _build_attribute_filter
          (Some (match q_user_id q with Some u => u | None => "default" end))
          (q_session_id q) (q_tags q) (q_memory_type q)
        = Some (VDict [("type", VStr "eq"); ("key", VStr "user_id");
                       ("value", VStr "default")]))
    /\ (forall vsid st1,
           _get_or_create_vector_store_id client cfg fuel st = (Ret vsid, st1) ->
           exists rest,
             issued_since st1 st2
             = CSearch filters_kw vsid (q_query q)
                       (Z.max 1 (Z.min (match q_max_results q with Some m => m | None => 8%Z end) 50))
                       (match q_rewrite_query q with Some b => b | None => true end)
                       (_build_attribute_filter
                          (Some (match q_user_id q with Some u => u | None => "default" end))
                          (q_session_id q) (q_tags q) (q_memory_type q))
               :: rest).
Proof.
  intros W client cfg q fuel st out st2 Hq Hrun.
  unfold call_search_memory, with_default in Hrun.
  set (flt0 := _build_attribute_filter
                 (Some (match q_user_id q with Some u => u | None => "default" end))
                 (q_session_id q) (q_tags q) (q_memory_type q)).
  assert (Hnull : flt0 = None -> q_user_id q = Some EmptyString).
  { unfold flt0, _build_attribute_filter.
    destruct (q_user_id q) as [u |]; simpl.
    - destruct (truthy_str u) eqn:Hu.
      + destruct (q_session_id q) as [s |]; [destruct (truthy_str s) |];
          (destruct (q_memory_type q) as [t |]; [destruct (truthy_str t) |]);
          (destruct (q_tags q) as [[| g gs] |]); simpl; discriminate.
      + apply truthy_str_false in Hu. subst u. reflexivity.
    - destruct (q_session_id q) as [s |]; [destruct (truthy_str s) |];
        (destruct (q_memory_type q) as [t |]; [destruct (truthy_str t) |]);
        (destruct (q_tags q) as [[| g gs] |]); simpl; discriminate. }
  split; [| split].
  - intros kw vsid query maxr rw flt Hin.
    assert (Hthis : flt = flt0);
      [| split; [exact Hthis | split; [subst flt; exact Hnull |]];
         intros Hu Hs Ht Hg; rewrite Hthis; unfold flt0;
         rewrite Hu, Hs, Ht, Hg; reflexivity].
    destruct (_get_or_create_vector_store_id client cfg fuel st) as [r st1] eqn:Hres.
    destruct (resolve_issues_store_calls client cfg fuel st Hres) as (new & Hnew & Hall).
    destruct r as [vsid1 | e |].
    + destruct (vector_stores_search client filters_kw vsid1 (q_query q)
                  (Z.max 1 (Z.min (match q_max_results q with Some m => m | None => 8%Z end) 50))
                  (match q_rewrite_query q with Some b => b | None => true end) flt0 (world st1))
        as [r1 w1] eqn:Hprim.
      destruct (search_memory_attempts client cfg (q_query q) _ _ _ _ _ _ _
                  fuel st Hq Hres Hprim Hrun) as [_ Hcases].
      assert (Hlog : exists evs,
                 calls st2 = calls st1 ++ evs
                 /\ Forall (fun ev => forall kw vsid query maxr rw flt,
                                ev_call ev = CSearch kw vsid query maxr rw flt ->
                                flt = flt0) evs).
      { destruct r1 as [res | [msg | msg | msg]].
        - destruct Hcases as (Hc & _). eexists. split; [exact Hc |].
          repeat constructor. simpl. intros. inversion H. reflexivity.
        - destruct Hcases as (r2 & _ & _ & Hc).
          destruct r2; destruct Hc as [Hc _]; eexists; (split; [exact Hc |]);
            repeat constructor; simpl; intros; inversion H; reflexivity.
        - destruct Hcases as (Hc & _). eexists. split; [exact Hc |].
          repeat constructor. simpl. intros. inversion H. reflexivity.
        - destruct Hcases as (Hc & _). eexists. split; [exact Hc |].
          repeat constructor. simpl. intros. inversion H. reflexivity. }
      destruct Hlog as (evs & Hevs & Hflt).
      assert (Hiss : issued_since st st2 = map ev_call (new ++ evs)).
      { apply issued_since_app. rewrite Hevs, Hnew, app_assoc. reflexivity. }
      rewrite Hiss, map_app in Hin. apply in_app_or in Hin.
      destruct Hin as [Hin | Hin]; apply in_map_iff in Hin;
        destruct Hin as (ev & Hev & Hin).
      * rewrite Forall_forall in Hall. specialize (Hall ev Hin).
        rewrite Hev in Hall. discriminate Hall.
      * rewrite Forall_forall in Hflt. exact (Hflt ev Hin _ _ _ _ _ _ Hev).
    + exfalso.
      unfold search_memory in Hrun. apply truthy_str_true in Hq. rewrite Hq in Hrun.
      change (negb true) with false in Hrun. cbv iota in Hrun.
      unfold bind at 1 in Hrun. rewrite Hres in Hrun. inversion Hrun; subst.
      rewrite (issued_since_app st st2 new Hnew) in Hin.
      apply in_map_iff in Hin. destruct Hin as (ev & Hev & Hin).
      rewrite Forall_forall in Hall. specialize (Hall ev Hin).
      rewrite Hev in Hall. discriminate Hall.
    + exfalso.
      unfold search_memory in Hrun. apply truthy_str_true in Hq. rewrite Hq in Hrun.
      change (negb true) with false in Hrun. cbv iota in Hrun.
      unfold bind at 1 in Hrun. rewrite Hres in Hrun. inversion Hrun; subst.
      rewrite (issued_since_app st st2 new Hnew) in Hin.
      apply in_map_iff in Hin. destruct Hin as (ev & Hev & Hin).
      rewrite Forall_forall in Hall. specialize (Hall ev Hin).
      rewrite Hev in Hall. discriminate Hall.
  - intros Hu Hs Ht Hg. unfold flt0. rewrite Hu, Hs, Ht, Hg. reflexivity.
  - intros vsid st1 Hres.
    destruct (vector_stores_search client filters_kw vsid (q_query q)
                (Z.max 1 (Z.min (match q_max_results q with Some m => m | None => 8%Z end) 50))
                (match q_rewrite_query q with Some b => b | None => true end) flt0 (world st1))
      as [r1 w1] eqn:Hprim.
    destruct (search_memory_attempts client cfg (q_query q) _ _ _ _ _ _ _
                fuel st Hq Hres Hprim Hrun) as [_ Hcases].
    destruct r1 as [res | [msg | msg | msg]].
    + destruct Hcases as (Hc & _).
      rewrite (issued_since_app st1 st2 _ Hc). eexists. reflexivity.
    + destruct Hcases as (r2 & _ & _ & Hc).
      destruct r2; destruct Hc as [Hc _];
        rewrite (issued_since_app st1 st2 _ Hc); eexists; reflexivity.
    + destruct Hcases as (Hc & _).
      rewrite (issued_since_app st1 st2 _ Hc). eexists. reflexivity.
    + destruct Hcases as (Hc & _).
      rewrite (issued_since_app st1 st2 _ Hc). eexists. reflexivity.
Qed.

Lemma search_default_user_filter_witness :
  let client := Stub.client Stub.happy in
  let st1 := snd (_get_or_create_vector_store_id client Stub.cfg 3 Stub.start) in
  let st2 := snd (call_search_memory client Stub.cfg (Stub.request "dark mode")
                                     3 Stub.start) in
  exists rest,
    issued_since st1 st2
    = CSearch filters_kw "vs_1" "dark mode" 8%Z true
              (Some (VDict [("type", VStr "eq"); ("key", VStr "user_id");
                            ("value", VStr "default")])) :: rest.
Proof.
  refine (proj2 (proj2
    (@search_default_user_filter _ (Stub.client Stub.happy) Stub.cfg
       (Stub.request "dark mode") 3 Stub.start _ _ _ eq_refl)) "vs_1" _ eq_refl).
  vm_compute. discriminate.
Defined.

(* ------------------------------------------------------------------ *)
(** ** The memory writer *)

Section Save.
Context {W : Type}.
Variable client : Client W.
Variable cfg : Config.
Variable sha256_hex : string -> string.

(** [save_memory] on a valid text, once the collection is resolved:
    the two phases. *)
Lemma save_memory_phases memory user_id session_id memory_type tags
      redact_secrets fuel (st : State W) vsid st1 :
  strip memory <> EmptyString -> (len memory <= MAX_MEMORY_CHARS cfg)%Z ->
  _get_or_create_vector_store_id client cfg fuel st = (Ret vsid, st1) ->
  let cleaned := cleaned_text cfg memory redact_secrets in
  let filename := memory_filename user_id (time_time client (world st1)) in
  let upload := CUpload vsid cleaned filename in
  save_memory client cfg sha256_hex memory user_id session_id memory_type
              tags redact_secrets fuel st
  = match files_upload_and_poll client vsid cleaned filename (world st1) with
    | (Err e, w2) =>
        (Ret [("status", VStr "error"); ("error", VStr (str_exn e))],
         {| cache := cache st1; world := w2;
            calls := calls st1 ++ [{| ev_call := upload; ev_answer := Raised e |}] |})
    | (Ok file_id, w2) =>
        let attributes :=
          memory_attributes user_id memory_type (utc_now_iso client w2)
                            (sha256_hex cleaned)
                            (redaction_flag cfg redact_secrets) session_id tags in
        let update := CUpdate vsid file_id attributes in
        match files_update client vsid file_id attributes w2 with
        | (Err e, w3) =>
            (Ret [("status", VStr "error"); ("error", VStr (str_exn e))],
             {| cache := cache st1; world := w3;
                calls := calls st1
                         ++ [{| ev_call := upload; ev_answer := Returned (Some file_id) |};
                             {| ev_call := update; ev_answer := Raised e |}] |})
        | (Ok _, w3) =>
            (Ret [("status", VStr "saved");
                  ("vector_store_id", VStr vsid);
                  ("file_id", VStr file_id);
                  ("sha256", VStr (sha256_hex cleaned));
                  ("attributes", VDict attributes)],
             {| cache := cache st1; world := w3;
                calls := calls st1
                         ++ [{| ev_call := upload; ev_answer := Returned (Some file_id) |};
                             {| ev_call := update; ev_answer := Returned None |}] |})
        end
    end.
Proof.
  intros Hm Hlen Hres cleaned filename upload.
  unfold save_memory.
  apply truthy_str_true in Hm. rewrite Hm.
  change (negb true) with false. cbv iota.
  assert (Hgt : (len memory >? MAX_MEMORY_CHARS cfg)%Z = false).
  { destruct (len memory >? MAX_MEMORY_CHARS cfg)%Z eqn:E; [| reflexivity].
    apply Z.gtb_gt in E. lia. }
  rewrite Hgt.
  unfold bind at 1. cbv beta. rewrite Hres. cbv beta iota.
  unfold bind at 1. unfold read at 1. cbv beta iota.
  fold (redaction_flag cfg redact_secrets). fold (cleaned_text cfg memory redact_secrets).
  fold cleaned. fold filename.
  unfold try_except, bind, _upload_text_as_file_to_vector_store,
    _update_vector_store_file_attributes, _utc_now_iso, _sha256_text,
    read, remote, ret.
  destruct (files_upload_and_poll client vsid cleaned filename (world st1))
    as [[file_id | e] w2]; cbn [world cache calls]; [| reflexivity].
  destruct (files_update client vsid file_id
              (memory_attributes user_id memory_type (utc_now_iso client w2)
                 (sha256_hex cleaned) (redaction_flag cfg redact_secrets)
                 session_id tags) w2) as [[[] | e] w3];
    cbn [world cache calls]; rewrite <- app_assoc; reflexivity.
Qed.
End Save.

(** C2 (as amended).  When the upload of a valid memory succeeds with
    [file_id] and the attribute update then fails with [e], [save_memory]
    returns exactly the mapping [status = error], [error = str(e)]: the
    payload has no [file_id] entry, and it is the same mapping a failed
    upload with the same message produces. *)
Theorem save_partial_write_error :
  forall (W : Type) (client : Client W) (cfg : Config)
         (sha256_hex : string -> string)
         memory user_id session_id memory_type tags redact_secrets fuel
         (st : State W) vsid st1 file_id w2 e w3,
    strip memory <> EmptyString -> (len memory <= MAX_MEMORY_CHARS cfg)%Z ->
    _get_or_create_vector_store_id client cfg fuel st = (Ret vsid, st1) ->
    let cleaned := cleaned_text cfg memory redact_secrets in
    let filename := memory_filename user_id (time_time client (world st1)) in
    files_upload_and_poll client vsid cleaned filename (world st1)
    = (Ok file_id, w2) ->
    files_update client vsid file_id
                 (memory_attributes user_id memory_type (utc_now_iso client w2)
                                    (sha256_hex cleaned)
                                    (redaction_flag cfg redact_secrets)
                                    session_id tags) w2
    = (Err e, w3) ->
    exists d st2,
      save_memory client cfg sha256_hex memory user_id session_id memory_type
                  tags redact_secrets fuel st = (Ret d, st2)
      /\ d = [("status", VStr "error"); ("error", VStr (str_exn e))]
      /\ dict_get d "file_id" = None
      /\ world st2 = w3
      /\ issued_since st1 st2
         = [CUpload vsid cleaned filename;
            CUpdate vsid file_id
                    (memory_attributes user_id memory_type (utc_now_iso client w2)
                                       (sha256_hex cleaned)
                                       (redaction_flag cfg redact_secrets)
                                       session_id tags)].
Proof.
  intros W client cfg sha memory user_id session_id memory_type tags redact fuel
         st vsid st1 file_id w2 e w3 Hm Hlen Hres cleaned filename Hup Hupd.
  rewrite (save_memory_phases client cfg sha memory user_id session_id
             memory_type tags redact fuel st Hm Hlen Hres).
  fold cleaned filename. rewrite Hup. cbv zeta. rewrite Hupd.
  eexists. eexists. split; [reflexivity |].
  split; [reflexivity |]. split; [reflexivity |]. split; [reflexivity |].
  erewrite issued_since_app by reflexivity. reflexivity.
Qed.

Lemma save_partial_write_error_witness :
  exists d st2,
    save_memory (Stub.client Stub.update_fails) Stub.cfg Stub.sha
                "Prefers dark mode" "u1" None "preference" None None 3 Stub.start
    = (Ret d, st2)
    /\ d = [("status", VStr "error"); ("error", VStr "attributes rejected")]
    /\ dict_get d "file_id" = None.
Proof.
  destruct (@save_partial_write_error _ (Stub.client Stub.update_fails) Stub.cfg
              Stub.sha "Prefers dark mode" "u1" None "preference" None None 3
              Stub.start "vs_1" _ "file_1" _ (OtherError "attributes rejected") _
              ltac:(vm_compute; discriminate) ltac:(vm_compute; discriminate)
              eq_refl eq_refl eq_refl)
    as (d & st2 & Hrun & Hd & Hno & _).
  exists d, st2. repeat split; assumption.
Defined.

(** C2, as stated, fails: the upload returned [file_1], the attribute
    update failed, and the error mapping of [save_memory] has only
    [status] and [error]. *)
Lemma save_error_omits_file_id :
  let run := save_memory (Stub.client Stub.update_fails) Stub.cfg Stub.sha
                         "Prefers dark mode" "u1" None "preference" None None
                         3 Stub.start in
  fst run = Ret [("status", VStr "error"); ("error", VStr "attributes rejected")]
  /\ In {| ev_call := CUpload "vs_1" "Prefers dark mode" "memory_u1_1700000002.txt";
           ev_answer := Returned (Some "file_1") |} (calls (snd run))
  /\ (forall d, fst run = Ret d -> dict_get d "file_id" = None).
Proof.
  vm_compute. split; [reflexivity |]. split.
  - right. right. left. reflexivity.
  - intros d H. inversion H. reflexivity.
Qed.

(* ------------------------------------------------------------------ *)
(** ** Catalog and retrieval *)





(** The test and the entry of the loop of [list_memories] are the
    predicate and the entry of the specification. *)
Lemma skipped_spec (user_id : option string) (detail : FileDetail) :
  negb (skipped user_id (attrs_of detail)) = passes_user_filter user_id detail.
Proof.
  assert (Ho : dict_get (attrs_of detail) "user_id" = owner_of detail).
  { unfold attrs_of, owner_of.
    destruct (fd_attributes detail) as [[| kv attrs] |]; reflexivity. }
  unfold skipped, passes_user_filter. rewrite Ho.
  destruct user_id as [[| c wanted] |]; try reflexivity.
  cbn [truthy_ostr truthy_str ostr_value String.eqb negb andb].
  rewrite negb_involutive. unfold py_eq_str.
  destruct (owner_of detail) as [[| | | owner | |] |]; reflexivity.
Qed.

Lemma listed_item_spec (detail : FileDetail) :
  listed_item detail (attrs_of detail) = listing_entry detail.
Proof.
  unfold listed_item, listing_entry, attrs_of, opt_int, opt_str.
  destruct (fd_attributes detail) as [[| kv attrs] |]; reflexivity.
Qed.

Lemma kept_items_code (user_id : option string) (details : list FileDetail) :
  kept_items user_id details
  = map (fun d => listed_item d (attrs_of d))
        (filter (fun d => negb (skipped user_id (attrs_of d))) details).
Proof.
  unfold kept_items.
  induction details as [| d details IH]; [reflexivity |].
  cbn [filter]. rewrite skipped_spec.
  destruct (passes_user_filter user_id d); cbn [map];
    rewrite ?listed_item_spec, IH; reflexivity.
Qed.

Section Listing.
Context {W : Type}.
Variable client : Client W.
Variable cfg : Config.

(** The items the loop of [list_memories] appends for a list of
    fetched documents. *)
Lemma collect_items_retrieved vsid user_id files :
  forall items (st : State W) details w2,
    retrieved client vsid files (world st) details w2 ->
    collect_items client vsid user_id files items st
    = (Ret (items ++ kept_items user_id details),
       {| cache := cache st; world := w2;
          calls := calls st ++ retrieve_events vsid files |}).
Proof.
  induction files as [| f files IH]; intros items st details w2 Hr;
    inversion Hr as [| f0 fs w detail w1 ds w2' Hd Hrest]; subst;
    rewrite kept_items_code; simpl.
  - unfold ret. rewrite !app_nil_r. destruct st; reflexivity.
  - unfold bind at 1. unfold remote at 1. rewrite Hd. cbv beta iota.
    destruct (skipped user_id (attrs_of detail)) eqn:Hs; simpl.
    + erewrite IH by (simpl; eassumption). simpl.
      rewrite kept_items_code, <- app_assoc. reflexivity.
    + erewrite IH by (simpl; eassumption). simpl.
      rewrite kept_items_code, <- !app_assoc. reflexivity.
Qed.

Lemma collect_items_returns vsid user_id files :
  forall items (st : State W) out st',
    collect_items client vsid user_id files items st = (Ret out, st') ->
    exists details,
      retrieved client vsid files (world st) details (world st')
      /\ out = items ++ kept_items user_id details.
Proof.
  induction files as [| f files IH]; intros items st out st'; simpl.
  - unfold ret. intros H; inversion H; subst.
    exists []. split; [constructor | unfold kept_items; simpl; now rewrite app_nil_r].
  - unfold bind at 1. unfold remote at 1.
    destruct (files_retrieve client vsid (file_ref_id f) (world st))
      as [[detail | e] w1] eqn:E; [| discriminate].
    destruct (skipped user_id (attrs_of detail)) eqn:Hs; intros H;
      apply IH in H; destruct H as (details & Hr & Hout); simpl in Hr;
      exists (detail :: details);
      (split; [econstructor; eassumption |]);
      rewrite kept_items_code in *; simpl; rewrite Hs; simpl.
    + exact Hout.
    + rewrite Hout, <- app_assoc. reflexivity.
Qed.

Lemma retrieved_length vsid files :
  forall (w : W) details w2,
    retrieved client vsid files w details w2 -> length details = length files.
Proof.
  induction files; intros w details w2 H; inversion H; subst; simpl;
    [reflexivity | f_equal; eauto].
Qed.

Lemma kept_items_none wanted details :
  wanted <> EmptyString -> none_of_user wanted details ->
  kept_items (Some wanted) details = [].
Proof.
  intros Hw Hn. unfold kept_items.
  induction Hn as [| detail details Hd _ IH]; [reflexivity |].
  cbn [filter].
  assert (Hp : passes_user_filter (Some wanted) detail = false).
  { unfold passes_user_filter.
    destruct wanted as [| c wanted]; [contradiction |].
    destruct (owner_of detail) as [[| | | owner | |] |]; try reflexivity.
    destruct (String.eqb_spec owner (String c wanted)) as [-> | _];
      [exfalso; apply Hd; reflexivity | reflexivity]. }
  rewrite Hp. exact IH.
Qed.
End Listing.

(** C4.  [list_memories], once the collection is resolved and the page
    is listed, returns exactly when every per-document fetch succeeds;
    its [items] are the entries of the fetched documents that pass the
    client-side test - all of them when no [user_id] is asked for,
    otherwise those whose [attributes.user_id] is the requested string -
    in page order, [count] is their number, while [has_more] and
    [last_id] are those of the unfiltered remote page, which was fetched
    one document at a time in full.  In particular, when a non-empty
    [user_id] is asked for and no fetched document carries it, [count]
    is 0 and [items] is empty, whatever the size of the page. *)
Theorem list_filters_after_fetch :
  forall (W : Type) (client : Client W) (cfg : Config)
         user_id limit status_filter fuel (st : State W) vsid st1 page w1,
    _get_or_create_vector_store_id client cfg fuel st = (Ret vsid, st1) ->
    files_list client vsid (Z.max 1 (Z.min limit 100)) status_filter (world st1)
    = (Ok page, w1) ->
    (forall details w2,
        retrieved client vsid (data page) w1 details w2 ->
        exists d st2,
          list_memories client cfg user_id limit status_filter fuel st = (Ret d, st2)
          /\ listing_of user_id page details d
          /\ (forall wanted,
                 user_id = Some wanted -> wanted <> EmptyString ->
                 none_of_user wanted details ->
                 dict_get d "count" = Some (VInt 0)
                 /\ dict_get d "items" = Some (VList [])))
    /\ (forall d st2,
           list_memories client cfg user_id limit status_filter fuel st = (Ret d, st2) ->
           exists details,
             retrieved client vsid (data page) w1 details (world st2)
             /\ length details = length (data page)
             /\ listing_of user_id page details d).
Proof.
  intros W client cfg user_id limit status_filter fuel st vsid st1 page w1
         Hres Hlist.
  assert (Hunf :
            list_memories client cfg user_id limit status_filter fuel st
            = match collect_items client vsid user_id (data page) []
                      {| cache := cache st1; world := w1;
                         calls := calls st1
                                  ++ [{| ev_call := CFilesList vsid (Z.max 1 (Z.min limit 100))
                                                               status_filter;
                                         ev_answer := Returned None |}] |} with
              | (Ret items, st2) =>
                  (Ret [("status", VStr "ok");
                        ("vector_store_id", VStr vsid);
                        ("count", VInt (Z.of_nat (length items)));
                        ("items", VList items);
                        ("has_more", VBool (getattr_bool (has_more page) false));
                        ("last_id", opt_str (last_id page))], st2)
              | (Raise e, st2) => (Raise e, st2)
              | (OutOfFuel, st2) => (OutOfFuel, st2)
              end).
  { unfold list_memories.
    unfold bind at 1. cbv beta. rewrite Hres. cbv beta iota.
    unfold bind at 1. unfold remote at 1. rewrite Hlist. cbv beta iota.
    unfold bind at 1. unfold no_ident. reflexivity. }
  assert (Hshape : forall details vs,
             listing_of user_id page details
               [("status", VStr "ok");
                ("vector_store_id", VStr vs);
                ("count", VInt (Z.of_nat (length (kept_items user_id details))));
                ("items", VList (kept_items user_id details));
                ("has_more", VBool (getattr_bool (has_more page) false));
                ("last_id", opt_str (last_id page))]).
  { intros details vs. unfold listing_of, getattr_bool, opt_str.
    repeat split. }
  split.
  - intros details w2 Hr.
    erewrite collect_items_retrieved in Hunf by (simpl; exact Hr).
    simpl in Hunf. eexists. eexists. split; [exact Hunf |].
    split; [apply Hshape |].
    intros wanted -> Hw Hn. simpl. rewrite (kept_items_none Hw Hn). auto.
  - intros d st2 Hrun. rewrite Hunf in Hrun. clear Hunf.
    destruct (collect_items client vsid user_id (data page) [] _)
      as [[items | e |] st3] eqn:Hc; inversion Hrun; subst; clear Hrun.
    apply collect_items_returns in Hc. destruct Hc as (details & Hr & Hitems).
    simpl in Hr, Hitems. subst items.
    exists details. split; [exact Hr |].
    split; [eapply retrieved_length; exact Hr |].
    apply Hshape.
Qed.

Lemma list_filters_after_fetch_witness :
  (exists d st2,
      list_memories (Stub.client Stub.two_users) Stub.cfg (Some "u2") 500%Z
                    (Some "completed") 3 Stub.start = (Ret d, st2)
      /\ dict_get d "count" = Some (VInt 1)
      /\ dict_get d "items"
         = Some (VList [VDict [("file_id", VStr "file_2");
                               ("created_at", VInt 1700000000);
                               ("status", VStr "completed");
                               ("attributes", VDict [("user_id", VStr "u2")])]])
      /\ dict_get d "has_more" = Some (VBool true)
      /\ dict_get d "last_id" = Some (VStr "file_2"))
  /\ (exists d st2,
         list_memories (Stub.client Stub.two_users) Stub.cfg (Some "u3") 500%Z
                       (Some "completed") 3 Stub.start = (Ret d, st2)
         /\ dict_get d "count" = Some (VInt 0)
         /\ dict_get d "items" = Some (VList [])
         /\ dict_get d "has_more" = Some (VBool true)
         /\ dict_get d "last_id" = Some (VStr "file_2")).
Proof.
  assert (Hfetch : retrieved (Stub.client Stub.two_users) "vs_1"
                             [{| file_ref_id := "file_1" |};
                              {| file_ref_id := "file_2" |}] 3
                             [Stub.detail_of "u1" "file_1";
                              Stub.detail_of "u2" "file_2"] 5).
  { apply retrieved_cons with (w1 := 4); [reflexivity |].
    apply retrieved_cons with (w1 := 5); [reflexivity |].
    apply retrieved_nil. }
  split.
  - destruct (proj1 (@list_filters_after_fetch _ (Stub.client Stub.two_users)
                       Stub.cfg (Some "u2") 500%Z (Some "completed") 3 Stub.start
                       "vs_1" _ _ _ eq_refl eq_refl) _ _ Hfetch)
      as (d & st2 & Hrun & (_ & Hitems & Hcount & Hmore & Hlast) & _).
    exists d, st2. repeat split; assumption.
  - destruct (proj1 (@list_filters_after_fetch _ (Stub.client Stub.two_users)
                       Stub.cfg (Some "u3") 500%Z (Some "completed") 3 Stub.start
                       "vs_1" _ _ _ eq_refl eq_refl) _ _ Hfetch)
      as (d & st2 & Hrun & (_ & _ & _ & Hmore & Hlast) & Hzero).
    destruct (Hzero "u3" eq_refl) as [Hc Hi].
    + discriminate.
    + repeat constructor; discriminate.
    + exists d, st2. repeat split; assumption.
Defined.

(* ------------------------------------------------------------------ *)
(** ** The tool boundary *)

Section Boundary.
Context {W : Type}.
Variable client : Client W.
Variable cfg : Config.
Variable sha256_hex : string -> string.









(** A failure of the resolver is the outcome of the tool. *)
Lemma resolver_failure_propagates fuel (st : State W) e st1 :
  _get_or_create_vector_store_id client cfg fuel st = (Raise e, st1) ->
  (forall memory user_id session_id memory_type tags redact_secrets,
      strip memory <> EmptyString -> (len memory <= MAX_MEMORY_CHARS cfg)%Z ->
      save_memory client cfg sha256_hex memory user_id session_id memory_type
                  tags redact_secrets fuel st = (Raise e, st1))
  /\ (forall query user_id session_id memory_type tags max_results
             rewrite_query return_full_items,
         strip query <> EmptyString ->
         search_memory client cfg query user_id session_id memory_type tags
                       max_results rewrite_query return_full_items fuel st
         = (Raise e, st1))
  /\ (forall user_id limit status_filter,
         list_memories client cfg user_id limit status_filter fuel st
         = (Raise e, st1))
  /\ (forall file_id, get_memory_content client cfg file_id fuel st = (Raise e, st1))
  /\ (forall file_id, delete_memory client cfg file_id fuel st = (Raise e, st1)).
Proof.
  intros Hres. repeat split.
  - intros memory user_id session_id memory_type tags redact Hm Hlen.
    unfold save_memory. apply truthy_str_true in Hm. rewrite Hm.
    change (negb true) with false. cbv iota.
    assert (Hgt : (len memory >? MAX_MEMORY_CHARS cfg)%Z = false).
    { destruct (len memory >? MAX_MEMORY_CHARS cfg)%Z eqn:E; [| reflexivity].
      apply Z.gtb_gt in E. lia. }
    rewrite Hgt. unfold bind at 1. cbv beta. rewrite Hres. reflexivity.
  - intros query user_id session_id memory_type tags max_results rw full Hq.
    unfold search_memory. apply truthy_str_true in Hq. rewrite Hq.
    change (negb true) with false. cbv iota.
    unfold bind at 1. cbv beta. rewrite Hres. reflexivity.
  - intros. unfold list_memories. unfold bind at 1. cbv beta.
    rewrite Hres. reflexivity.
  - intros. unfold get_memory_content. unfold bind at 1. cbv beta.
    rewrite Hres. reflexivity.
  - intros. unfold delete_memory. unfold bind at 1. cbv beta.
    rewrite Hres. reflexivity.
Qed.
End Boundary.




(* ------------------------------------------------------------------ *)
(** ** More on the collection resolver *)

Lemma cache_unset_falsy {W} (st : State W) :
  cache_unset st <-> truthy_ostr (cache st) = false.
Proof.
  unfold cache_unset. destruct (cache st) as [[| c s] |]; simpl; split; intros H.
  - reflexivity.
  - right. reflexivity.
  - destruct H as [H | H]; discriminate H.
  - discriminate H.
  - reflexivity.
  - left. reflexivity.
Qed.

Lemma truthy_ostr_some (o : option string) :
  truthy_ostr o = true <-> exists s, o = Some s /\ s <> EmptyString.
Proof.
  destruct o as [[| c s] |]; simpl; split; intros H; try discriminate H.
  - destruct H as (s & E & Hs). inversion E; subst. contradiction.
  - exists (String c s). split; [reflexivity | discriminate].
  - reflexivity.
  - destruct H as (s & E & _). discriminate E.
Qed.

Lemma find_store_none (cfg : Config) (stores : list Store) :
  Forall (fun s => store_name s <> Some (VECTOR_STORE_NAME cfg)) stores ->
  find_store cfg stores = None.
Proof.
  unfold find_store. induction 1 as [| s stores Hs _ IH]; simpl; [reflexivity |].
  destruct (store_name s) as [n |]; [| exact IH].
  destruct (String.eqb_spec n (VECTOR_STORE_NAME cfg)) as [-> | _];
    [contradiction Hs; reflexivity | exact IH].
Qed.

Lemma find_store_first (cfg : Config) (before after : list Store) (store : Store) :
  Forall (fun s => store_name s <> Some (VECTOR_STORE_NAME cfg)) before ->
  store_name store = Some (VECTOR_STORE_NAME cfg) ->
  find_store cfg (before ++ store :: after) = Some store.
Proof.
  intros Hb Hn. unfold find_store.
  induction Hb as [| s before Hs _ IH]; simpl.
  - rewrite Hn, String.eqb_refl. reflexivity.
  - destruct (store_name s) as [n |]; [| exact IH].
    destruct (String.eqb_spec n (VECTOR_STORE_NAME cfg)) as [-> | _];
      [contradiction Hs; reflexivity | exact IH].
Qed.

(** X1.  A non-empty collection identifier supplied by the environment
    is the cache from the start: every [resolve()] returns it, for every
    step budget, and no remote call is ever made to find or create the
    collection.  Without one, or with an empty one, the process starts
    with the cache unset. *)
Theorem env_id_skips_resolution :
  forall (W : Type) (client : Client W) (cfg : Config) (w : W),
    (forall vsid fuels,
        VECTOR_STORE_ID_ENV cfg = Some vsid -> vsid <> EmptyString ->
        resolve_all client cfg fuels (initial_state cfg w)
        = (map (fun _ => Ret vsid) fuels,
           {| cache := Some vsid; world := w; calls := [] |}))
    /\ (VECTOR_STORE_ID_ENV cfg = None
        \/ VECTOR_STORE_ID_ENV cfg = Some EmptyString ->
        initial_state cfg w = {| cache := None; world := w; calls := [] |}).
Proof.
  intros W client cfg w. split.
  - intros vsid fuels Henv Hne.
    assert (Hinit : initial_state cfg w
                    = {| cache := Some vsid; world := w; calls := [] |}).
    { unfold initial_state. rewrite Henv. simpl.
      apply truthy_str_true in Hne. rewrite Hne. reflexivity. }
    rewrite Hinit.
    apply resolve_all_cached with (vsid := vsid); [reflexivity |].
    apply truthy_str_true. exact Hne.
  - intros [Henv | Henv]; unfold initial_state; rewrite Henv; reflexivity.
Qed.

Lemma env_id_skips_resolution_witness :
  resolve_all (Stub.client Stub.stores_down) (with_store_id Stub.cfg "vs_env")
              [0; 3] (initial_state (with_store_id Stub.cfg "vs_env") 0)
  = ([Ret "vs_env"; Ret "vs_env"],
     {| cache := Some "vs_env"; world := 0; calls := [] |}).
Proof.
  apply (proj1 (@env_id_skips_resolution _ (Stub.client Stub.stores_down)
                  (with_store_id Stub.cfg "vs_env") 0) "vs_env" [0; 3] eq_refl).
  discriminate.
Defined.

Section ResolverPages.
Context {W : Type}.
Variable client : Client W.
Variable cfg : Config.

Lemma scan_first_page fuel (st : State W) page w1 :
  vector_stores_list client 100 None (world st) = (Ok page, w1) ->
  scan_pages client cfg (S fuel) None st
  = let st0 := {| cache := cache st; world := w1;
                  calls := calls st
                           ++ [{| ev_call := CStoresList 100 None;
                                  ev_answer := Returned None |}] |} in
    match find_store cfg (data page) with
    | Some store =>
        (Ret (store_id store),
         {| cache := Some (store_id store); world := w1;
            calls := calls st
                     ++ [{| ev_call := CStoresList 100 None;
                            ev_answer := Returned None |}] |})
    | None =>
        if negb (getattr_bool (has_more page) false) then create_store client cfg st0
        else if negb (truthy_ostr (last_id page)) then create_store client cfg st0
             else scan_pages client cfg fuel (last_id page) st0
    end.
Proof.
  intros Hl. simpl. unfold bind at 1. unfold remote at 1. rewrite Hl.
  cbv beta iota zeta. unfold no_ident.
  destruct (find_store cfg (data page)); [reflexivity |].
  destruct (negb (getattr_bool (has_more page) false)); [reflexivity |].
  destruct (negb (truthy_ostr (last_id page))); reflexivity.
Qed.
End ResolverPages.

(** X2.  When the cache is unset and the first page of collections has
    a store with the configured name, [resolve()] returns the identifier
    of the first such store on the page and caches it, after exactly one
    list call (page size 100, no cursor) and without any create call. *)
Theorem resolver_finds_existing_store :
  forall (W : Type) (client : Client W) (cfg : Config) fuel (st : State W)
         page w1 before store after,
    cache_unset st ->
    vector_stores_list client 100 None (world st) = (Ok page, w1) ->
    data page = before ++ store :: after ->
    Forall (fun s => store_name s <> Some (VECTOR_STORE_NAME cfg)) before ->
    store_name store = Some (VECTOR_STORE_NAME cfg) ->
    _get_or_create_vector_store_id client cfg (S fuel) st
    = (Ret (store_id store),
       {| cache := Some (store_id store); world := w1;
          calls := calls st ++ [{| ev_call := CStoresList 100 None;
                                   ev_answer := Returned None |}] |}).
Proof.
  intros W client cfg fuel st page w1 before store after Hc Hl Hd Hb Hn.
  apply cache_unset_falsy in Hc.
  rewrite (resolve_uncached client cfg (S fuel) st Hc).
  rewrite (scan_first_page client cfg fuel st Hl). cbv zeta.
  rewrite Hd, (@find_store_first cfg before after store Hb Hn). reflexivity.
Qed.

Lemma resolver_finds_existing_store_witness :
  let client :=
    Stub.client
      {| Stub.b_stores := fun _ =>
           Ok {| data := [{| store_id := "vs_a"; store_name := Some "OTHER" |};
                          {| store_id := "vs_b"; store_name := Some "MEMORIES_STORE" |};
                          {| store_id := "vs_c"; store_name := Some "MEMORIES_STORE" |}];
                 has_more := Some true; last_id := Some "vs_c" |};
         Stub.b_create := Stub.b_create Stub.happy;
         Stub.b_upload := Stub.b_upload Stub.happy;
         Stub.b_update := Stub.b_update Stub.happy;
         Stub.b_search := Stub.b_search Stub.happy;
         Stub.b_files := Stub.b_files Stub.happy;
         Stub.b_detail := Stub.b_detail Stub.happy;
         Stub.b_content := Stub.b_content Stub.happy;
         Stub.b_delete := Stub.b_delete Stub.happy |} in
  _get_or_create_vector_store_id client Stub.cfg 1 Stub.start
  = (Ret "vs_b",
     {| cache := Some "vs_b"; world := 1;
        calls := [{| ev_call := CStoresList 100 None;
                     ev_answer := Returned None |}] |}).
Proof.
  intros client.
  eapply (@resolver_finds_existing_store
           _ client Stub.cfg 0 Stub.start _ _
           [{| store_id := "vs_a"; store_name := Some "OTHER" |}]
           {| store_id := "vs_b"; store_name := Some "MEMORIES_STORE" |}
           [{| store_id := "vs_c"; store_name := Some "MEMORIES_STORE" |}]).
  - left. reflexivity.
  - reflexivity.
  - reflexivity.
  - repeat constructor. discriminate.
  - reflexivity.
Defined.

(** X3.  When the cache is unset, the first page has no store with the
    configured name, and the listing ends there (the page reports no
    further page, or carries no cursor), [resolve()] goes on to create
    the collection under the configured name: a successful create is
    returned and cached, a failed one is raised and leaves the cache as
    it was; either way the calls are one list and one create. *)
Theorem resolver_creates_when_listing_ends :
  forall (W : Type) (client : Client W) (cfg : Config) fuel (st : State W)
         page w1,
    cache_unset st ->
    vector_stores_list client 100 None (world st) = (Ok page, w1) ->
    Forall (fun s => store_name s <> Some (VECTOR_STORE_NAME cfg)) (data page) ->
    listing_ends page ->
    let listed := {| ev_call := CStoresList 100 None;
                     ev_answer := Returned None |} in
    let create := CStoresCreate (VECTOR_STORE_NAME cfg) in
    _get_or_create_vector_store_id client cfg (S fuel) st
    = match vector_stores_create client (VECTOR_STORE_NAME cfg) w1 with
      | (Ok created, w2) =>
          (Ret (store_id created),
           {| cache := Some (store_id created); world := w2;
              calls := calls st
                       ++ [listed;
                           {| ev_call := create;
                              ev_answer := Returned (Some (store_id created)) |}] |})
      | (Err e, w2) =>
          (Raise e,
           {| cache := cache st; world := w2;
              calls := calls st
                       ++ [listed;
                           {| ev_call := create; ev_answer := Raised e |}] |})
      end.
Proof.
  intros W client cfg fuel st page w1 Hc Hl Hf Hend listed create.
  apply cache_unset_falsy in Hc. apply find_store_none in Hf.
  rewrite (resolve_uncached client cfg (S fuel) st Hc).
  rewrite (scan_first_page client cfg fuel st Hl). cbv zeta. rewrite Hf.
  fold listed.
  assert (Hcreate :
            create_store client cfg
              {| cache := cache st; world := w1; calls := calls st ++ [listed] |}
            = match vector_stores_create client (VECTOR_STORE_NAME cfg) w1 with
              | (Ok created, w2) =>
                  (Ret (store_id created),
                   {| cache := Some (store_id created); world := w2;
                      calls := calls st
                               ++ [listed;
                                   {| ev_call := create;
                                      ev_answer := Returned (Some (store_id created)) |}] |})
              | (Err e, w2) =>
                  (Raise e,
                   {| cache := cache st; world := w2;
                      calls := calls st
                               ++ [listed;
                                   {| ev_call := create; ev_answer := Raised e |}] |})
              end).
  { unfold create_store, bind, remote, set_cache, ret. cbn [world cache calls].
    destruct (vector_stores_create client (VECTOR_STORE_NAME cfg) w1)
      as [[created | e] w2]; cbn [world cache calls];
      rewrite <- app_assoc; reflexivity. }
  destruct Hend as [Hm | [Hm | [Hi | Hi]]].
  - rewrite Hm. exact Hcreate.
  - rewrite Hm. exact Hcreate.
  - rewrite Hi. destruct (negb (getattr_bool (has_more page) false));
      exact Hcreate.
  - rewrite Hi. destruct (negb (getattr_bool (has_more page) false));
      exact Hcreate.
Qed.

Lemma resolver_creates_when_listing_ends_witness :
  _get_or_create_vector_store_id (Stub.client Stub.happy) Stub.cfg 1 Stub.start
  = (Ret "vs_1",
     {| cache := Some "vs_1"; world := 2;
        calls := [{| ev_call := CStoresList 100 None;
                     ev_answer := Returned None |};
                  {| ev_call := CStoresCreate "MEMORIES_STORE";
                     ev_answer := Returned (Some "vs_1") |}] |}).
Proof.
  apply (@resolver_creates_when_listing_ends _ (Stub.client Stub.happy) Stub.cfg
           0 Stub.start Stub.empty_page 1).
  - left. reflexivity.
  - reflexivity.
  - constructor.
  - right. left. reflexivity.
Defined.

Section ResolverTrace.
Context {W : Type}.
Variable client : Client W.
Variable cfg : Config.

Lemma create_store_logs (st : State W) r st1 :
  create_store client cfg st = (r, st1) ->
  r <> OutOfFuel
  /\ exists ev, calls st1 = calls st ++ [ev]
                /\ ev_call ev = CStoresCreate (VECTOR_STORE_NAME cfg).
Proof.
  unfold create_store, bind, remote, set_cache, ret.
  destruct (vector_stores_create client (VECTOR_STORE_NAME cfg) (world st))
    as [[created | e] w2]; intros H; inversion H; subst; simpl;
    (split; [discriminate | eexists; split; reflexivity]).
Qed.

Lemma scan_pages_trace (fuel : nat) :
  forall after (st : State W) r st1,
    scan_pages client cfg fuel after st = (r, st1) ->
    exists new,
      calls st1 = calls st ++ new
      /\ resolver_trace (VECTOR_STORE_NAME cfg) fuel after (map ev_call new)
      /\ (r = OutOfFuel ->
          cache st1 = cache st /\ length new = fuel
          /\ Forall (fun ev => exists c, ev_call ev = CStoresList 100 c) new).
Proof.
  induction fuel as [| fuel IH]; intros after st r st1; simpl.
  - unfold out_of_fuel. intros H; inversion H; subst.
    exists []. rewrite app_nil_r. split; [reflexivity |]. split.
    + exists [], []. simpl. repeat split; auto.
    + intros _. repeat split; auto.
  - unfold bind at 1. unfold remote at 1.
    destruct (vector_stores_list client 100 after (world st))
      as [[page | e] w'] eqn:E.
    + set (ev := {| ev_call := CStoresList 100 after;
                    ev_answer := Returned (no_ident page) |}).
      set (st0 := {| cache := cache st; world := w'; calls := calls st ++ [ev] |}).
      assert (Hone : forall tail,
                 tail = [] \/ tail = [CStoresCreate (VECTOR_STORE_NAME cfg)] ->
                 resolver_trace (VECTOR_STORE_NAME cfg) (S fuel) after
                                (CStoresList 100 after :: tail)).
      { intros tail Ht. exists [after], tail. simpl.
        repeat split; auto. lia. }
      assert (Hcreate : create_store client cfg st0 = (r, st1) ->
                        exists new,
                          calls st1 = calls st ++ new
                          /\ resolver_trace (VECTOR_STORE_NAME cfg) (S fuel) after
                                            (map ev_call new)
                          /\ (r = OutOfFuel ->
                              cache st1 = cache st /\ length new = S fuel
                              /\ Forall (fun ev => exists c,
                                             ev_call ev = CStoresList 100 c) new)).
      { intros H. apply create_store_logs in H.
        destruct H as (Hno & ev2 & Hc & Hk).
        exists [ev; ev2]. split.
        - rewrite Hc. unfold st0. simpl. rewrite <- app_assoc. reflexivity.
        - split; [| intros Hr; contradiction].
          simpl. rewrite Hk. apply Hone. right. reflexivity. }
      destruct (find_store cfg (data page)) as [store |].
      * unfold bind, set_cache, ret. intros H; inversion H; subst.
        exists [ev]. split; [reflexivity |]. split.
        -- simpl. apply Hone. left. reflexivity.
        -- intros Hr; discriminate.
      * destruct (negb (getattr_bool (has_more page) false)); [exact Hcreate |].
        destruct (negb (truthy_ostr (last_id page))) eqn:Hlast; [exact Hcreate |].
        apply negb_false_iff in Hlast. apply truthy_ostr_some in Hlast.
        intros H. apply IH in H.
        destruct H as (new & Hn & (cursors & tail & Hmap & Ht & Hlen & Hhd & Hall) & Hout).
        exists (ev :: new). split.
        { rewrite Hn. unfold st0. simpl. rewrite <- app_assoc. reflexivity. }
        split.
        { exists (after :: cursors), tail. simpl. rewrite Hmap.
          split; [reflexivity |]. split; [exact Ht |]. split; [lia |].
          split; [right; reflexivity |].
          destruct cursors as [| c cs]; [constructor |].
          destruct Hhd as [Hnil | Hhd]; [discriminate |].
          simpl in Hhd. inversion Hhd; subst c.
          constructor; [exact Hlast | exact Hall]. }
        { intros Hr. destruct (Hout Hr) as (Hca & Hl & Hf).
          split; [exact Hca |]. split; [simpl; lia |].
          constructor; [exists after; reflexivity | exact Hf]. }
    + intros H; inversion H; subst.
      exists [{| ev_call := CStoresList 100 after; ev_answer := Raised e |}].
      split; [reflexivity |]. split.
      * exists [after], []. simpl. repeat split; auto. lia.
      * intros Hr; discriminate.
Qed.
End ResolverTrace.

(** X4.  The calls of any single [resolve()] are list-collections calls
    with page size 100 - the first without a cursor, each later one with
    a non-empty cursor, never more than the step budget - followed by at
    most one create-collection call for the configured name, which is
    then the last call.  A resolution that runs out of budget has made
    only list calls and has left the cache untouched. *)
Theorem resolver_call_pattern :
  forall (W : Type) (client : Client W) (cfg : Config) fuel (st : State W) r st1,
    _get_or_create_vector_store_id client cfg fuel st = (r, st1) ->
    resolver_trace (VECTOR_STORE_NAME cfg) fuel None (issued_since st st1)
    /\ (r = OutOfFuel ->
        cache st1 = cache st /\ length (issued_since st st1) = fuel
        /\ Forall (fun c => exists cursor, c = CStoresList 100 cursor)
                  (issued_since st st1)).
Proof.
  intros W client cfg fuel st r st1 H.
  destruct (truthy_ostr (cache st)) eqn:Hc.
  - destruct (truthy_ostr_cached _ Hc) as [Hs Ht].
    rewrite (resolve_cached client cfg fuel st Hs Ht) in H.
    inversion H; subst.
    assert (Hi : issued_since st1 st1 = []).
    { apply (issued_since_app st1 st1 []). rewrite app_nil_r. reflexivity. }
    rewrite Hi. split.
    + exists [], []. simpl. repeat split; auto. lia.
    + intros Hr; discriminate.
  - rewrite (resolve_uncached client cfg fuel st Hc) in H.
    apply scan_pages_trace in H. destruct H as (new & Hn & Htrace & Hout).
    rewrite (issued_since_app st st1 new Hn). split; [exact Htrace |].
    intros Hr. destruct (Hout Hr) as (Hca & Hl & Hf).
    split; [exact Hca |]. split; [rewrite length_map; exact Hl |].
    apply Forall_map. eapply Forall_impl; [| exact Hf].
    cbv beta. intros ev (c & Hev). exists c. exact Hev.
Qed.

Lemma resolver_call_pattern_witness :
  resolver_trace "MEMORIES_STORE" 3 None
    (issued_since Stub.start
       (snd (_get_or_create_vector_store_id (Stub.client Stub.happy) Stub.cfg 3
                                            Stub.start))).
Proof.
  exact (proj1 (@resolver_call_pattern _ (Stub.client Stub.happy) Stub.cfg 3
                  Stub.start _ _ eq_refl)).
Defined.

(** X5.  [health] makes no remote call and changes nothing; it reports
    [status = ok], the configured collection name and the clock, and its
    [vector_store_id_cached] flag is [True] exactly when a non-empty
    identifier is cached - so it is [True] right after any [resolve()]
    that returned a non-empty identifier. *)
Theorem health_reports_cache :
  forall (W : Type) (client : Client W) (cfg : Config) (st : State W),
    (exists d flag,
        health client cfg st = (Ret d, st)
        /\ dict_get d "status" = Some (VStr "ok")
        /\ dict_get d "vector_store_name" = Some (VStr (VECTOR_STORE_NAME cfg))
        /\ dict_get d "time_utc" = Some (VStr (utc_now_iso client (world st)))
        /\ dict_get d "vector_store_id_cached" = Some (VBool flag)
        /\ (flag = true <-> exists vsid, cache st = Some vsid /\ vsid <> EmptyString))
    /\ (forall fuel st0 vsid,
           _get_or_create_vector_store_id client cfg fuel st0 = (Ret vsid, st) ->
           vsid <> EmptyString ->
           exists d,
             health client cfg st = (Ret d, st)
             /\ dict_get d "vector_store_id_cached" = Some (VBool true)).
Proof.
  intros W client cfg st. split.
  - unfold health, bind, get_cache, _utc_now_iso, read, ret.
    eexists. exists (truthy_ostr (cache st)).
    split; [reflexivity |]. repeat (split; [reflexivity |]).
    apply truthy_ostr_some.
  - intros fuel st0 vsid Hres Hne.
    destruct (resolve_resolved client cfg fuel st0 Hres) as (new & _ & _ & _ & _ & Hc).
    unfold health, bind, get_cache, _utc_now_iso, read, ret.
    eexists. split; [reflexivity |]. simpl. rewrite Hc. simpl.
    apply truthy_str_true in Hne. rewrite Hne. reflexivity.
Qed.

Lemma health_reports_cache_witness :
  exists d,
    health (Stub.client Stub.happy) Stub.cfg
           (snd (_get_or_create_vector_store_id (Stub.client Stub.happy) Stub.cfg
                                                1 Stub.start))
    = (Ret d, snd (_get_or_create_vector_store_id (Stub.client Stub.happy)
                                                   Stub.cfg 1 Stub.start))
    /\ dict_get d "vector_store_id_cached" = Some (VBool true).
Proof.
  apply (proj2 (@health_reports_cache _ (Stub.client Stub.happy) Stub.cfg _)
               1 Stub.start "vs_1").
  - apply surjective_pairing.
  - discriminate.
Defined.

(* ------------------------------------------------------------------ *)
(** ** Slices, file names and attributes of a saved memory *)

Lemma length_prefix (n : nat) : forall s : string,
    String.length (prefix n s) = Nat.min n (String.length s).
Proof.
  unfold prefix. induction n as [| n IH]; intros s.
  - destruct s; reflexivity.
  - destruct s as [| c s]; [reflexivity |]. simpl. rewrite IH. reflexivity.
Qed.

Lemma prefix_all (n : nat) : forall s : string,
    String.length s <= n -> prefix n s = s.
Proof.
  unfold prefix. induction n as [| n IH]; intros s H.
  - destruct s; [reflexivity | simpl in H; lia].
  - destruct s as [| c s]; [reflexivity |]. simpl in *. rewrite IH by lia.
    reflexivity.
Qed.

Lemma prefix_same_iff (n : nat) (s : string) :
  prefix n s = s <-> String.length s <= n.
Proof.
  split; [| apply prefix_all].
  intros H. pose proof (length_prefix n s) as Hl. rewrite H in Hl. lia.
Qed.

Lemma chars_prefix (n : nat) : forall s : string,
    chars (prefix n s) = firstn n (chars s).
Proof.
  unfold prefix, chars. induction n as [| n IH]; intros s.
  - destruct s; reflexivity.
  - destruct s as [| c s]; [reflexivity |]. simpl. rewrite IH. reflexivity.
Qed.

Lemma length_chars (s : string) : length (chars s) = String.length s.
Proof.
  unfold chars. induction s as [| c s IH]; simpl; [reflexivity | now rewrite IH].
Qed.

(** A substitution for a one-character class works character by
    character. *)
Lemma sub_from_chr (cs : charset) (repl : list ascii) :
  forall (s : list ascii) prev,
    sub_from (Chr cs) repl prev s 0
    = flat_map (fun c => if cs c then repl else [c]) s.
Proof.
  induction s as [| c s IH]; intros prev; [reflexivity |].
  cbn [sub_from flat_map]. unfold match_at. cbn [ends].
  destruct (cs c); cbn [hd_error]; rewrite IH; reflexivity.
Qed.

Lemma flat_map_single {A B} (f : A -> B) (l : list A) :
  flat_map (fun a => [f a]) l = map f l.
Proof. induction l as [| a l IH]; simpl; [reflexivity | now rewrite IH]. Qed.

Lemma unsafe_ch_spec (c : ascii) : unsafe_ch c = negb (filename_char c).
Proof.
  apply Bool.eqb_prop.
  apply (all_ascii_sound (fun c => Bool.eqb (unsafe_ch c) (negb (filename_char c)))).
  vm_compute. reflexivity.
Qed.

Lemma safe_user_chars (user_id : string) :
  re_sub (Chr unsafe_ch) (chars "_") (chars user_id)
  = map (fun c => if filename_char c then c else "_"%char) (chars user_id).
Proof.
  unfold re_sub. rewrite sub_from_chr. rewrite <- flat_map_single.
  apply flat_map_ext. intros c. rewrite unsafe_ch_spec.
  destruct (filename_char c); reflexivity.
Qed.

(** X6.  The file name [save_memory] uploads under is
    [memory_<safe>_<ts>.txt], where [<safe>] is the first 32 characters
    of the user id with every character outside [[A-Za-z0-9_-]] turned
    into an underscore: it has at most 32 characters, all of them
    letters, digits, underscores or hyphens. *)
Theorem memory_filename_safe :
  forall (user_id : string) (ts : Z),
  exists safe : string,
    memory_filename user_id ts
    = ("memory_" ++ safe ++ "_" ++ str_of_int ts ++ ".txt")%string
    /\ chars safe
       = firstn 32 (map (fun c => if filename_char c then c else "_"%char)
                        (chars user_id))
    /\ String.length safe = Nat.min 32 (String.length user_id)
    /\ Forall (fun c => filename_char c = true) (chars safe).
Proof.
  intros user_id ts.
  set (clean := fun c => if filename_char c then c else "_"%char).
  exists (prefix 32 (text (map clean (chars user_id)))).
  assert (Hc : chars (prefix 32 (text (map clean (chars user_id))))
               = firstn 32 (map clean (chars user_id))).
  { rewrite chars_prefix, chars_text. reflexivity. }
  split; [| split; [exact Hc | split]].
  - unfold memory_filename. rewrite safe_user_chars. reflexivity.
  - rewrite <- length_chars, Hc, length_firstn, length_map, length_chars.
    reflexivity.
  - rewrite Hc. apply Forall_forall. intros c Hin.
    assert (Hin' : In c (map clean (chars user_id))).
    { rewrite <- (firstn_skipn 32 (map clean (chars user_id))).
      apply in_or_app. left. exact Hin. }
    apply in_map_iff in Hin'. destruct Hin' as (c0 & <- & _).
    unfold clean. destruct (filename_char c0) eqn:E; [exact E | reflexivity].
Qed.

(** The attributes of a saved memory, laid out: the five fixed entries,
    then the optional ones. *)
Lemma memory_attributes_layout user_id memory_type now mem_hash do_redact
      session_id tags :
  memory_attributes user_id memory_type now mem_hash do_redact session_id tags
  = [("user_id", VStr (prefix 64 user_id));
     ("type", VStr (prefix 64 memory_type));
     ("timestamp_utc", VStr (prefix 64 now));
     ("sha256", VStr (prefix 64 mem_hash));
     ("redacted", VBool do_redact)]
    ++ (match session_id with
        | Some (String c s) => [("session_id", VStr (prefix 64 (String c s)))]
        | _ => []
        end)
    ++ (match tags with
        | Some (t :: ts) =>
            [("tags_json", VStr (prefix 512 (json_dumps (t :: ts))))]
        | _ => []
        end).
Proof.
  destruct session_id as [[| c s] |]; destruct tags as [[| t ts] |]; reflexivity.
Qed.

(** X7.  The attributes [save_memory] sends have the keys [user_id],
    [type], [timestamp_utc], [sha256], [redacted], then [session_id]
    exactly when a non-empty session id was given, then [tags_json]
    exactly when the tag list is non-empty; no key is repeated, the
    [redacted] entry is the flag and every other value is a string of at
    most 512 characters - the mapping stays inside the 16-pair,
    64-character-key, 512-character-value limits quoted in
    [_update_vector_store_file_attributes]. *)
Theorem memory_attributes_within_limits :
  forall user_id memory_type now mem_hash do_redact session_id tags,
    let attributes :=
      memory_attributes user_id memory_type now mem_hash do_redact
                        session_id tags in
    map fst attributes
    = ["user_id"; "type"; "timestamp_utc"; "sha256"; "redacted"]
      ++ (match session_id with
          | Some (String _ _) => ["session_id"]
          | _ => []
          end)
      ++ (match tags with
          | Some (_ :: _) => ["tags_json"]
          | _ => []
          end)
    /\ NoDup (map fst attributes)
    /\ length attributes <= 16
    /\ dict_get attributes "redacted" = Some (VBool do_redact)
    /\ Forall (fun kv => String.length (fst kv) <= 64
                         /\ value_within_limits (snd kv)) attributes.
Proof.
  intros user_id memory_type now mem_hash do_redact session_id tags attributes.
  subst attributes. rewrite memory_attributes_layout.
  assert (H64 : forall s, String.length (prefix 64 s) <= 512).
  { intros s. rewrite length_prefix. lia. }
  assert (H512 : forall s, String.length (prefix 512 s) <= 512).
  { intros s. rewrite length_prefix. lia. }
  destruct session_id as [[| c s] |]; destruct tags as [[| t ts] |];
    cbn [app map fst snd length];
    (split; [reflexivity |]);
    (split; [repeat (apply NoDup_cons;
                     [cbn [In]; intros Hin;
                      repeat (destruct Hin as [Hin | Hin]; [discriminate Hin |]);
                      exact Hin |]); apply NoDup_nil |]);
    (split; [lia |]);
    (split; [reflexivity |]);
    repeat (apply Forall_cons;
            [split; [cbn; lia | cbn [snd value_within_limits]; auto] |]);
    apply Forall_nil.
Qed.

(** X8.  Saving and searching with the same arguments: for every
    non-empty argument - the user id, the session id, the type, the tag
    list as JSON - the filter [search_memory] builds has the comparison
    [{type: eq, key, value}] with the value in full, while the attribute
    [save_memory] stored under [key] is the value cut to the limit of
    that key (512 characters for [tags_json], 64 for the others).  The
    stored attribute equals the value searched for exactly when the
    value is within the limit: a longer user id, session id, type or
    tag list is stored truncated and compared in full. *)
Theorem saved_attributes_match_filter :
  forall user_id memory_type now mem_hash do_redact session_id tags key value,
    In (key, value) (criteria user_id session_id memory_type tags) ->
    In (VDict [("type", VStr "eq"); ("key", VStr key); ("value", VStr value)])
       (filter_leaves (_build_attribute_filter (Some user_id) session_id tags
                                               (Some memory_type)))
    /\ dict_get (memory_attributes user_id memory_type now mem_hash do_redact
                                   session_id tags) key
       = Some (VStr (prefix (attribute_limit key) value))
    /\ (prefix (attribute_limit key) value = value
        <-> String.length value <= attribute_limit key).
Proof.
  intros user_id memory_type now mem_hash do_redact session_id tags key value H.
  split; [| split; [| apply prefix_same_iff]].
  - unfold criteria in H. unfold _build_attribute_filter.
    destruct user_id as [| c1 u];
      destruct session_id as [[| c2 s] |];
      destruct memory_type as [| c3 m];
      destruct tags as [[| t ts] |];
      cbn in H |- *;
      repeat (destruct H as [H | H];
              [inversion H; subst; clear H; tauto |]);
      contradiction.
  - rewrite memory_attributes_layout. unfold criteria in H.
    apply in_app_or in H. destruct H as [H | H].
    { destruct user_id; [destruct H |].
      destruct H as [H | []]. inversion H; subst. reflexivity. }
    apply in_app_or in H. destruct H as [H | H].
    { destruct session_id as [[| c s] |]; try (destruct H; fail).
      destruct H as [H | []]. inversion H; subst.
      destruct tags as [[| t ts] |]; reflexivity. }
    apply in_app_or in H. destruct H as [H | H].
    { destruct memory_type; [destruct H |].
      destruct H as [H | []]. inversion H; subst. reflexivity. }
    destruct tags as [[| t ts] |]; try (destruct H; fail).
    destruct H as [H | []]. inversion H; subst.
    destruct session_id as [[| c s] |]; reflexivity.
Qed.

Lemma saved_attributes_match_filter_witness :
  dict_get (memory_attributes "alice" "note" "2024-01-01T00:00:00+00:00"
                              "0f" true (Some "s1") (Some ["work"; "2024"]))
           "tags_json"
  = Some (VStr (json_dumps ["work"; "2024"]))
  /\ String.length (json_dumps ["work"; "2024"]) = 16.
Proof.
  pose proof (@saved_attributes_match_filter
                "alice" "note" "2024-01-01T00:00:00+00:00" "0f" true (Some "s1")
                (Some ["work"; "2024"]) "tags_json"
                (json_dumps ["work"; "2024"])
                ltac:(vm_compute; right; right; right; left; reflexivity))
    as (_ & Hget & _).
  split; [rewrite Hget; reflexivity | reflexivity].
Defined.

(* ------------------------------------------------------------------ *)
(** ** What the redactor guarantees *)

Lemma text_chars (s : string) : text (chars s) = s.
Proof. apply string_of_list_ascii_of_string. Qed.

Lemma redact_chars_clean (s : list ascii) :
  Forall (fun p => nomatch p None (redact_chars s)) _SECRET_PATTERNS.
Proof.
  exact (redact_all_clean _SECRET_PATTERNS s [] (Forall_nil _)
                          secret_patterns_shape (Forall_nil _)).
Qed.

Lemma redact_all_visible : forall (pats : list regex) (s : list ascii),
    redact_all pats s = s \/ occurs_in REDACTED (redact_all pats s).
Proof.
  induction pats as [| q pats IH]; intros s; [left; reflexivity |].
  change (redact_all (q :: pats) s) with (redact_all pats (redact_with q None s)).
  destruct (IH (redact_with q None s)) as [Hsame | Hocc]; [| right; exact Hocc].
  rewrite Hsame.
  destruct (first_replacement q s None) as [Hq | (u & w & k & out & _ & _ & Hq)].
  - left. exact Hq.
  - right. exists u, out. exact Hq.
Qed.

(** X9.  After [_redact_secrets], none of the five patterns matches at
    any position of the text. *)
Theorem redacted_text_has_no_secret :
  forall txt : string,
    Forall (fun p => nomatch p None (chars (_redact_secrets txt)))
           _SECRET_PATTERNS.
Proof.
  intros txt. unfold _redact_secrets. rewrite chars_text.
  apply redact_chars_clean.
Qed.

(** X10.  [_redact_secrets] returns its argument unchanged exactly when
    no pattern matches anywhere in it. *)
Theorem redaction_fixed_points :
  forall txt : string,
    _redact_secrets txt = txt
    <-> Forall (fun p => nomatch p None (chars txt)) _SECRET_PATTERNS.
Proof.
  intros txt. split.
  - intros H. rewrite <- H. unfold _redact_secrets. rewrite chars_text. apply redact_chars_clean.
  - intros H. unfold _redact_secrets, redact_chars.
    rewrite (redact_all_fixed _SECRET_PATTERNS (chars txt) H).
    apply text_chars.
Qed.

(** X11.  Redaction is never silent: whenever [_redact_secrets] changes
    a text, the result contains the marker [[REDACTED]]. *)
Theorem redaction_is_visible :
  forall txt : string,
    _redact_secrets txt = txt
    \/ occurs_in (chars "[REDACTED]") (chars (_redact_secrets txt)).
Proof.
  intros txt. unfold _redact_secrets. rewrite chars_text.
  destruct (redact_all_visible _SECRET_PATTERNS (chars txt)) as [H | H].
  - left. unfold redact_chars. rewrite H. apply text_chars.
  - right. exact H.
Qed.

(* ------------------------------------------------------------------ *)
(** ** What [save_memory] sends and reports *)

Section SaveCalls.
Context {W : Type}.
Variable client : Client W.
Variable cfg : Config.
Variable sha256_hex : string -> string.

Lemma issued_since_self (st : State W) : issued_since st st = [].
Proof.
  apply (issued_since_app st st []). rewrite app_nil_r. reflexivity.
Qed.

Lemma issued_since_trans (st st1 st2 : State W) new1 new2 :
  calls st1 = calls st ++ new1 -> calls st2 = calls st1 ++ new2 ->
  issued_since st st2 = map ev_call new1 ++ map ev_call new2.
Proof.
  intros H1 H2. rewrite <- map_app. apply issued_since_app.
  rewrite H2, H1, app_assoc. reflexivity.
Qed.


End SaveCalls.



(** X13.  [save_memory] reports [saved] only after an upload and an
    attribute update that both succeeded, and these are its last two
    remote calls.  The [file_id] it reports is the one the upload
    returned, [sha256] is the digest of the text that was uploaded (the
    redacted text when redaction is on, not the caller's input), and
    [attributes] is the mapping sent in the update, whose [redacted]
    entry is the redaction flag in force. *)
Theorem save_reports_what_was_stored :
  forall (W : Type) (client : Client W) (cfg : Config)
         (sha256_hex : string -> string)
         memory user_id session_id memory_type tags redact_secrets fuel
         (st : State W) d st2,
    save_memory client cfg sha256_hex memory user_id session_id memory_type
                tags redact_secrets fuel st = (Ret d, st2) ->
    dict_get d "status" = Some (VStr "saved") ->
    exists new vsid uploaded filename file_id attributes,
      events_since st st2
      = new ++ [{| ev_call := CUpload vsid uploaded filename;
                   ev_answer := Returned (Some file_id) |};
                {| ev_call := CUpdate vsid file_id attributes;
                   ev_answer := Returned None |}]
      /\ Forall (fun ev => is_store_call (ev_call ev) = true) new
      /\ uploaded = cleaned_text cfg memory redact_secrets
      /\ dict_get d "vector_store_id" = Some (VStr vsid)
      /\ dict_get d "file_id" = Some (VStr file_id)
      /\ dict_get d "sha256" = Some (VStr (sha256_hex uploaded))
      /\ dict_get d "attributes" = Some (VDict attributes)
      /\ dict_get attributes "redacted"
         = Some (VBool (redaction_flag cfg redact_secrets))
      /\ dict_get attributes "sha256"
         = Some (VStr (prefix 64 (sha256_hex uploaded))).
Proof.
  intros W client cfg sha memory user_id session_id memory_type tags redact fuel
         st d st2 Hrun Hsaved.
  destruct (string_dec (strip memory) EmptyString) as [He | Hne].
  { destruct (save_memory_invalid client cfg sha memory user_id
                session_id memory_type tags redact fuel st (or_introl He))
      as [msg E].
    rewrite E in Hrun. inversion Hrun; subst. discriminate Hsaved. }
  destruct (Z_le_gt_dec (len memory) (MAX_MEMORY_CHARS cfg)) as [Hle | Hgt].
  2: { destruct (save_memory_invalid client cfg sha memory user_id
                   session_id memory_type tags redact fuel st
                   (or_intror Hgt)) as [msg E].
       rewrite E in Hrun. inversion Hrun; subst. discriminate Hsaved. }
  destruct (_get_or_create_vector_store_id client cfg fuel st)
    as [r st1] eqn:Hres.
  destruct (resolve_issues_store_calls client cfg fuel st Hres)
    as (new & Hnew & Hall).
  destruct r as [vsid | e |].
  - rewrite (save_memory_phases client cfg sha memory user_id session_id
               memory_type tags redact fuel st Hne Hle Hres) in Hrun.
    cbv zeta in Hrun.
    destruct (files_upload_and_poll client vsid _ _ (world st1))
      as [[file_id | e] w2].
    + destruct (files_update client vsid file_id _ w2) as [[[] | e] w3];
        inversion Hrun; subst; clear Hrun; [| discriminate Hsaved].
      exists new, vsid. eexists. eexists. exists file_id. eexists.
      split.
      { apply events_since_app. cbn [calls]. rewrite Hnew, <- app_assoc.
        reflexivity. }
      split; [exact Hall |].
      split; [reflexivity |].
      repeat (split; [reflexivity |]).
      split; rewrite memory_attributes_layout; reflexivity.
    + inversion Hrun; subst. discriminate Hsaved.
  - destruct (resolver_failure_propagates client cfg sha fuel st Hres)
      as (Hsave & _).
    rewrite (Hsave memory user_id session_id memory_type tags redact Hne Hle)
      in Hrun.
    discriminate Hrun.
  - unfold save_memory in Hrun.
    apply truthy_str_true in Hne. rewrite Hne in Hrun.
    change (negb true) with false in Hrun. cbv iota in Hrun.
    assert (Hgt : (len memory >? MAX_MEMORY_CHARS cfg)%Z = false).
    { destruct (len memory >? MAX_MEMORY_CHARS cfg)%Z eqn:E; [| reflexivity].
      apply Z.gtb_gt in E. lia. }
    rewrite Hgt in Hrun. unfold bind at 1 in Hrun. cbv beta in Hrun.
    rewrite Hres in Hrun. discriminate Hrun.
Qed.

Lemma save_reports_what_was_stored_witness :
  exists new vsid uploaded filename file_id attributes,
    events_since Stub.start
      (snd (save_memory (Stub.client Stub.happy) Stub.cfg Stub.sha
                        "my token: abc123" "u1" None "note" None None 3
                        Stub.start))
    = new ++ [{| ev_call := CUpload vsid uploaded filename;
                 ev_answer := Returned (Some file_id) |};
              {| ev_call := CUpdate vsid file_id attributes;
                 ev_answer := Returned None |}]
    /\ dict_get attributes "redacted" = Some (VBool true).
Proof.
  destruct (@save_reports_what_was_stored
              _ (Stub.client Stub.happy) Stub.cfg Stub.sha
              "my token: abc123" "u1" None "note" None None 3 Stub.start
              [("status", VStr "saved"); ("vector_store_id", VStr "vs_1");
               ("file_id", VStr "file_1");
               ("sha256", VStr (Stub.sha "my [REDACTED]"));
               ("attributes",
                VDict [("user_id", VStr "u1"); ("type", VStr "note");
                       ("timestamp_utc", VStr "2024-01-01T00:00:00+00:00");
                       ("sha256", VStr (Stub.sha "my [REDACTED]"));
                       ("redacted", VBool true)])]
              (snd (save_memory (Stub.client Stub.happy) Stub.cfg Stub.sha
                                "my token: abc123" "u1" None "note" None None 3
                                Stub.start))
              ltac:(vm_compute; reflexivity) eq_refl)
    as (new & vsid & uploaded & filename & file_id & attributes
        & Hev & _ & _ & _ & _ & _ & _ & Hred & _).
  exists new, vsid, uploaded, filename, file_id, attributes.
  split; [exact Hev | exact Hred].
Defined.

(* ------------------------------------------------------------------ *)
(** ** What [search_memory] sends and returns *)

Lemma bounded_clamp (lo hi x : Z) :
  (lo <= hi)%Z -> Z.max lo (Z.min x hi) = bounded lo hi x.
Proof.
  intros H. unfold bounded.
  destruct (Z.ltb_spec x lo); [lia |].
  destruct (Z.ltb_spec hi x); lia.
Qed.

Lemma store_call_shape (c : Call) :
  is_store_call c = true ->
  (exists limit after, c = CStoresList limit after)
  \/ (exists name, c = CStoresCreate name).
Proof.
  destruct c; simpl; intros H; try discriminate H.
  - left. eexists. eexists. reflexivity.
  - right. eexists. reflexivity.
Qed.

(** X14.  Whatever the inputs and the replies of the remote service,
    [search_memory] sends, besides the calls of the resolver, only
    search calls, at most two of them, and each carries the resolved
    collection, the caller's query unchanged, the caller's rewrite
    flag, and [max_results] brought into the range 1..50. *)
Theorem search_call_arguments :
  forall (W : Type) (client : Client W) (cfg : Config)
         query user_id session_id memory_type tags max_results rewrite_query
         return_full_items fuel (st : State W) out st2,
    search_memory client cfg query user_id session_id memory_type tags
                  max_results rewrite_query return_full_items fuel st
    = (out, st2) ->
    (forall c,
        In c (issued_since st st2) ->
        (exists limit after, c = CStoresList limit after)
        \/ (exists name, c = CStoresCreate name)
        \/ (exists kw vsid flt,
               c = CSearch kw vsid query (bounded 1 50 max_results)
                           rewrite_query flt
               /\ cache st2 = Some vsid))
    /\ length (filter (fun c => negb (is_store_call c)) (issued_since st st2)) <= 2.
Proof.
  intros W client cfg query user_id session_id memory_type tags max_results
         rewrite_query full fuel st out st2 Hrun.
  assert (Hstore : forall new : list Event,
             Forall (fun ev => is_store_call (ev_call ev) = true) new ->
             filter (fun c => negb (is_store_call c)) (map ev_call new) = []).
  { intros new Hall. induction Hall as [| ev new Hev _ IH]; simpl; [reflexivity |].
    rewrite Hev. simpl. exact IH. }
  assert (Honly : forall new : list Event,
             Forall (fun ev => is_store_call (ev_call ev) = true) new ->
             forall c, In c (map ev_call new) ->
                       (exists limit after, c = CStoresList limit after)
                       \/ (exists name, c = CStoresCreate name)).
  { intros new Hall c Hin. apply in_map_iff in Hin.
    destruct Hin as (ev & <- & Hin). rewrite Forall_forall in Hall.
    apply store_call_shape. apply Hall. exact Hin. }
  destruct (string_dec (strip query) EmptyString) as [He | Hne].
  { rewrite (search_memory_invalid client cfg query user_id session_id
               memory_type tags max_results rewrite_query full fuel st He) in Hrun.
    inversion Hrun; subst. rewrite issued_since_self. split.
    - intros c [].
    - simpl. lia. }
  destruct (_get_or_create_vector_store_id client cfg fuel st)
    as [r st1] eqn:Hres.
  destruct (resolve_resolved client cfg fuel st Hres)
    as (new & Hnew & Hall & _ & _ & Hcache).
  assert (Hstop : st2 = st1 ->
                  (forall c,
                      In c (issued_since st st2) ->
                      (exists limit after, c = CStoresList limit after)
                      \/ (exists name, c = CStoresCreate name)
                      \/ (exists kw vsid flt,
                             c = CSearch kw vsid query (bounded 1 50 max_results)
                                         rewrite_query flt
                             /\ cache st2 = Some vsid))
                  /\ length (filter (fun c => negb (is_store_call c))
                                    (issued_since st st2)) <= 2).
  { intros ->. rewrite (issued_since_app st st1 new Hnew). split.
    - intros c Hin. destruct (Honly new Hall c Hin) as [H | H]; auto.
    - rewrite (Hstore new Hall). simpl. lia. }
  destruct r as [vsid | e |].
  - destruct (vector_stores_search client filters_kw vsid query
                (Z.max 1 (Z.min max_results 50)) rewrite_query
                (_build_attribute_filter (Some user_id) session_id tags memory_type)
                (world st1)) as [r1 w1] eqn:Hprim.
    destruct (search_memory_attempts client cfg query user_id session_id
                memory_type tags max_results rewrite_query full fuel st
                Hne Hres Hprim Hrun) as [Hc2 Hcases].
    rewrite (@bounded_clamp 1%Z 50%Z max_results) in Hcases by lia.
    assert (Hlog : exists evs,
               calls st2 = calls st1 ++ evs
               /\ length evs <= 2
               /\ Forall (fun ev => exists kw flt,
                              ev_call ev
                              = CSearch kw vsid query (bounded 1 50 max_results)
                                        rewrite_query flt) evs).
    { destruct r1 as [res | [msg | msg | msg]].
      - destruct Hcases as (Hc & _). eexists. split; [exact Hc |].
        split; [simpl; lia |].
        repeat constructor. simpl. eexists. eexists. reflexivity.
      - destruct Hcases as (r2 & _ & _ & Hc).
        destruct r2; destruct Hc as [Hc _]; eexists; (split; [exact Hc |]);
          (split; [simpl; lia |]);
          repeat constructor; simpl; eexists; eexists; reflexivity.
      - destruct Hcases as (Hc & _). eexists. split; [exact Hc |].
        split; [simpl; lia |].
        repeat constructor. simpl. eexists. eexists. reflexivity.
      - destruct Hcases as (Hc & _). eexists. split; [exact Hc |].
        split; [simpl; lia |].
        repeat constructor. simpl. eexists. eexists. reflexivity. }
    destruct Hlog as (evs & Hevs & Hlen & Hshape).
    rewrite (issued_since_trans st st1 st2 new evs Hnew Hevs). split.
    + intros c Hin. apply in_app_or in Hin. destruct Hin as [Hin | Hin].
      * destruct (Honly new Hall c Hin) as [H | H]; auto.
      * right. right. apply in_map_iff in Hin.
        destruct Hin as (ev & <- & Hin). rewrite Forall_forall in Hshape.
        destruct (Hshape ev Hin) as (kw & flt & Hev).
        exists kw, vsid, flt. split; [exact Hev |].
        rewrite Hc2. exact Hcache.
    + rewrite filter_app, (Hstore new Hall). cbn [app].
      pose proof (filter_length_le (fun c => negb (is_store_call c))
                                   (map ev_call evs)) as Hf.
      rewrite length_map in Hf. lia.
  - apply Hstop.
    destruct (resolver_failure_propagates client cfg (fun s => s) fuel st Hres)
      as (_ & Hsearch & _).
    rewrite (Hsearch query user_id session_id memory_type tags max_results
                     rewrite_query full Hne) in Hrun.
    inversion Hrun. reflexivity.
  - apply Hstop. unfold search_memory in Hrun.
    apply truthy_str_true in Hne. rewrite Hne in Hrun.
    change (negb true) with false in Hrun. cbv iota in Hrun.
    unfold bind at 1 in Hrun. cbv beta in Hrun.
    rewrite Hres in Hrun. inversion Hrun. reflexivity.
Qed.

Lemma search_call_arguments_witness :
  In (CSearch attribute_filter_kw "vs_1" "dark mode" 50%Z false
              (Some (VDict [("type", VStr "eq"); ("key", VStr "user_id");
                            ("value", VStr "u1")])))
     (issued_since Stub.start
        (snd (search_memory (Stub.client Stub.old_sdk) Stub.cfg "dark mode" "u1"
                            None None None 5000%Z false false 3 Stub.start)))
  /\ length (filter (fun c => negb (is_store_call c))
                    (issued_since Stub.start
                       (snd (search_memory (Stub.client Stub.old_sdk) Stub.cfg
                                           "dark mode" "u1" None None None
                                           5000%Z false false 3 Stub.start))))
     <= 2.
Proof.
  split.
  - vm_compute. right. right. right. left. reflexivity.
  - exact (proj2 (@search_call_arguments
                    _ (Stub.client Stub.old_sdk) Stub.cfg "dark mode" "u1"
                    None None None 5000%Z false false 3 Stub.start _ _
                    (surjective_pairing _))).
Defined.

Lemma entry_texts_full_item (item : SearchItem) :
  entry_texts (full_item item) = item_texts item.
Proof. reflexivity. Qed.

Lemma flat_map_entries (items : list SearchItem) :
  flat_map entry_texts (map full_item items) = flat_map item_texts items.
Proof.
  induction items as [| item items IH]; [reflexivity |].
  cbn [map flat_map]. rewrite IH, entry_texts_full_item. reflexivity.
Qed.

(** X15.  The two result modes of [search_memory] differ in the
    [results] entry only: run from the same state with the same
    arguments, the default mode makes the same remote calls as the
    full-items mode, ends in the same state with the same outcome, and
    its [results] list is the concatenation, in order, of the
    [content_texts] of the entries the full-items mode returns; every
    other entry of the two mappings is the same. *)
Theorem search_compact_flattens_full :
  forall (W : Type) (client : Client W) (cfg : Config)
         query user_id session_id memory_type tags max_results rewrite_query
         fuel (st : State W) out st2,
    search_memory client cfg query user_id session_id memory_type tags
                  max_results rewrite_query true fuel st = (out, st2) ->
    match out with
    | Ret full =>
        exists compact,
          search_memory client cfg query user_id session_id memory_type tags
                        max_results rewrite_query false fuel st
          = (Ret compact, st2)
          /\ (forall key, key <> "results" ->
                          dict_get compact key = dict_get full key)
          /\ match dict_get full "results" with
             | Some (VList entries) =>
                 dict_get compact "results"
                 = Some (VList (flat_map entry_texts entries))
             | Some _ => False
             | None => dict_get compact "results" = None
             end
    | _ =>
        search_memory client cfg query user_id session_id memory_type tags
                      max_results rewrite_query false fuel st = (out, st2)
    end.
Proof.
  intros W client cfg query user_id session_id memory_type tags max_results
         rewrite_query fuel st out st2.
  unfold search_memory.
  destruct (negb (truthy_str (strip query))).
  { unfold ret. intros H; inversion H; subst.
    eexists. split; [reflexivity |]. split; [reflexivity |]. reflexivity. }
  unfold bind.
  destruct (_get_or_create_vector_store_id client cfg fuel st)
    as [[vsid | e |] st1]; try (intros H; inversion H; subst; reflexivity).
  destruct (try_except _ _ st1) as [[results | e |] st3];
    try (intros H; inversion H; subst; reflexivity).
  unfold ret. intros H; inversion H; subst; clear H.
  eexists. split; [reflexivity |]. split.
  - intros key Hkey. cbn [dict_get].
    destruct ("status" =? key)%string; [reflexivity |].
    destruct ("vector_store_id" =? key)%string; [reflexivity |].
    destruct ("search_query" =? key)%string; [reflexivity |].
    destruct (String.eqb_spec "results" key) as [E | _];
      [exfalso; apply Hkey; symmetry; exact E |].
    reflexivity.
  - cbn. rewrite flat_map_entries. reflexivity.
Qed.

Lemma search_compact_flattens_full_witness :
  exists compact,
    search_memory (Stub.client search_hits) Stub.cfg "dark mode" "u1" None None
                  None 8%Z true false 3 Stub.start
    = (Ret compact,
       snd (search_memory (Stub.client search_hits) Stub.cfg "dark mode" "u1"
                          None None None 8%Z true true 3 Stub.start))
    /\ dict_get compact "results" = Some (VList [VStr "likes dark mode"])
    /\ dict_get compact "search_query" = Some (VStr "dark mode preference").
Proof.
  pose proof (@search_compact_flattens_full
                _ (Stub.client search_hits) Stub.cfg "dark mode" "u1" None None
                None 8%Z true 3 Stub.start
                (Ret [("status", VStr "ok"); ("vector_store_id", VStr "vs_1");
                      ("search_query", VStr "dark mode preference");
                      ("results",
                       VList [VDict [("file_id", VStr "file_1");
                                     ("filename", VStr "memory_u1_1.txt");
                                     ("score", VInt 1);
                                     ("attributes", VNone);
                                     ("content_texts",
                                      VList [VStr "likes dark mode"])]]);
                      ("has_more", VBool false)])
                _ ltac:(vm_compute; reflexivity)) as H.
  cbv beta iota in H. destruct H as (compact & Hrun & Hsame & Hres).
  exists compact. split; [exact Hrun |]. split; [exact Hres |].
  rewrite Hsame by discriminate. reflexivity.
Defined.

(* ------------------------------------------------------------------ *)
(** ** The remote calls of a listing *)

Section ListingCalls.
Context {W : Type}.
Variable client : Client W.
Variable cfg : Config.

Lemma retrieve_events_calls vsid (files : list FileRef) :
  map ev_call (retrieve_events vsid files)
  = map (fun f => CRetrieve vsid (file_ref_id f)) files.
Proof.
  unfold retrieve_events. rewrite map_map. reflexivity.
Qed.

Lemma kept_items_all user_id (details : list FileDetail) :
  user_id = None \/ user_id = Some EmptyString ->
  kept_items user_id details = map listing_entry details.
Proof.
  intros Hu. unfold kept_items. f_equal.
  induction details as [| d details IH]; [reflexivity |].
  cbn [filter]. rewrite IH.
  destruct Hu as [-> | ->]; reflexivity.
Qed.

(** The loop stops at the first document that cannot be fetched. *)
Lemma collect_items_aborts vsid user_id (fetched : list FileRef) :
  forall items (st : State W) details w' f rest e w'',
    retrieved client vsid fetched (world st) details w' ->
    files_retrieve client vsid (file_ref_id f) w' = (Err e, w'') ->
    collect_items client vsid user_id (fetched ++ f :: rest) items st
    = (Raise e,
       {| cache := cache st; world := w'';
          calls := calls st ++ retrieve_events vsid fetched
                   ++ [{| ev_call := CRetrieve vsid (file_ref_id f);
                          ev_answer := Raised e |}] |}).
Proof.
  induction fetched as [| g fetched IH];
    intros items st details w' f rest e w'' Hr Hf;
    inversion Hr as [| g0 gs w detail w1 ds w2 Hd Hrest]; subst.
  - cbn [app collect_items]. unfold bind at 1. unfold remote at 1.
    rewrite Hf. reflexivity.
  - cbn [app collect_items]. unfold bind at 1. unfold remote at 1.
    rewrite Hd. cbv beta iota.
    destruct (skipped user_id (attrs_of detail));
      erewrite IH by (cbn [world]; eassumption);
      cbn [cache world calls retrieve_events map];
      rewrite <- app_assoc; reflexivity.
Qed.
End ListingCalls.

(** X16.  [list_memories], once the collection is resolved: it asks for
    one page of documents, with [limit] brought into the range 1..100
    and the status filter as given, and then fetches every document of
    the page, one call each, in page order.  When all fetches succeed
    and no [user_id] is asked for (absent or empty), every document of
    the page is listed and [count] is the size of the page. *)
Theorem list_fetches_every_document :
  forall (W : Type) (client : Client W) (cfg : Config)
         user_id limit status_filter fuel (st : State W) vsid st1 page w1
         details w2,
    _get_or_create_vector_store_id client cfg fuel st = (Ret vsid, st1) ->
    files_list client vsid (bounded 1 100 limit) status_filter (world st1)
    = (Ok page, w1) ->
    retrieved client vsid (data page) w1 details w2 ->
    exists d st2,
      list_memories client cfg user_id limit status_filter fuel st = (Ret d, st2)
      /\ world st2 = w2
      /\ cache st2 = cache st1
      /\ issued_since st1 st2
         = CFilesList vsid (bounded 1 100 limit) status_filter
           :: map (fun f => CRetrieve vsid (file_ref_id f)) (data page)
      /\ dict_get d "vector_store_id" = Some (VStr vsid)
      /\ (user_id = None \/ user_id = Some EmptyString ->
          dict_get d "count" = Some (VInt (Z.of_nat (length (data page))))
          /\ dict_get d "items" = Some (VList (map listing_entry details))).
Proof.
  intros W client cfg user_id limit status_filter fuel st vsid st1 page w1
         details w2 Hres Hlist Hr.
  rewrite <- (@bounded_clamp 1%Z 100%Z limit) in * by lia.
  unfold list_memories.
  unfold bind at 1. cbv beta. rewrite Hres. cbv beta iota.
  unfold bind at 1. unfold remote at 1. rewrite Hlist. cbv beta iota.
  unfold bind at 1.
  erewrite collect_items_retrieved by (cbn [world]; exact Hr).
  unfold ret. eexists. eexists. split; [reflexivity |].
  cbn [world cache calls].
  split; [reflexivity |]. split; [reflexivity |]. split.
  { erewrite issued_since_app
      by (cbn [calls]; rewrite <- app_assoc; reflexivity).
    cbn [map app ev_call]. rewrite retrieve_events_calls. reflexivity. }
  split; [reflexivity |].
  intros Hu. cbn [app]. rewrite (kept_items_all details Hu).
  split; [| reflexivity].
  cbn [dict_get String.eqb Ascii.eqb Bool.eqb]. rewrite length_map.
  rewrite (retrieved_length Hr). reflexivity.
Qed.

Lemma list_fetches_every_document_witness :
  exists d st2,
    list_memories (Stub.client Stub.two_users) Stub.cfg None 0%Z
                  (Some "completed") 3 Stub.start = (Ret d, st2)
    /\ issued_since
         (snd (_get_or_create_vector_store_id (Stub.client Stub.two_users)
                                              Stub.cfg 3 Stub.start)) st2
       = [CFilesList "vs_1" 1%Z (Some "completed");
          CRetrieve "vs_1" "file_1"; CRetrieve "vs_1" "file_2"]
    /\ dict_get d "count" = Some (VInt 2).
Proof.
  destruct (@list_fetches_every_document
              _ (Stub.client Stub.two_users) Stub.cfg None 0%Z
              (Some "completed") 3 Stub.start "vs_1" _ _ 3
              [Stub.detail_of "u1" "file_1"; Stub.detail_of "u2" "file_2"] 5
              (surjective_pairing _) eq_refl)
    as (d & st2 & Hrun & _ & _ & Hcalls & _ & Hall).
  - apply retrieved_cons with (w1 := 4); [reflexivity |].
    apply retrieved_cons with (w1 := 5); [reflexivity |].
    apply retrieved_nil.
  - exists d, st2. split; [exact Hrun |]. split; [exact Hcalls |].
    exact (proj1 (Hall (or_introl eq_refl))).
Defined.

(** X17.  One document that cannot be fetched loses the whole listing:
    when the fetch of a document of the page raises [e], [list_memories]
    raises [e] out of the tool, after the fetches of the documents
    before it and without fetching the ones after it; nothing of the
    documents already fetched is returned. *)
Theorem list_aborts_on_failed_fetch :
  forall (W : Type) (client : Client W) (cfg : Config)
         user_id limit status_filter fuel (st : State W) vsid st1 page w1
         fetched f rest details w2 e w3,
    _get_or_create_vector_store_id client cfg fuel st = (Ret vsid, st1) ->
    files_list client vsid (bounded 1 100 limit) status_filter (world st1)
    = (Ok page, w1) ->
    data page = fetched ++ f :: rest ->
    retrieved client vsid fetched w1 details w2 ->
    files_retrieve client vsid (file_ref_id f) w2 = (Err e, w3) ->
    exists st2,
      list_memories client cfg user_id limit status_filter fuel st = (Raise e, st2)
      /\ world st2 = w3
      /\ cache st2 = cache st1
      /\ issued_since st1 st2
         = CFilesList vsid (bounded 1 100 limit) status_filter
           :: map (fun g => CRetrieve vsid (file_ref_id g)) (fetched ++ [f]).
Proof.
  intros W client cfg user_id limit status_filter fuel st vsid st1 page w1
         fetched f rest details w2 e w3 Hres Hlist Hd Hr Hf.
  rewrite <- (@bounded_clamp 1%Z 100%Z limit) in * by lia.
  unfold list_memories.
  unfold bind at 1. cbv beta. rewrite Hres. cbv beta iota.
  unfold bind at 1. unfold remote at 1. rewrite Hlist. cbv beta iota.
  unfold bind at 1. rewrite Hd.
  erewrite collect_items_aborts by (cbn [world]; eassumption).
  eexists. split; [reflexivity |]. cbn [world cache calls].
  split; [reflexivity |]. split; [reflexivity |].
  erewrite issued_since_app
    by (cbn [calls]; rewrite <- app_assoc; reflexivity).
  cbn [map app ev_call]. rewrite map_app, retrieve_events_calls, map_app.
  reflexivity.
Qed.

Lemma list_aborts_on_failed_fetch_witness :
  exists st2,
    list_memories (Stub.client second_fetch_fails) Stub.cfg None 20%Z
                  (Some "completed") 3 Stub.start
    = (Raise (OtherError "404 file not found"), st2)
    /\ issued_since
         (snd (_get_or_create_vector_store_id (Stub.client second_fetch_fails)
                                              Stub.cfg 3 Stub.start)) st2
       = [CFilesList "vs_1" 20%Z (Some "completed");
          CRetrieve "vs_1" "file_1"; CRetrieve "vs_1" "file_2"].
Proof.
  destruct (@list_aborts_on_failed_fetch
              _ (Stub.client second_fetch_fails) Stub.cfg None 20%Z
              (Some "completed") 3 Stub.start "vs_1" _ _ 3
              [{| file_ref_id := "file_1" |}] {| file_ref_id := "file_2" |} []
              [Stub.detail_of "u1" "file_1"] 4
              (OtherError "404 file not found") 5
              (surjective_pairing _) eq_refl eq_refl)
    as (st2 & Hrun & _ & _ & Hcalls).
  - apply retrieved_cons with (w1 := 4); [reflexivity |].
    apply retrieved_nil.
  - reflexivity.
  - exists st2. split; [exact Hrun | exact Hcalls].
Defined.

(* ------------------------------------------------------------------ *)
(** ** Reading the parsed content of a document *)

Lemma text_chunks_fails (cs : list pyval) :
  (exists c, In c cs /\ forall d, c <> VDict d) ->
  exists msg, text_chunks cs = Err (AttributeError msg).
Proof.
  assert (Hany : forall cs, (exists msg, text_chunks cs = Err (AttributeError msg))
                            \/ exists ts, text_chunks cs = Ok ts).
  { clear cs. induction cs as [| c cs IH]; [right; eexists; reflexivity |].
    cbn [text_chunks].
    destruct c as [| b | z | s | l | d];
      try (left; eexists; reflexivity).
    cbn [py_get].
    destruct (py_eq_str (dict_get d "type") "text").
    - destruct IH as [(msg & ->) | (ts & ->)];
        [left; eexists; reflexivity | right; eexists; reflexivity].
    - exact IH. }
  induction cs as [| c cs IH]; intros (bad & Hin & Hbad); [destruct Hin |].
  cbn [text_chunks].
  destruct c as [| b | z | s | l | d];
    try (eexists; reflexivity).
  cbn [py_get].
  destruct Hin as [<- | Hin]; [exfalso; apply (Hbad d); reflexivity |].
  destruct (IH (ex_intro _ bad (conj Hin Hbad))) as (msg & ->).
  destruct (py_eq_str (dict_get d "type") "text"); eexists; reflexivity.
Qed.

Lemma text_chunks_mappings (chunks : list pydict) :
  text_chunks (map VDict chunks)
  = Ok (map text_of_chunk (filter is_text_chunk chunks)).
Proof.
  induction chunks as [| c chunks IH]; [reflexivity |].
  cbn [map text_chunks py_get filter]. rewrite IH.
  unfold is_text_chunk, py_eq_str, text_of_chunk, opt_val.
  destruct (dict_get c "type") as [[| b | z | s | l | d] |]; try reflexivity.
  destruct (String.eqb_spec s "text") as [-> | Hs].
  - reflexivity.
  - destruct s as [| a0 s]; [reflexivity |].
    repeat (match goal with
            | |- context [match ?x with Ascii _ _ _ _ _ _ _ _ => _ end] =>
                destruct x as [[] [] [] [] [] [] [] []]
            | |- context [match ?x with EmptyString => _ | String _ _ => _ end] =>
                destruct x
            end; try reflexivity; try (exfalso; apply Hs; reflexivity)).
Qed.

(** X18.  In [get_memory_content], once the collection is resolved and
    the metadata fetched, a reply of the content call that is not a
    mapping - or whose [content] list holds an element that is not a
    mapping - is reported with the fixed message about an SDK that does
    not expose the content method, exactly like an [AttributeError]
    raised by the call itself; the error mapping carries the collection,
    the [file_id] and the attributes of the document. *)
Theorem get_content_reports_capability_gap :
  forall (W : Type) (client : Client W) (cfg : Config) file_id fuel
         (st : State W) vsid st1 detail w1 reply w2,
    _get_or_create_vector_store_id client cfg fuel st = (Ret vsid, st1) ->
    files_retrieve client vsid file_id (world st1) = (Ok detail, w1) ->
    files_content client vsid file_id w1 = (reply, w2) ->
    (exists msg, reply = Err (AttributeError msg))
    \/ (exists obj, reply = Ok obj /\ forall d, obj <> VDict d)
    \/ (exists body chunks c,
           reply = Ok (VDict body)
           /\ dict_get body "content" = Some (VList chunks)
           /\ In c chunks /\ forall d, c <> VDict d) ->
    exists st2,
      get_memory_content client cfg file_id fuel st
      = (Ret [("status", VStr "error");
              ("error", VStr MSG_NO_CONTENT_METHOD);
              ("vector_store_id", VStr vsid);
              ("file_id", VStr file_id);
              ("attributes",
               VDict (match fd_attributes detail with
                      | Some attrs => attrs
                      | None => []
                      end))], st2)
      /\ world st2 = w2
      /\ issued_since st1 st2
         = [CRetrieve vsid file_id; CContent vsid file_id].
Proof.
  intros W client cfg file_id fuel st vsid st1 detail w1 reply w2
         Hres Hret Hcontent Hbad.
  assert (Hattrs : attrs_of detail
                   = match fd_attributes detail with
                     | Some attrs => attrs
                     | None => []
                     end).
  { unfold attrs_of. destruct (fd_attributes detail) as [[| kv a] |]; reflexivity. }
  unfold get_memory_content.
  unfold bind at 1. cbv beta. rewrite Hres. cbv beta iota.
  unfold bind at 1. unfold remote at 1. rewrite Hret. cbv beta iota.
  rewrite Hattrs.
  unfold try_except, bind, remote, lift, ret. cbn [world cache calls].
  rewrite Hcontent.
  assert (Hparse : forall obj, reply = Ok obj ->
                               exists msg, content_texts obj = Err (AttributeError msg)).
  { intros obj ->.
    destruct Hbad as [(msg & H) | [(obj' & H & Hnot) | (body & chunks & c & H & Hc & Hin & Hnot)]].
    - discriminate H.
    - inversion H; subst obj'.
      destruct obj as [| b | z | s | l | d];
        try (eexists; reflexivity).
      exfalso. apply (Hnot d). reflexivity.
    - inversion H; subst obj. unfold content_texts. cbn [py_get]. rewrite Hc.
      cbn [py_iter].
      destruct (text_chunks_fails chunks (ex_intro _ c (conj Hin Hnot)))
        as (msg & ->).
      eexists. reflexivity. }
  destruct reply as [obj | e].
  - destruct (Hparse obj eq_refl) as (msg & ->).
    eexists. split; [reflexivity |]. cbn [world calls]. split; [reflexivity |].
    erewrite issued_since_app
      by (cbn [calls]; rewrite <- app_assoc; reflexivity).
    reflexivity.
  - destruct Hbad as [(msg & H) | [(obj' & H & _) | (body & chunks & c & H & _)]];
      try discriminate H.
    inversion H; subst e.
    eexists. split; [reflexivity |]. cbn [world calls]. split; [reflexivity |].
    erewrite issued_since_app
      by (cbn [calls]; rewrite <- app_assoc; reflexivity).
    reflexivity.
Qed.

Lemma get_content_reports_capability_gap_witness :
  exists st2,
    get_memory_content (Stub.client content_is_list) Stub.cfg "file_1" 3
                       Stub.start
    = (Ret [("status", VStr "error");
            ("error", VStr MSG_NO_CONTENT_METHOD);
            ("vector_store_id", VStr "vs_1");
            ("file_id", VStr "file_1");
            ("attributes", VDict [("user_id", VStr "u1")])], st2).
Proof.
  destruct (@get_content_reports_capability_gap
              _ (Stub.client content_is_list) Stub.cfg "file_1" 3 Stub.start
              "vs_1" _ (Stub.detail_of "u1" "file_1") 3
              (Ok (VList [VStr "likes dark mode"])) 4
              (surjective_pairing _) eq_refl eq_refl)
    as (st2 & Hrun & _).
  - right. left. eexists. split; [reflexivity | discriminate].
  - exists st2. exact Hrun.
Defined.

(** X19.  In [get_memory_content], once the collection is resolved and
    the metadata fetched, a content reply that is a mapping whose
    [content] is a list of mappings gives [status = ok] with, as
    [content_texts], the [text] of the chunks typed [text], in order,
    without the empty ones; a reply without a [content] entry gives an
    empty list. *)
Theorem get_content_returns_texts :
  forall (W : Type) (client : Client W) (cfg : Config) file_id fuel
         (st : State W) vsid st1 detail w1 body w2 chunks,
    _get_or_create_vector_store_id client cfg fuel st = (Ret vsid, st1) ->
    files_retrieve client vsid file_id (world st1) = (Ok detail, w1) ->
    files_content client vsid file_id w1 = (Ok (VDict body), w2) ->
    dict_get body "content" = Some (VList (map VDict chunks))
    \/ (dict_get body "content" = None /\ chunks = []) ->
    exists st2,
      get_memory_content client cfg file_id fuel st
      = (Ret [("status", VStr "ok");
              ("vector_store_id", VStr vsid);
              ("file_id", VStr file_id);
              ("attributes",
               VDict (match fd_attributes detail with
                      | Some attrs => attrs
                      | None => []
                      end));
              ("content_texts",
               VList (filter truthy
                        (map text_of_chunk (filter is_text_chunk chunks))))],
         st2)
      /\ world st2 = w2
      /\ issued_since st1 st2
         = [CRetrieve vsid file_id; CContent vsid file_id].
Proof.
  intros W client cfg file_id fuel st vsid st1 detail w1 body w2 chunks
         Hres Hret Hcontent Hbody.
  assert (Hattrs : attrs_of detail
                   = match fd_attributes detail with
                     | Some attrs => attrs
                     | None => []
                     end).
  { unfold attrs_of. destruct (fd_attributes detail) as [[| kv a] |]; reflexivity. }
  assert (Hparse : content_texts (VDict body)
                   = Ok (filter truthy
                           (map text_of_chunk (filter is_text_chunk chunks)))).
  { unfold content_texts. cbn [py_get].
    destruct Hbody as [-> | [-> ->]]; cbn [py_iter].
    - rewrite text_chunks_mappings. reflexivity.
    - reflexivity. }
  unfold get_memory_content.
  unfold bind at 1. cbv beta. rewrite Hres. cbv beta iota.
  unfold bind at 1. unfold remote at 1. rewrite Hret. cbv beta iota.
  rewrite Hattrs.
  unfold try_except, bind, remote, lift, ret. cbn [world cache calls].
  rewrite Hcontent, Hparse.
  eexists. split; [reflexivity |]. cbn [world calls]. split; [reflexivity |].
  erewrite issued_since_app
    by (cbn [calls]; rewrite <- app_assoc; reflexivity).
  reflexivity.
Qed.

Lemma get_content_returns_texts_witness :
  exists st2,
    get_memory_content (Stub.client content_chunks) Stub.cfg "file_1" 3
                       Stub.start
    = (Ret [("status", VStr "ok");
            ("vector_store_id", VStr "vs_1");
            ("file_id", VStr "file_1");
            ("attributes", VDict [("user_id", VStr "u1")]);
            ("content_texts", VList [VStr "likes dark mode"])], st2).
Proof.
  destruct (@get_content_returns_texts
              _ (Stub.client content_chunks) Stub.cfg "file_1" 3 Stub.start
              "vs_1" _ (Stub.detail_of "u1" "file_1") 3 _ 4
              [[("type", VStr "text"); ("text", VStr "likes dark mode")];
               [("type", VStr "image"); ("text", VStr "n/a")];
               [("type", VStr "text"); ("text", VStr EmptyString)]]
              (surjective_pairing _) eq_refl eq_refl)
    as (st2 & Hrun & _).
  - left. reflexivity.
  - exists st2. exact Hrun.
Defined.

(** X20.  [delete_memory], once the collection is resolved, never
    raises: it makes exactly one delete call, for the resolved
    collection and the given [file_id], and its result always echoes
    both; when the call succeeds the status is [ok] and [deleted] is the
    flag of the reply, [True] when the reply has none. *)
Theorem delete_memory_outcome :
  forall (W : Type) (client : Client W) (cfg : Config) file_id fuel
         (st : State W) vsid st1,
    _get_or_create_vector_store_id client cfg fuel st = (Ret vsid, st1) ->
    exists d st2,
      delete_memory client cfg file_id fuel st = (Ret d, st2)
      /\ issued_since st1 st2 = [CDelete vsid file_id]
      /\ cache st2 = cache st1
      /\ dict_get d "vector_store_id" = Some (VStr vsid)
      /\ dict_get d "file_id" = Some (VStr file_id)
      /\ (forall reply w2,
             files_delete client vsid file_id (world st1) = (Ok reply, w2) ->
             world st2 = w2
             /\ dict_get d "status" = Some (VStr "ok")
             /\ dict_get d "deleted"
                = Some (VBool (match deleted_flag reply with
                               | Some flag => flag
                               | None => true
                               end))).
Proof.
  intros W client cfg file_id fuel st vsid st1 Hres.
  unfold delete_memory.
  unfold bind at 1. cbv beta. rewrite Hres. cbv beta iota.
  unfold try_except, bind, remote, ret.
  destruct (files_delete client vsid file_id (world st1)) as [[deleted | e] w2];
    eexists; eexists; (split; [reflexivity |]);
    (split; [erewrite issued_since_app by reflexivity; reflexivity |]);
    repeat (split; [reflexivity |]);
    intros reply w' H; inversion H; subst.
  repeat split.
Qed.

Lemma delete_memory_outcome_witness :
  exists d st2,
    delete_memory (Stub.client Stub.happy) Stub.cfg "file_1" 3 Stub.start
    = (Ret d, st2)
    /\ dict_get d "file_id" = Some (VStr "file_1")
    /\ dict_get d "deleted" = Some (VBool true).
Proof.
  destruct (@delete_memory_outcome _ (Stub.client Stub.happy) Stub.cfg "file_1"
              3 Stub.start "vs_1" _ (surjective_pairing _))
    as (d & st2 & Hrun & _ & _ & _ & Hfid & Hok).
  exists d, st2. split; [exact Hrun |]. split; [exact Hfid |].
  exact (proj2 (proj2 (Hok {| deleted_flag := Some true |} 3 eq_refl))).
Defined.

(* ------------------------------------------------------------------ *)
(** ** Secrets the redactor is sure to remove *)

Lemma needs_sound (r : regex) (p : charset) :
  needs r p = true ->
  forall prev (s : list ascii) n,
    In n (ends r prev s) ->
    exists i c, i < n /\ nth_error s i = Some c /\ p c = true.
Proof.
  induction r as [| cs | | cs lo hi | r1 IH1 r2 IH2 | r1 IH1 r2 IH2];
    simpl; intros Hn prev s n Hin; try discriminate Hn.
  - destruct s as [| c s]; [destruct Hin |].
    destruct (cs c) eqn:E; [| destruct Hin].
    destruct Hin as [<- | []]. exists 0, c. split; [lia |].
    split; [reflexivity |].
    pose proof (all_ascii_sound _ Hn c) as H. cbv beta in H.
    rewrite E in H. exact H.
  - apply andb_prop in Hn. destruct Hn as [Hlo Hall].
    assert (Hlo' : 1 <= lo) by (destruct lo; [discriminate Hlo | lia]).
    apply in_countdown in Hin.
    pose proof (cap_le hi (run cs s)) as Hcap.
    destruct (run_consumes cs s 0) as (c & Hc & Hcs); [lia |].
    exists 0, c. split; [lia |]. split; [exact Hc |].
    pose proof (all_ascii_sound _ Hall c) as H. cbv beta in H.
    rewrite Hcs in H. exact H.
  - apply andb_prop in Hn. destruct Hn as [H1 H2].
    apply in_app_or in Hin. destruct Hin as [Hin | Hin];
      [eapply IH1 | eapply IH2]; eassumption.
  - apply in_ends_seq in Hin. destruct Hin as (n1 & n2 & -> & Hin1 & Hin2).
    apply orb_prop in Hn. destruct Hn as [Hn | Hn].
    + destruct (IH1 Hn _ _ _ Hin1) as (i & c & Hi & Hc & Hp).
      exists i, c. split; [lia | auto].
    + destruct (IH2 Hn _ _ _ Hin2) as (i & c & Hi & Hc & Hp).
      exists (n1 + i), c. split; [lia |]. split; [| exact Hp].
      rewrite nth_error_skipn in Hc. exact Hc.
Qed.

(** A pattern that needs a character the text does not have matches
    nowhere in it. *)
Lemma nomatch_without (r : regex) (p : charset) :
  needs r p = true ->
  forall (s : list ascii) prev,
    Forall (fun c => p c = false) s -> nomatch r prev s.
Proof.
  intros Hn. induction s as [| c s IH]; intros prev Hall; [exact I |].
  split.
  - destruct (ends r prev (c :: s)) as [| n l] eqn:E; [reflexivity |].
    exfalso.
    destruct (needs_sound r p Hn prev (c :: s) n) as (i & c' & _ & Hc & Hp).
    { rewrite E. left. reflexivity. }
    apply nth_error_In in Hc. rewrite Forall_forall in Hall.
    rewrite (Hall c' Hc) in Hp. discriminate Hp.
  - apply IH. inversion Hall. assumption.
Qed.

Lemma hd_seq r1 r2 prev (s : list ascii) n1 n2 :
  hd_error (ends r1 prev s) = Some n1 ->
  hd_error (ends r2 (prev_after prev s n1) (skipn n1 s)) = Some n2 ->
  hd_error (ends (Seq r1 r2) prev s) = Some (n1 + n2).
Proof.
  intros H1 H2. cbn [ends].
  destruct (ends r1 prev s) as [| a l]; [discriminate H1 |].
  simpl in H1. inversion H1; subst a. cbn [flat_map].
  destruct (ends r2 (prev_after prev s n1) (skipn n1 s)) as [| b l2];
    [discriminate H2 |].
  simpl in H2. inversion H2; subst b. reflexivity.
Qed.

Lemma hd_countdown_some lo m : lo <= m -> hd_error (countdown lo m) = Some m.
Proof.
  intros H. unfold countdown.
  replace (S m - lo) with (S (m - lo)) by lia.
  rewrite seq_S, rev_app_distr. simpl. f_equal. lia.
Qed.

Lemma run_all (cs : charset) (s : list ascii) :
  Forall (fun c => cs c = true) s -> run cs s = length s.
Proof.
  induction 1 as [| c s Hc _ IH]; simpl; [reflexivity |].
  rewrite Hc, IH. reflexivity.
Qed.

Lemma run_none (cs : charset) (s : list ascii) :
  Forall (fun c => cs c = false) s -> run cs s = 0.
Proof.
  destruct 1 as [| c s Hc _]; simpl; [reflexivity |]. rewrite Hc. reflexivity.
Qed.

Lemma class_incl (p q : charset) :
  all_ascii (fun c => implb (p c) (q c)) = true ->
  forall s : list ascii,
    Forall (fun c => p c = true) s -> Forall (fun c => q c = true) s.
Proof.
  intros H s Hs. eapply Forall_impl; [| exact Hs]. cbv beta. intros c Hc.
  pose proof (all_ascii_sound _ H c) as Hi. cbv beta in Hi.
  rewrite Hc in Hi. exact Hi.
Qed.

Lemma class_excl (p q : charset) :
  all_ascii (fun c => implb (p c) (negb (q c))) = true ->
  forall s : list ascii,
    Forall (fun c => p c = true) s -> Forall (fun c => q c = false) s.
Proof.
  intros H s Hs. eapply Forall_impl; [| exact Hs]. cbv beta. intros c Hc.
  pose proof (all_ascii_sound _ H c) as Hi. cbv beta in Hi.
  rewrite Hc in Hi. simpl in Hi. apply negb_true_iff. exact Hi.
Qed.

(** The character before the end of a non-empty run of word
    characters is a word character. *)
Lemma last_is_word prev (s : list ascii) :
  s <> [] -> Forall (fun c => is_word c = true) s ->
  is_wordo (prev_after prev s (length s)) = true.
Proof.
  intros Hne Hall. destruct s as [| c s]; [contradiction |].
  simpl length. cbn [prev_after].
  destruct (nth_error (c :: s) (length s)) as [d |] eqn:E.
  - apply nth_error_In in E. rewrite Forall_forall in Hall.
    simpl. apply Hall. exact E.
  - apply nth_error_None in E. simpl in E. lia.
Qed.

(** A match that takes the whole text leaves the marker alone. *)
Lemma redact_whole r (s : list ascii) :
  s <> [] -> match_at r None s = Some (length s) ->
  redact_with r None s = REDACTED.
Proof.
  intros Hne Hm. destruct s as [| c s]; [contradiction |].
  simpl length in Hm. rewrite redact_with_cons, Hm.
  rewrite skipn_all2 by (simpl; lia).
  rewrite redact_with_nil, app_nil_r. reflexivity.
Qed.

Lemma redact_all_cons q (pats : list regex) (s : list ascii) :
  redact_all (q :: pats) s = redact_all pats (redact_with q None s).
Proof. reflexivity. Qed.

Lemma later_passes_keep_marker :
  redact_all [pat_bearer; pat_akia; pat_api_key; pat_token] REDACTED = REDACTED
  /\ redact_all [pat_akia; pat_api_key; pat_token] REDACTED = REDACTED
  /\ redact_all [pat_api_key; pat_token] REDACTED = REDACTED.
Proof. repeat split; vm_compute; reflexivity. Qed.

Section BearerToken.
Variable token : list ascii.
Hypothesis Hne : token <> [].
Hypothesis Halnum : Forall (fun c => alnum c = true) token.

Lemma token_in_alphabet : Forall (fun c => tok_ch c = true) token.
Proof. apply (class_incl alnum tok_ch); [vm_compute; reflexivity | exact Halnum]. Qed.

Lemma token_of_words : Forall (fun c => is_word c = true) token.
Proof. apply (class_incl alnum is_word); [vm_compute; reflexivity | exact Halnum]. Qed.

Lemma token_without_space : Forall (fun c => is_space c = false) token.
Proof. apply (class_excl alnum is_space); [vm_compute; reflexivity | exact Halnum]. Qed.

Lemma token_without_colon : Forall (fun c => ch ":" c = false) token.
Proof. apply (class_excl alnum (ch ":")); [vm_compute; reflexivity | exact Halnum]. Qed.

Lemma token_tail prev :
  hd_error (ends (Seq (Rep tok_ch 1 None) (Seq (Rep (ch "=") 0 None) WordB))
                 prev token)
  = Some (length token).
Proof.
  replace (Some (length token)) with (Some (length token + 0))
    by (f_equal; lia).
  apply hd_seq.
  - cbn [ends cap]. rewrite (run_all tok_ch token_in_alphabet).
    apply hd_countdown_some. destruct token; [contradiction | simpl; lia].
  - rewrite skipn_all.
    change 0 with (0 + 0). apply hd_seq; [reflexivity |].
    cbn [ends prev_after skipn hd_error is_wordo].
    rewrite (last_is_word prev Hne token_of_words). reflexivity.
Qed.

Lemma bearer_takes_all :
  match_at pat_bearer None (chars "Bearer " ++ token)
  = Some (length (chars "Bearer " ++ token)).
Proof.
  unfold match_at, pat_bearer.
  change (length (chars "Bearer " ++ token)) with (0 + (6 + (1 + length token))).
  apply hd_seq; [reflexivity |].
  apply hd_seq; [reflexivity |].
  apply hd_seq.
  - cbn [chars list_ascii_of_string app skipn ends cap run].
    change (is_space " ") with true. cbv iota.
    rewrite (run_none is_space token_without_space). reflexivity.
  - cbn [chars list_ascii_of_string app skipn]. apply token_tail.
Qed.

Lemma text_has_no_colon :
  Forall (fun c => ch ":" c = false) (chars "Bearer " ++ token).
Proof.
  apply Forall_app. split; [| exact token_without_colon].
  repeat constructor.
Qed.

Lemma bearer_token_chars :
  redact_chars (chars "Bearer " ++ token) = REDACTED.
Proof.
  unfold redact_chars, _SECRET_PATTERNS.
  rewrite !redact_all_cons.
  rewrite (nomatch_fixed pat_authorization _ None
             (@nomatch_without pat_authorization (ch ":")
                ltac:(vm_compute; reflexivity) _ None text_has_no_colon)).
  rewrite (redact_whole pat_bearer);
    [| discriminate | apply bearer_takes_all].
  rewrite <- !redact_all_cons. apply later_passes_keep_marker.
Qed.

Lemma authorization_takes_all :
  match_at pat_authorization None (chars "Authorization: Bearer " ++ token)
  = Some (length (chars "Authorization: Bearer " ++ token)).
Proof.
  unfold match_at, pat_authorization.
  change (length (chars "Authorization: Bearer " ++ token))
    with (0 + (14 + (1 + (6 + (1 + length token))))).
  apply hd_seq; [reflexivity |].
  apply hd_seq; [reflexivity |].
  apply hd_seq; [reflexivity |].
  apply hd_seq; [reflexivity |].
  apply hd_seq.
  - cbn [chars list_ascii_of_string app skipn ends cap run].
    change (is_space " ") with true. cbv iota.
    rewrite (run_none is_space token_without_space). reflexivity.
  - cbn [chars list_ascii_of_string app skipn]. apply token_tail.
Qed.

Lemma authorization_header_chars :
  redact_chars (chars "Authorization: Bearer " ++ token) = REDACTED.
Proof.
  unfold redact_chars, _SECRET_PATTERNS.
  rewrite !redact_all_cons.
  rewrite (redact_whole pat_authorization);
    [| discriminate | apply authorization_takes_all].
  rewrite <- !redact_all_cons. apply later_passes_keep_marker.
Qed.
End BearerToken.

Section AccessKey.
Variable key : list ascii.
Hypothesis Hlen : length key = 16.
Hypothesis Hclass : Forall (fun c => capital_or_digit c = true) key.

Lemma key_in_alphabet : Forall (fun c => akia_ch c = true) key.
Proof.
  apply (class_incl capital_or_digit akia_ch);
    [vm_compute; reflexivity | exact Hclass].
Qed.

Lemma key_of_words : Forall (fun c => is_word c = true) key.
Proof.
  apply (class_incl capital_or_digit is_word);
    [vm_compute; reflexivity | exact Hclass].
Qed.

Lemma key_without_space : Forall (fun c => is_space c = false) key.
Proof.
  apply (class_excl capital_or_digit is_space);
    [vm_compute; reflexivity | exact Hclass].
Qed.

Lemma key_without_colon : Forall (fun c => ch ":" c = false) key.
Proof.
  apply (class_excl capital_or_digit (ch ":"));
    [vm_compute; reflexivity | exact Hclass].
Qed.

Lemma akia_takes_all :
  match_at pat_akia None (chars "AKIA" ++ key)
  = Some (length (chars "AKIA" ++ key)).
Proof.
  unfold match_at, pat_akia.
  assert (Hl : length (chars "AKIA" ++ key) = 0 + (4 + (16 + 0))).
  { rewrite length_app, Hlen. reflexivity. }
  rewrite Hl.
  apply hd_seq; [reflexivity |].
  apply hd_seq; [reflexivity |].
  apply hd_seq.
  - change (skipn 4 (skipn 0 (chars "AKIA" ++ key))) with key.
    cbn [ends cap].
    rewrite (run_all akia_ch key_in_alphabet), Hlen.
    apply hd_countdown_some. simpl. lia.
  - change (skipn 4 (skipn 0 (chars "AKIA" ++ key))) with key.
    rewrite <- Hlen. rewrite skipn_all.
    cbn [ends hd_error is_wordo].
    rewrite (@last_is_word _ key); [reflexivity | | exact key_of_words].
    intros E. rewrite E in Hlen. discriminate Hlen.
Qed.

Lemma akia_key_chars : redact_chars (chars "AKIA" ++ key) = REDACTED.
Proof.
  assert (Hcolon : Forall (fun c => ch ":" c = false) (chars "AKIA" ++ key)).
  { apply Forall_app. split; [repeat constructor | exact key_without_colon]. }
  assert (Hspace : Forall (fun c => is_space c = false) (chars "AKIA" ++ key)).
  { apply Forall_app. split; [repeat constructor | exact key_without_space]. }
  unfold redact_chars, _SECRET_PATTERNS.
  rewrite !redact_all_cons.
  rewrite (nomatch_fixed pat_authorization _ None
             (@nomatch_without pat_authorization (ch ":")
                ltac:(vm_compute; reflexivity) _ None Hcolon)).
  rewrite (nomatch_fixed pat_bearer _ None
             (@nomatch_without pat_bearer is_space
                ltac:(vm_compute; reflexivity) _ None Hspace)).
  rewrite (redact_whole pat_akia);
    [| discriminate | apply akia_takes_all].
  rewrite <- !redact_all_cons. apply later_passes_keep_marker.
Qed.
End AccessKey.

(** X21.  A bearer token on its own is always removed: for every
    non-empty token of ASCII letters and digits, [_redact_secrets]
    turns ["Bearer <token>"], and the header
    ["Authorization: Bearer <token>"], into the marker ["[REDACTED]"],
    with nothing of the token left. *)
Theorem bearer_token_is_redacted :
  forall token : string,
    token <> EmptyString ->
    Forall (fun c => alnum c = true) (chars token) ->
    _redact_secrets ("Bearer " ++ token) = "[REDACTED]"
    /\ _redact_secrets ("Authorization: Bearer " ++ token) = "[REDACTED]".
Proof.
  intros token Hne Hall.
  assert (Hne' : chars token <> []).
  { destruct token; [contradiction | discriminate]. }
  unfold _redact_secrets. split.
  - assert (Hc : chars ("Bearer " ++ token) = chars "Bearer " ++ chars token)
      by reflexivity.
    rewrite Hc, bearer_token_chars; [reflexivity | exact Hne' | exact Hall].
  - assert (Hc : chars ("Authorization: Bearer " ++ token)
                 = chars "Authorization: Bearer " ++ chars token)
      by reflexivity.
    rewrite Hc, authorization_header_chars;
      [reflexivity | exact Hne' | exact Hall].
Qed.

Lemma bearer_token_is_redacted_witness :
  _redact_secrets "Bearer abc123" = "[REDACTED]"
  /\ _redact_secrets "Authorization: Bearer abc123" = "[REDACTED]".
Proof.
  apply (@bearer_token_is_redacted "abc123").
  - discriminate.
  - repeat constructor.
Defined.

(** X22.  An AWS access key id on its own is always removed: for every
    key of 16 ASCII capitals and digits, [_redact_secrets] turns
    ["AKIA<key>"] into the marker ["[REDACTED]"]. *)
Theorem access_key_is_redacted :
  forall key : string,
    String.length key = 16 ->
    Forall (fun c => capital_or_digit c = true) (chars key) ->
    _redact_secrets ("AKIA" ++ key) = "[REDACTED]".
Proof.
  intros key Hlen Hall. unfold _redact_secrets.
  assert (Hc : chars ("AKIA" ++ key) = chars "AKIA" ++ chars key) by reflexivity.
  rewrite Hc, akia_key_chars; [reflexivity | | exact Hall].
  rewrite length_chars. exact Hlen.
Qed.

Lemma access_key_is_redacted_witness :
  _redact_secrets "AKIA0123456789ABCDEF" = "[REDACTED]".
Proof.
  apply (@access_key_is_redacted "0123456789ABCDEF").
  - reflexivity.
  - repeat constructor.
Defined.

(* ------------------------------------------------------------------ *)
(** ** The local notes server *)

Lemma lstrip_nil (l : list ascii) : lstrip l = [] <-> forallb is_space l = true.
Proof.
  induction l as [| c l IH]; simpl; [tauto |].
  destruct (is_space c); simpl; [exact IH |].
  split; intros H; discriminate H.
Qed.

Lemma lstrip_incl (l : list ascii) c : In c (lstrip l) -> In c l.
Proof.
  induction l as [| a l IH]; simpl; [tauto |].
  destruct (is_space a); simpl; [right; auto | tauto].
Qed.

Lemma lstrip_keeps (l : list ascii) c :
  In c l -> is_space c = false -> In c (lstrip l).
Proof.
  induction l as [| a l IH]; simpl; [tauto |].
  intros [<- | Hin] Hc.
  - rewrite Hc. left. reflexivity.
  - destruct (is_space a); [apply IH; assumption | right; assumption].
Qed.

Lemma not_all_space (l : list ascii) :
  forallb is_space l = false <-> exists c, In c l /\ is_space c = false.
Proof.
  induction l as [| a l IH]; simpl.
  - split; [discriminate | intros (c & [] & _)].
  - destruct (is_space a) eqn:E; simpl.
    + rewrite IH. split.
      * intros (c & Hin & Hc). exists c. auto.
      * intros (c & [<- | Hin] & Hc); [congruence | exists c; auto].
    + split; [intros _; exists a; auto | reflexivity].
Qed.

(** [s.strip()] is empty exactly when [s] is blank. *)
Lemma strip_blank (s : string) : truthy_str (strip s) = negb (Notes.blank s).
Proof.
  unfold Notes.blank, strip.
  destruct (forallb is_space (chars s)) eqn:E.
  - apply lstrip_nil in E. rewrite E. reflexivity.
  - apply not_all_space in E. destruct E as (c & Hin & Hc).
    assert (H2 : In c (lstrip (rev (lstrip (chars s))))).
    { apply lstrip_keeps; [| exact Hc]. apply -> in_rev.
      apply lstrip_keeps; assumption. }
    apply in_rev in H2.
    destruct (rev (lstrip (rev (lstrip (chars s))))) as [| a l];
      [destruct H2 | reflexivity].
Qed.

(** X23.  [read_notes] never returns an empty or blank text: whatever
    the file system does, its result has a character that is not white
    space - the text of the notes, or one of its three messages. *)
Theorem read_notes_never_blank :
  forall (D : Type) (fs : Notes.FileSystem D) (d : D),
    Notes.blank (fst (Notes.read_notes fs d)) = false
    /\ fst (Notes.read_notes fs d) <> EmptyString.
Proof.
  intros D fs d.
  assert (Hb : Notes.blank (fst (Notes.read_notes fs d)) = false).
  { unfold Notes.read_notes.
    destruct (Notes.read_text fs d) as [[notes | [msg | msg]] d'];
      cbn [fst]; try reflexivity.
    rewrite strip_blank. destruct (Notes.blank notes) eqn:E; [reflexivity | exact E]. }
  split; [exact Hb |].
  intros E. rewrite E in Hb. discriminate Hb.
Qed.

(** X24.  On a disk that behaves like a text file, a note that
    [add_note_to_file] reports as appended is stored after everything
    the file held before, followed by one newline, and the next
    [read_notes] returns the whole text, as reading decodes it - or
    ["No notes found."] when that text is blank. *)
Theorem add_note_then_read :
  forall (D : Type) (fs : Notes.FileSystem D) contents decode content (d d' : D),
    Notes.text_file fs contents decode ->
    Notes.add_note_to_file fs content d = ("Content appended to notes.txt.", d') ->
    let stored := (match contents d with Some old => old | None => EmptyString end
                   ++ content ++ Notes.newline)%string in
    contents d' = Some stored
    /\ Notes.read_notes fs d'
       = (if Notes.blank (decode stored) then "No notes found." else decode stored,
          d').
Proof.
  intros D fs contents decode content d d' Hfs Hadd stored.
  unfold Notes.add_note_to_file in Hadd.
  destruct (Notes.parent_mkdir fs d) as [[[] | e] d1] eqn:Hm;
    [| cbn in Hadd; inversion Hadd].
  destruct (Notes.append_text fs (content ++ Notes.newline) d1)
    as [[[] | e] d2] eqn:Ha; [| cbn in Hadd; inversion Hadd].
  inversion Hadd; subst d2.
  assert (Hc : contents d' = Some stored).
  { rewrite (Notes.append_adds Hfs _ _ Ha), (Notes.mkdir_keeps Hfs _ Hm).
    unfold stored. destruct (contents d); reflexivity. }
  split; [exact Hc |].
  unfold Notes.read_notes. rewrite (Notes.read_existing Hfs _ Hc).
  rewrite strip_blank. destruct (Notes.blank (decode stored)); reflexivity.
Qed.

Lemma memory_disk_is_text_file :
  Notes.text_file Notes.memory_disk (fun d => d) (fun s => s).
Proof.
  constructor.
  - intros d r d' H. inversion H. reflexivity.
  - intros s d d' H. inversion H. reflexivity.
  - intros d s ->. reflexivity.
Qed.

Lemma add_note_then_read_witness :
  let before := Some ("call Ana" ++ Notes.newline)%string in
  Notes.read_notes Notes.memory_disk
    (snd (Notes.add_note_to_file Notes.memory_disk "buy milk" before))
  = (("call Ana" ++ Notes.newline ++ "buy milk" ++ Notes.newline)%string,
     snd (Notes.add_note_to_file Notes.memory_disk "buy milk" before)).
Proof.
  intros before.
  exact (proj2 (@add_note_then_read
                  _ Notes.memory_disk (fun d => d) (fun s => s) "buy milk"
                  before _ memory_disk_is_text_file eq_refl)).
Defined.
